(** * Laser test grid marker: grid model, annotation store and CSV round trip

    A shallow embedding of the non-GUI logic of [grid_v1.py] and [grid_v2.py]:
    axis value generation, the (tab, row, col) annotation dictionary, the
    metadata + pipe-delimited export and the import that re-anchors notes
    against freshly generated sequences.

    Conventions.  A Python [str] is a [string] whose characters are the code
    points below 256; a Python [int] is a [Z]; a Python [float] is an IEEE-754
    binary64 value of [spec_float] (precision 53, emax 1024), with
    round-to-nearest-even arithmetic taken from the standard library's
    [SpecFloat].  Tk widgets are represented by the text they hold. *)

From Stdlib Require Import ZArith Ascii String List Bool Lia.
From Stdlib Require Import Floats.SpecFloat.
From stdpp Require Import gmap strings list sorting.

Local Open Scope Z_scope.

(** ** Python built-ins used by the program *)

Module Py.

(** *** Characters and [str] methods *)

Definition code (c : ascii) : N := N_of_ascii c.

(** [str.isspace] on the code points below 256. *)
Definition isspace (c : ascii) : bool :=
  match code c with
  | 9 | 10 | 11 | 12 | 13 | 28 | 29 | 30 | 31 | 32 | 133 | 160 => true
  | _ => false
  end%N.

(** The white space skipped by [int(str)] and [float(str)]: ASCII characters
    go through [Py_ISSPACE], the others through [Py_UNICODE_ISSPACE]. *)
Definition isspace_num (c : ascii) : bool :=
  match code c with
  | 9 | 10 | 11 | 12 | 13 | 32 | 133 | 160 => true
  | _ => false
  end%N.

Definition isdigit (c : ascii) : bool :=
  (48 <=? code c)%N && (code c <=? 57)%N.

Definition digit_val (c : ascii) : Z := Z.of_N (code c) - 48.

Definition lower (c : ascii) : ascii :=
  if (65 <=? code c)%N && (code c <=? 90)%N
  then ascii_of_N (code c + 32) else c.

Fixpoint lstrip_with (sp : ascii -> bool) (s : string) : string :=
  match s with
  | String c s' => if sp c then lstrip_with sp s' else s
  | EmptyString => EmptyString
  end.

Fixpoint rstrip_with (sp : ascii -> bool) (s : string) : string :=
  match s with
  | EmptyString => EmptyString
  | String c s' =>
      match rstrip_with sp s' with
      | EmptyString => if sp c then EmptyString else String c EmptyString
      | t => String c t
      end
  end.

(** [s.strip()] *)
Definition strip (s : string) : string := rstrip_with isspace (lstrip_with isspace s).

Definition len (s : string) : nat := String.length s.

(** [s[:n]] for [n >= 0] *)
Fixpoint str_take (n : nat) (s : string) : string :=
  match n, s with
  | S n', String c s' => String c (str_take n' s')
  | _, _ => EmptyString
  end.

(** [s.startswith(c)] for a one-character prefix *)
Definition startswith_char (c : ascii) (s : string) : bool :=
  match s with
  | String d _ => if ascii_dec c d then true else false
  | EmptyString => false
  end.

(** [c in s] *)
Fixpoint contains_char (c : ascii) (s : string) : bool :=
  match s with
  | EmptyString => false
  | String d s' => if ascii_dec c d then true else contains_char c s'
  end.

(** [s.split(c, 1)] when [c in s]: the text before and after the first [c]. *)
Fixpoint split_once (c : ascii) (s : string) : string * string :=
  match s with
  | EmptyString => (EmptyString, EmptyString)
  | String d s' =>
      if ascii_dec c d then (EmptyString, s')
      else let '(a, b) := split_once c s' in (String d a, b)
  end.

(** [s.replace(a, b)] for single characters *)
Fixpoint replace_char (a b : ascii) (s : string) : string :=
  match s with
  | EmptyString => EmptyString
  | String d s' => String (if ascii_dec a d then b else d) (replace_char a b s')
  end.

Definition str_eqb (a b : string) : bool := bool_decide (a = b).

Fixpoint str_concat (l : list string) : string :=
  match l with
  | [] => EmptyString
  | s :: l' => s +:+ str_concat l'
  end.

(** *** [int]: decimal text *)

Definition digit_char (d : Z) : ascii := ascii_of_N (Z.to_N (48 + d)).

Fixpoint digits_of_pos_fuel (fuel : nat) (n : Z) (acc : string) : string :=
  match fuel with
  | O => acc
  | S fuel' =>
      let acc' := String (digit_char (n mod 10)) acc in
      if n / 10 =? 0 then acc' else digits_of_pos_fuel fuel' (n / 10) acc'
  end.

(** Decimal digits of a non-negative integer ([Z.log2 n + 1] steps suffice). *)
Definition digits_of_Z (n : Z) : string :=
  digits_of_pos_fuel (S (Z.to_nat (Z.log2 n))) n EmptyString.

(** [str(n)] for an [int].  CPython refuses to render an integer of more
    digits than the conversion limit of 4300; the integers the program
    renders (tab numbers of cells, row counts, rounded binary64 values)
    have at most 309. *)
Definition str_of_int (n : Z) : string :=
  if n <? 0 then String "-"%char (digits_of_Z (- n)) else digits_of_Z n.

(** Digits with single underscores between them, as [int] and [float] accept:
    the accumulated value and the number of digits read. *)
Fixpoint read_digits (s : string) (prev_digit : bool) (acc : Z) (n : nat)
  : option (Z * nat * string) :=
  match s with
  | EmptyString => if prev_digit then Some (acc, n, s) else None
  | String c s' =>
      if isdigit c then read_digits s' true (10 * acc + digit_val c) (S n)
      else if ascii_dec c "_"%char then
        (if prev_digit
         then match s' with
              | String d _ => if isdigit d then read_digits s' false acc n else None
              | EmptyString => None
              end
         else None)
      else if prev_digit then Some (acc, n, s) else None
  end.

Definition strip_num (s : string) : string :=
  rstrip_with isspace_num (lstrip_with isspace_num s).

Definition read_sign (s : string) : bool * string :=
  match s with
  | String "-"%char s' => (true, s')
  | String "+"%char s' => (false, s')
  | _ => (false, s)
  end.

(** The default of [sys.get_int_max_str_digits()]. *)
Definition INT_MAX_STR_DIGITS : Z := 4300.

(** [int(s)]: [None] stands for [ValueError], raised for a text that is
    no decimal literal and for a literal of more digits than the limit. *)
Definition int_of_str (s : string) : option Z :=
  let '(neg, body) := read_sign (strip_num s) in
  match read_digits body false 0 O with
  | Some (v, n, EmptyString) =>
      if INT_MAX_STR_DIGITS <? Z.of_nat n then None else Some (if neg then - v else v)
  | _ => None
  end.

(** *** Exceptions *)

Inductive exn :=
| ValueError (msg : string)
| OverflowError (msg : string)
| ZeroDivisionError (msg : string)
| IndexError
| KeyError (k : string)
| AttributeError
| TypeError
| CsvError (msg : string).

Inductive result (A : Type) :=
| Ok (a : A)
| Raise (e : exn).
Arguments Ok {A} a.
Arguments Raise {A} e.

(** [str(e)] *)
Definition exn_message (e : exn) : string :=
  match e with
  | ValueError m | OverflowError m | ZeroDivisionError m | CsvError m => m
  | KeyError k => k
  | IndexError => "list index out of range"
  | AttributeError => "'NoneType' object has no attribute 'strip'"
  | TypeError => "int() argument must be a string, a bytes-like object or a real number, not 'NoneType'"
  end.

#[global] Instance result_ret : MRet result := fun _ a => Ok a.
#[global] Instance result_bind : MBind result := fun _ _ k r =>
  match r with
  | Ok a => k a
  | Raise e => Raise e
  end.

(** *** [float]: IEEE-754 binary64 *)

Definition prec : Z := 53.
Definition emax : Z := 1024.

Abbreviation float := spec_float.

Definition fadd : float -> float -> float := SFadd prec emax.
Definition fsub : float -> float -> float := SFsub prec emax.
Definition fmul : float -> float -> float := SFmul prec emax.
Definition fdiv : float -> float -> float := SFdiv prec emax.
Definition feqb : float -> float -> bool := SFeqb.
Definition fltb : float -> float -> bool := SFltb.

(** [x / y]: Python raises on a zero divisor instead of returning an
    infinity or a NaN. *)
Definition truediv (x y : float) : result float :=
  match y with
  | S754_zero _ => Raise (ZeroDivisionError "float division by zero")
  | _ => Ok (fdiv x y)
  end.

Definition is_finite (x : float) : bool :=
  match x with
  | S754_zero _ | S754_finite _ _ _ => true
  | _ => false
  end.

(** The float nearest to [(-1)^neg * d * 10^e], ties to even. *)
Definition float_of_decimal (neg : bool) (d e : Z) : float :=
  if d =? 0 then S754_zero neg
  else if 0 <=? e then binary_normalize prec emax (cond_Zopp neg (d * 10 ^ e)) 0 neg
  else
    let '(q, e', l) := SFdiv_core_binary prec emax d 0 (10 ^ (- e)) 0 in
    binary_round_aux prec emax neg q e' l.

(** Conversion of an [int] operand in mixed arithmetic ([PyLong_AsDouble]). *)
Definition float_of_int (n : Z) : result float :=
  match binary_normalize prec emax n 0 false with
  | S754_infinity _ => Raise (OverflowError "int too large to convert to float")
  | x => Ok x
  end.

Fixpoint lower_str (s : string) : string :=
  match s with
  | EmptyString => EmptyString
  | String c s' => String (lower c) (lower_str s')
  end.

(** The optional exponent part of a float literal: [e], a sign, digits. *)
Definition read_exponent (s : string) : option Z :=
  match s with
  | EmptyString => Some 0
  | String c s' =>
      if ascii_dec (lower c) "e"%char then
        let '(neg, body) := read_sign s' in
        match read_digits body false 0 O with
        | Some (v, _, EmptyString) => Some (if neg then - v else v)
        | _ => None
        end
      else None
  end.

(** A decimal literal without sign: digits, an optional point and digits, an
    optional exponent; at least one digit in the mantissa. *)
Definition read_decimal (neg : bool) (s : string) : option float :=
  let after_int :=
    match s with
    | String "."%char _ => Some (0, O, s)
    | _ => read_digits s false 0 O
    end in
  match after_int with
  | None => None
  | Some (ip, ni, rest) =>
      let after_frac :=
        match rest with
        | String "."%char rest' =>
            match rest' with
            | String c _ =>
                if isdigit c then
                  match read_digits rest' false ip O with
                  | Some (v, nf, rest'') => Some (v, nf, rest'')
                  | None => None
                  end
                else Some (ip, O, rest')
            | EmptyString => Some (ip, O, rest')
            end
        | _ => Some (ip, O, rest)
        end in
      match after_frac with
      | None => None
      | Some (v, nf, rest'') =>
          if (Nat.eqb ni 0 && Nat.eqb nf 0)%bool then None
          else match read_exponent rest'' with
               | Some ex => Some (float_of_decimal neg v (ex - Z.of_nat nf))
               | None => None
               end
      end
  end.

(** [float(s)]: [None] stands for [ValueError]. *)
Definition float_of_str (s : string) : option float :=
  let '(neg, body) := read_sign (strip_num s) in
  let low := lower_str body in
  if str_eqb low "inf" || str_eqb low "infinity" then Some (S754_infinity neg)
  else if str_eqb low "nan" then Some S754_nan
  else read_decimal neg body.

(** *** Decimal rendering of a [float] *)

(** Nearest integer to [num / den], ties to even ([0 <= num], [0 < den]). *)
Definition round_half_even (num den : Z) : Z :=
  let q := num / den in
  let r := num mod den in
  if 2 * r <? den then q
  else if 2 * r =? den then (if Z.even q then q else q + 1)
  else q + 1.

(** A finite non-zero magnitude [m * 2^e] as a fraction. *)
Definition num_of (m : positive) (e : Z) : Z :=
  if 0 <=? e then Zpos m * 2 ^ e else Zpos m.
Definition den_of (e : Z) : Z :=
  if 0 <=? e then 1 else 2 ^ (- e).

Fixpoint zeros (n : nat) : string :=
  match n with
  | O => EmptyString
  | S n' => String "0"%char (zeros n')
  end.

(** [q] printed with the decimal point [nd] places from the right. *)
Definition fixed_digits (nd : nat) (q : Z) : string :=
  let ip := q / 10 ^ Z.of_nat nd in
  let fp := digits_of_Z (q mod 10 ^ Z.of_nat nd) in
  match nd with
  | O => digits_of_Z ip
  | _ => digits_of_Z ip +:+ "." +:+ zeros (nd - len fp) +:+ fp
  end.

Definition sign_str (s : bool) : string := if s then "-" else EmptyString.

(** [f"{x:.<nd>f}"] *)
Definition format_fixed (nd : nat) (x : float) : string :=
  match x with
  | S754_nan => "nan"
  | S754_infinity s => sign_str s +:+ "inf"
  | S754_zero s => sign_str s +:+ fixed_digits nd 0
  | S754_finite s m e =>
      sign_str s +:+
      fixed_digits nd (round_half_even (num_of m e * 10 ^ Z.of_nat nd) (den_of e))
  end.

(** [round(x)]: the nearest [int], ties to even. *)
Definition round_to_int (x : float) : result Z :=
  match x with
  | S754_nan => Raise (ValueError "cannot convert float NaN to integer")
  | S754_infinity _ => Raise (OverflowError "cannot convert float infinity to integer")
  | S754_zero _ => Ok 0
  | S754_finite s m e => Ok (cond_Zopp s (round_half_even (num_of m e) (den_of e)))
  end.

(** [round(x, 1)]: the float nearest to the one-decimal rendering of [x]. *)
Definition round_1 (x : float) : float :=
  match x with
  | S754_finite s m e =>
      float_of_decimal s (round_half_even (num_of m e * 10) (den_of e)) (-1)
  | _ => x
  end.

(** [x.is_integer()] *)
Definition is_integer (x : float) : bool :=
  match x with
  | S754_zero _ => true
  | S754_finite _ m e => num_of m e mod den_of e =? 0
  | _ => false
  end.

(** [int(x)] for a finite [x]: truncation towards zero. *)
Definition trunc_to_int (x : float) : Z :=
  match x with
  | S754_finite s m e => cond_Zopp s (num_of m e / den_of e)
  | _ => 0
  end.

(** The least [p] with [num / den < 10^p], searched upwards from [p]. *)
Fixpoint decimal_point_from (fuel : nat) (num den p : Z) : Z :=
  match fuel with
  | O => p
  | S fuel' =>
      let below :=
        if 0 <=? p then num <? den * 10 ^ p else num * 10 ^ (- p) <? den in
      if below then p else decimal_point_from fuel' num den (p + 1)
  end.

#[global] Instance float_eq_dec : EqDecision spec_float.
Proof. solve_decision. Defined.

Definition roundtrips (x : float) (c sc : Z) : bool :=
  bool_decide (float_of_decimal false c sc = x).

(** The shortest digit string that reads back as [x = m * 2^e], and among
    those the nearest to [x]: the digits as an integer [c] and the exponent
    [sc] with [x ~ c * 10^sc]. *)
Fixpoint shortest_digits (fuel : nat) (k : Z) (m : positive) (e p : Z) : Z * Z :=
  let num := num_of m e in
  let den := den_of e in
  let sc := p - k in
  let n := if 0 <=? sc then num else num * 10 ^ (- sc) in
  let d := if 0 <=? sc then den * 10 ^ sc else den in
  let lo := n / d in
  let r := n mod d in
  let x := S754_finite false m e in
  let here :=
    match roundtrips x lo sc, roundtrips x (lo + 1) sc with
    | true, true => Some (if 2 * r <=? d then lo else lo + 1)
    | true, false => Some lo
    | false, true => Some (lo + 1)
    | false, false => None
    end in
  match here, fuel with
  | Some c, _ => (c, sc)
  | None, S fuel' => shortest_digits fuel' (k + 1) m e p
  | None, O => (round_half_even n d, sc)
  end.

Fixpoint strip_trailing_zeros (fuel : nat) (c sc : Z) : Z * Z :=
  match fuel with
  | O => (c, sc)
  | S fuel' =>
      if (c mod 10 =? 0) && negb (c =? 0)
      then strip_trailing_zeros fuel' (c / 10) (sc + 1) else (c, sc)
  end.

(** The exponent of the scientific form: sign, at least two digits. *)
Definition exp_str (x : Z) : string :=
  (if x <? 0 then "e-" else "e+") +:+
  (if Z.abs x <? 10 then "0" else EmptyString) +:+ digits_of_Z (Z.abs x).

Fixpoint str_drop (n : nat) (s : string) : string :=
  match n, s with
  | S n', String _ s' => str_drop n' s'
  | _, _ => s
  end.

(** Layout of [repr]: digits [ds] with the decimal point [dp] places after
    their start. *)
Definition repr_layout (ds : string) (dp : Z) : string :=
  let n := Z.of_nat (len ds) in
  if (dp <=? -4) || (16 <? dp) then
    str_take 1 ds +:+
    (if 1 <? n then "." +:+ str_drop 1 ds else EmptyString) +:+ exp_str (dp - 1)
  else if dp <=? 0 then "0." +:+ zeros (Z.to_nat (- dp)) +:+ ds
  else if n <=? dp then ds +:+ zeros (Z.to_nat (dp - n)) +:+ ".0"
  else str_take (Z.to_nat dp) ds +:+ "." +:+ str_drop (Z.to_nat dp) ds.

(** [str(x)] and [repr(x)] for a [float] *)
Definition str_of_float (x : float) : string :=
  match x with
  | S754_nan => "nan"
  | S754_infinity s => sign_str s +:+ "inf"
  | S754_zero s => sign_str s +:+ "0.0"
  | S754_finite s m e =>
      let p := decimal_point_from 700 (num_of m e) (den_of e) (-330) in
      let '(c, sc) := shortest_digits 17 1 m e p in
      let '(c', sc') := strip_trailing_zeros 20 c sc in
      let ds := digits_of_Z c' in
      sign_str s +:+ repr_layout ds (sc' + Z.of_nat (len ds))
  end.

(** *** The [csv] module: excel dialect with a chosen delimiter

    [quotechar] is the double quote, [doublequote] is on, [escapechar] is
    unset, [quoting] is [QUOTE_MINIMAL], [lineterminator] is CR LF, [strict]
    is off.  The states that only an escape character reaches are left
    out. *)

Definition dquote : ascii := ascii_of_nat 34.
Definition CR : ascii := ascii_of_nat 13.
Definition LF : ascii := ascii_of_nat 10.
Definition NUL : ascii := ascii_of_nat 0.

Definition is_newline (c : ascii) : bool :=
  bool_decide (c = CR) || bool_decide (c = LF).

Fixpoint str_exists (f : ascii -> bool) (s : string) : bool :=
  match s with
  | EmptyString => false
  | String c s' => f c || str_exists f s'
  end.

Fixpoint double_quotes (s : string) : string :=
  match s with
  | EmptyString => EmptyString
  | String c s' =>
      if bool_decide (c = dquote) then String c (String c (double_quotes s'))
      else String c (double_quotes s')
  end.

(** One field as the writer emits it. *)
Definition csv_field (delim : ascii) (s : string) : string :=
  if str_exists (λ c, bool_decide (c = delim) || bool_decide (c = dquote) || is_newline c) s
  then String dquote (double_quotes s +:+ String dquote EmptyString)
  else s.

Fixpoint str_join (sep : string) (l : list string) : string :=
  match l with
  | [] => EmptyString
  | [x] => x
  | x :: l' => x +:+ sep +:+ str_join sep l'
  end.

(** [writer.writerow(fields)]: the record with its line terminator. *)
Definition csv_writerow (delim : ascii) (fields : list string) : string :=
  match fields with
  | [EmptyString] => String dquote (String dquote (String CR (String LF EmptyString)))
  | _ => str_join (String delim EmptyString) (csv_field delim <$> fields)
         +:+ String CR (String LF EmptyString)
  end.

Inductive parser_state :=
| START_RECORD | START_FIELD | IN_FIELD | IN_QUOTED_FIELD
| QUOTE_IN_QUOTED_FIELD | EAT_CRNL.

(** The reader object: its state, the characters of the field being read
    (latest first) and the fields already saved (latest first). *)
Record reader := {
  rstate : parser_state;
  rfield : list ascii;
  rfields : list string
}.

Definition field_limit : Z := 131072.

Definition parse_reset : reader :=
  {| rstate := START_RECORD; rfield := []; rfields := [] |}.

Definition parse_save_field (st : parser_state) (r : reader) : reader :=
  {| rstate := st; rfield := [];
     rfields := string_of_list_ascii (rev (rfield r)) :: rfields r |}.

Definition parse_add_char (st : parser_state) (c : ascii) (r : reader) : result reader :=
  if field_limit <=? Z.of_nat (length (rfield r))
  then Raise (CsvError "field larger than field limit (131072)")
  else Ok {| rstate := st; rfield := c :: rfield r; rfields := rfields r |}.

Definition with_state (st : parser_state) (r : reader) : reader :=
  {| rstate := st; rfield := rfield r; rfields := rfields r |}.

Definition start_field (delim : ascii) (c : option ascii) (r : reader) : result reader :=
  match c with
  | None => Ok (parse_save_field START_RECORD r)
  | Some c =>
      if is_newline c then Ok (parse_save_field EAT_CRNL r)
      else if bool_decide (c = dquote) then Ok (with_state IN_QUOTED_FIELD r)
      else if bool_decide (c = delim) then Ok (parse_save_field START_FIELD r)
      else parse_add_char IN_FIELD c r
  end.

(** [parse_process_char]; [None] is the end-of-line marker the reader feeds
    after the last character of each line. *)
Definition parse_process_char (delim : ascii) (c : option ascii) (r : reader)
  : result reader :=
  match rstate r with
  | START_RECORD =>
      match c with
      | None => Ok r
      | Some c' =>
          if is_newline c' then Ok (with_state EAT_CRNL r) else start_field delim c r
      end
  | START_FIELD => start_field delim c r
  | IN_FIELD =>
      match c with
      | None => Ok (parse_save_field START_RECORD r)
      | Some c =>
          if is_newline c then Ok (parse_save_field EAT_CRNL r)
          else if bool_decide (c = delim) then Ok (parse_save_field START_FIELD r)
          else parse_add_char IN_FIELD c r
      end
  | IN_QUOTED_FIELD =>
      match c with
      | None => Ok r
      | Some c =>
          if bool_decide (c = dquote) then Ok (with_state QUOTE_IN_QUOTED_FIELD r)
          else parse_add_char IN_QUOTED_FIELD c r
      end
  | QUOTE_IN_QUOTED_FIELD =>
      match c with
      | None => Ok (parse_save_field START_RECORD r)
      | Some c =>
          if bool_decide (c = dquote) then parse_add_char IN_QUOTED_FIELD c r
          else if bool_decide (c = delim) then Ok (parse_save_field START_FIELD r)
          else if is_newline c then Ok (parse_save_field EAT_CRNL r)
          else parse_add_char IN_FIELD c r
      end
  | EAT_CRNL =>
      match c with
      | None => Ok (with_state START_RECORD r)
      | Some c =>
          if is_newline c then Ok r
          else Raise (CsvError "new-line character seen in unquoted field")
      end
  end.

Fixpoint parse_line (delim : ascii) (line : string) (r : reader) : result reader :=
  match line with
  | EmptyString => parse_process_char delim None r
  | String c line' =>
      r' ← parse_process_char delim (Some c) r; parse_line delim line' r'
  end.

(** [list(csv.reader(lines, delimiter=delim))]: one record per call of
    [__next__], a record running on over the following line while a quoted
    field is open. *)
Fixpoint csv_reader (delim : ascii) (lines : list string) (r : reader)
  : result (list (list string)) :=
  match lines with
  | [] =>
      match rfield r, rstate r with
      | [], IN_QUOTED_FIELD | _ :: _, _ =>
          Ok [rev (rfields (parse_save_field START_RECORD r))]
      | [], _ => Ok []
      end
  | line :: lines' =>
      r' ← parse_line delim line r;
      match rstate r' with
      | START_RECORD =>
          recs ← csv_reader delim lines' parse_reset; mret (rev (rfields r') :: recs)
      | _ => csv_reader delim lines' r'
      end
  end.

(** A row of [csv.DictReader]: the value of a field name is [None] when the
    record is shorter than the header ([restval]). *)
Fixpoint dict_row (fieldnames : list string) (rec : list string)
  (d : gmap string (option string)) : gmap string (option string) :=
  match fieldnames, rec with
  | [], _ => d
  | f :: fs, v :: vs => dict_row fs vs (<[f := Some v]> d)
  | f :: fs, [] => dict_row fs [] (<[f := None]> d)
  end.

(** [list(csv.DictReader(lines, delimiter=delim))] *)
Definition csv_DictReader (delim : ascii) (lines : list string)
  : result (list (gmap string (option string))) :=
  recs ← csv_reader delim lines parse_reset;
  match recs with
  | [] => mret []
  | fieldnames :: recs' =>
      mret ((λ rec, dict_row fieldnames rec ∅) <$> filter (λ rec, rec ≠ []) recs')
  end.

(** Text-mode iteration over a file with universal newlines: the lines
    without their terminators (a CR LF pair leaves an empty line between its
    two characters, which every caller here discards). *)
Fixpoint splitlines_aux (s : string) (cur : list ascii) : list string :=
  match s with
  | EmptyString =>
      match cur with
      | [] => []
      | _ => [string_of_list_ascii (rev cur)]
      end
  | String c s' =>
      if is_newline c then string_of_list_ascii (rev cur) :: splitlines_aux s' []
      else splitlines_aux s' (c :: cur)
  end.

Definition splitlines (s : string) : list string := splitlines_aux s [].

(** *** Messages of failed conversions *)

(** [repr(s)] of a [str]: the quote is the apostrophe unless the text holds
    an apostrophe and no double quote; the quote, the backslash and the
    characters that are not printable are escaped. *)
Definition hex_digit (n : nat) : ascii :=
  nth n (list_ascii_of_string "0123456789abcdef") "0"%char.

Definition isprintable (c : ascii) : bool :=
  let n := nat_of_ascii c in
  ((32 <=? n)%nat && (n <? 127)%nat) || ((161 <=? n)%nat && negb (n =? 173)%nat).

Definition repr_char (quote c : ascii) : string :=
  if bool_decide (c = quote) || bool_decide (c = "\"%char)
  then String "\" (String c EmptyString)
  else if bool_decide (c = ascii_of_nat 9) then "\t"
  else if bool_decide (c = LF) then "\n"
  else if bool_decide (c = CR) then "\r"
  else if isprintable c then String c EmptyString
  else String "\" (String "x" (String (hex_digit (nat_of_ascii c / 16))
                                 (String (hex_digit (nat_of_ascii c mod 16))
                                    EmptyString))).

Definition repr (s : string) : string :=
  let quote := if contains_char "'" s && negb (contains_char dquote s)
               then dquote else "'"%char in
  String quote (str_concat (repr_char quote <$> list_ascii_of_string s)
                +:+ String quote EmptyString).

(** The [ValueError] of [int(s)] for a text it does not accept: a run of
    digits longer than the limit is refused whatever follows it; any other
    text is quoted in the message, cut to 200 characters. *)
Definition int_value_error (s : string) : exn :=
  let invalid :=
    ValueError ("invalid literal for int() with base 10: " +:+ str_take 200 (repr s)) in
  let '(_, body) := read_sign (strip_num s) in
  match read_digits body false 0 O with
  | Some (_, n, _) =>
      if INT_MAX_STR_DIGITS <? Z.of_nat n then
        ValueError ("Exceeds the limit (4300 digits) for integer string conversion: "
                    +:+ "value has " +:+ str_of_int (Z.of_nat n) +:+ " digits; "
                    +:+ "use sys.set_int_max_str_digits() to increase the limit")
      else invalid
  | None => invalid
  end.

(** The [ValueError] of [float(s)] for a text it does not accept. *)
Definition float_value_error (s : string) : exn :=
  ValueError ("could not convert string to float: " +:+ repr s).

End Py.

(** ** grid_v2.py *)

Module V2.
Import Py.

(** *** CONFIG and PARAMETERS *)

Definition MAX_NOTE_LENGTH : nat := 512.
Definition DISPLAY_NOTE_LENGTH : nat := 40.
Definition DEFAULT_X_COUNTS : Z := 20.
Definition DEFAULT_Y_COUNTS : Z := 20.
Definition DEFAULT_SPEED : string := "3000".
Definition DEFAULT_POWER : string := "20".
Definition DEFAULT_FREQUENCY : string := "1000".
Definition DEFAULT_LINE_INTERVAL : string := "0.0250".
Definition DEFAULT_PASSES : string := "10".
Definition DEFAULT_QPULSE : string := "200".

Definition PARAMETERS : list string :=
  ["Speed"; "Power"; "Frequency"; "Line Interval"; "Passes"; "Q-Pulse"].

(** *** The state of [LaserGridApp] *)

(** A cell coordinate [(tab, row, col)]; rows and columns come from
    [enumerate], the tab of an imported row from [int(...)]. *)
Definition key : Type := Z * nat * nat.

(** [self.ranges[param]]: the two entry fields of one parameter. *)
Record range := { start : string; end_ : string }.

(** One notebook tab built by [_build_grid]. *)
Record tab := { tab_id : Z; tab_y : list string; tab_x : list string }.

(** A [ttk.Entry] of the global parameters: its text and whether
    [_update_global_field_states] disabled it (a disabled entry ignores
    [delete] and [insert]). *)
Record entry := { text : string; disabled : bool }.

(** Message boxes shown to the operator. *)
Inductive dialog :=
| showerror (title msg : string)
| showwarning (title msg : string)
| showinfo (title msg : string).

Record app := {
  notes : gmap key string;
  buttons : gset key;
  x_axis_var : string;
  y_axis_var : string;
  qpulse_mode : string;
  ranges : gmap string range;
  x_counts_var : string;
  y_counts_var : string;
  current_values_x : list string;
  current_values_y : list string;
  current_x_param : string;
  current_y_param : string;
  notebook : list tab;
  global_entries : list (string * entry)
}.

Definition set_notes (v : gmap key string) (a : app) : app :=
  {| notes := v; buttons := buttons a; x_axis_var := x_axis_var a;
     y_axis_var := y_axis_var a; qpulse_mode := qpulse_mode a; ranges := ranges a;
     x_counts_var := x_counts_var a; y_counts_var := y_counts_var a;
     current_values_x := current_values_x a; current_values_y := current_values_y a;
     current_x_param := current_x_param a; current_y_param := current_y_param a;
     notebook := notebook a; global_entries := global_entries a |}.

Definition set_grid (bs : gset key) (nb : list tab) (a : app) : app :=
  {| notes := notes a; buttons := bs; x_axis_var := x_axis_var a;
     y_axis_var := y_axis_var a; qpulse_mode := qpulse_mode a; ranges := ranges a;
     x_counts_var := x_counts_var a; y_counts_var := y_counts_var a;
     current_values_x := current_values_x a; current_values_y := current_values_y a;
     current_x_param := current_x_param a; current_y_param := current_y_param a;
     notebook := nb; global_entries := global_entries a |}.

Definition set_current_values_x (v : list string) (a : app) : app :=
  {| notes := notes a; buttons := buttons a; x_axis_var := x_axis_var a;
     y_axis_var := y_axis_var a; qpulse_mode := qpulse_mode a; ranges := ranges a;
     x_counts_var := x_counts_var a; y_counts_var := y_counts_var a;
     current_values_x := v; current_values_y := current_values_y a;
     current_x_param := current_x_param a; current_y_param := current_y_param a;
     notebook := notebook a; global_entries := global_entries a |}.

Definition set_current_values_y (v : list string) (a : app) : app :=
  {| notes := notes a; buttons := buttons a; x_axis_var := x_axis_var a;
     y_axis_var := y_axis_var a; qpulse_mode := qpulse_mode a; ranges := ranges a;
     x_counts_var := x_counts_var a; y_counts_var := y_counts_var a;
     current_values_x := current_values_x a; current_values_y := v;
     current_x_param := current_x_param a; current_y_param := current_y_param a;
     notebook := notebook a; global_entries := global_entries a |}.

Definition set_current_params (x y : string) (a : app) : app :=
  {| notes := notes a; buttons := buttons a; x_axis_var := x_axis_var a;
     y_axis_var := y_axis_var a; qpulse_mode := qpulse_mode a; ranges := ranges a;
     x_counts_var := x_counts_var a; y_counts_var := y_counts_var a;
     current_values_x := current_values_x a; current_values_y := current_values_y a;
     current_x_param := x; current_y_param := y;
     notebook := notebook a; global_entries := global_entries a |}.

Definition set_global_entries (v : list (string * entry)) (a : app) : app :=
  {| notes := notes a; buttons := buttons a; x_axis_var := x_axis_var a;
     y_axis_var := y_axis_var a; qpulse_mode := qpulse_mode a; ranges := ranges a;
     x_counts_var := x_counts_var a; y_counts_var := y_counts_var a;
     current_values_x := current_values_x a; current_values_y := current_values_y a;
     current_x_param := current_x_param a; current_y_param := current_y_param a;
     notebook := notebook a; global_entries := v |}.

(** The Tk variables an operator or a load can write: axes, mode, counts
    and ranges. *)
Definition set_inputs (xa ya mode : string) (rg : gmap string range)
  (xc yc : string) (a : app) : app :=
  {| notes := notes a; buttons := buttons a; x_axis_var := xa;
     y_axis_var := ya; qpulse_mode := mode; ranges := rg;
     x_counts_var := xc; y_counts_var := yc;
     current_values_x := current_values_x a; current_values_y := current_values_y a;
     current_x_param := current_x_param a; current_y_param := current_y_param a;
     notebook := notebook a; global_entries := global_entries a |}.

(** *** Axis value generator *)

Definition integer_class (param : string) : bool :=
  bool_decide (param ∈ ["Speed"; "Power"; "Passes"; "Q-Pulse"]).

(** The formatting of one sample in the general branch. *)
Definition format_value (param : string) (v : float) : result string :=
  if integer_class param then n ← round_to_int v; mret (str_of_int n)
  else if str_eqb param "Line Interval" then mret (format_fixed 4 v)
  else if str_eqb param "Frequency" then mret (format_fixed 1 v)
  else mret (format_fixed 2 v).

Definition invalid_range (param : string) : exn :=
  ValueError ("Invalid range for " +:+ param).

(** [_generate_values(param, counts)] *)
Definition _generate_values (rg : gmap string range) (param : string) (counts : Z)
  : result (list string) :=
  match rg !! param with
  | None => Raise (invalid_range param)
  | Some r =>
      match float_of_str (start r), float_of_str (end_ r) with
      | Some start, Some end_ =>
          if feqb start end_ then
            if str_eqb param "Frequency"
            then mret (replicate (Z.to_nat counts) (format_fixed 1 start))
            else mret (replicate (Z.to_nat counts) (str_of_float start))
          else
            d ← float_of_int (counts - 1);
            step ← truediv (fsub end_ start) d;
            values ← mapM (λ i, fi ← float_of_int i; mret (fadd start (fmul fi step)))
                          (seqZ 0 counts);
            mapM (format_value param) values
      | _, _ => Raise (invalid_range param)
      end
  end.

(** *** Grid model *)

(** The keys [_build_grid] registers in [self.buttons]. *)
Definition grid_keys (tab_id : Z) (y_values x_values : list string) : list key :=
  r ← seq 0 (length y_values); c ← seq 0 (length x_values); [(tab_id, r, c)].

(** [_build_grid(parent, tab_id, y_values, x_values)] *)
Definition _build_grid (tab_id : Z) (y_values x_values : list string) (a : app) : app :=
  set_grid (list_to_set (grid_keys tab_id y_values x_values) ∪ buttons a)
           (notebook a ++ [{| tab_id := tab_id; tab_y := y_values; tab_x := x_values |}])
           a.

(** [_create_single_grid()] *)
Definition _create_single_grid (a : app) : app :=
  _build_grid 0 (current_values_y a) (current_values_x a) a.

(** [_create_split_grids()] *)
Definition _create_split_grids (a : app) : app * list dialog :=
  let total := length (current_values_x a) in
  if (total <? 4)%nat then
    (_create_single_grid a,
     [showwarning "Split Grids" "Too few values to split. Using single grid."])
  else
    let mid := ((total + 1) / 2)%nat in
    let grid1_x := take mid (current_values_x a) in
    let grid2_x := drop mid (current_values_x a) in
    let a1 := _build_grid 1 (current_values_y a) grid1_x a in
    (_build_grid 2 (current_values_y a) grid2_x a1, []).

(** [clear_all(silent=True)] *)
Definition clear_all (a : app) : app := set_notes ∅ a.

(** [_update_global_field_states()] *)
Definition _update_global_field_states (a : app) : app :=
  set_global_entries
    ((λ pe : string * entry,
        (pe.1, {| text := text pe.2;
                  disabled := negb (str_eqb pe.1 "Title") &&
                              (str_eqb pe.1 (x_axis_var a) || str_eqb pe.1 (y_axis_var a)) |}))
       <$> global_entries a) a.

(** The [try] block of [apply_ranges]: the state reached and how the block
    ended.  An exception leaves the assignments made before it in place. *)
Definition apply_ranges_try (a : app) : app * list dialog * result () :=
  let x_param := x_axis_var a in
  let y_param := y_axis_var a in
  if str_eqb x_param y_param then
    (a, [], Raise (ValueError "X and Y axes cannot be the same parameter!"))
  else
    match int_of_str (x_counts_var a) with
    | None => (a, [], Raise (int_value_error (x_counts_var a)))
    | Some xc =>
    match int_of_str (y_counts_var a) with
    | None => (a, [], Raise (int_value_error (y_counts_var a)))
    | Some yc =>
    let x_counts := Z.max 2 xc in
    let y_counts := Z.max 2 yc in
    match _generate_values (ranges a) x_param x_counts with
    | Raise e => (a, [], Raise e)
    | Ok xs =>
    let a1 := set_current_values_x xs a in
    match _generate_values (ranges a1) y_param y_counts with
    | Raise e => (a1, [], Raise e)
    | Ok ys =>
    let a2 := set_current_values_y ys a1 in
    let a3 := set_current_params x_param y_param a2 in
    let a4 := set_grid (buttons a3) [] a3 in
    let '(a5, ds) :=
      if str_eqb (qpulse_mode a4) "Split" then _create_split_grids a4
      else (_create_single_grid a4, []) in
    (_update_global_field_states (clear_all a5), ds, Ok ())
    end end end end.

(** [apply_ranges(silent)]; [confirm] is the operator's answer to the
    confirmation box, asked only when [silent] is false. *)
Definition apply_ranges (silent confirm : bool) (a : app) : app * list dialog :=
  if negb silent && negb confirm then (a, [])
  else
    let '(a', ds, r) := apply_ranges_try a in
    match r with
    | Ok _ => (a', ds)
    | Raise (ValueError m) => (a', ds ++ [showerror "Input Error" m])
    | Raise e => (a', ds ++ [showerror "Error" (exn_message e)])
    end.

(** *** Annotation store *)

(** [edit_note(key)]; [answer] is what the note dialog returned ([None] when
    cancelled). *)
Definition edit_note (k : key) (answer : option string) (a : app) : app :=
  if bool_decide (k ∈ buttons a) then
    match answer with
    | None => a
    | Some new_text =>
        let new_text := strip new_text in
        let new_text :=
          if (MAX_NOTE_LENGTH <? len new_text)%nat
          then str_take MAX_NOTE_LENGTH new_text else new_text in
        match new_text with
        | EmptyString => set_notes (delete k (notes a)) a
        | _ => set_notes (<[k := new_text]> (notes a)) a
        end
    end
  else a.

(** *** Export encoder *)

(** [dict.get] and item assignment on the globals dictionary, kept in
    insertion order ([Title], then [PARAMETERS]). *)
Fixpoint dict_get (d : list (string * string)) (k : string) : option string :=
  match d with
  | [] => None
  | (k', v) :: d' => if str_eqb k k' then Some v else dict_get d' k
  end.

Definition dict_override (k v : string) (d : list (string * string))
  : list (string * string) :=
  (λ kv : string * string, if str_eqb kv.1 k then (kv.1, v) else kv) <$> d.

(** [globals_dict]: every global entry, stripped. *)
Definition globals_dict (a : app) : list (string * string) :=
  (λ pe : string * entry, (pe.1, strip (text pe.2))) <$> global_entries a.

(** The local [fmt] of [export_to_csv]. *)
Definition fmt (val : string) : string :=
  match float_of_str val with
  | None => val
  | Some f =>
      if is_integer f then str_of_int (trunc_to_int f)
      else if fltb (SFabs f) (S754_finite false 4503599627370496 (-52))
      then format_fixed 4 f
      else format_fixed 1 f
  end.

Definition key_le (a b : key * string) : Prop :=
  let '((t1, r1, c1), _) := a in
  let '((t2, r2, c2), _) := b in
  t1 < t2 ∨ (t1 = t2 ∧ ((r1 < r2)%nat ∨ (r1 = r2 ∧ (c1 <= c2)%nat))).

#[global] Instance key_le_dec : RelDecision key_le.
Proof. intros [[[t1 r1] c1] ?] [[[t2 r2] c2] ?]; simpl; apply _. Defined.

(** [sorted(self.notes.items())] *)
Definition sorted_notes (a : app) : list (key * string) :=
  merge_sort key_le (map_to_list (notes a)).

Definition header : list string :=
  ["Note"; "Tab"; "X_Param"; "X_Value"; "Y_Param"; "Y_Value"; "Title";
   "Speed"; "Power"; "Frequency"; "Line Interval"; "Passes"; "Q-Pulse"].

Definition getd (d : list (string * string)) (k dflt : string) : string :=
  default dflt (dict_get d k).

(** The thirteen fields of the row exported for one note. *)
Definition export_row (a : app) (kn : key * string) : result (list string) :=
  let '((tab, r, c), note_text) := kn in
  match current_values_x a !! c with
  | None => Raise IndexError
  | Some x_value =>
  match current_values_y a !! r with
  | None => Raise IndexError
  | Some y_value =>
      let cell_settings :=
        dict_override (current_y_param a) y_value
          (dict_override (current_x_param a) x_value (globals_dict a)) in
      let dynamic_title :=
        strip (note_text +:+ " (S:" +:+ fmt (getd cell_settings "Speed" "?")
               +:+ " P:" +:+ fmt (getd cell_settings "Power" "?")
               +:+ " F:" +:+ fmt (getd cell_settings "Frequency" "?")
               +:+ " QP:" +:+ fmt (getd cell_settings "Q-Pulse" "?")
               +:+ " LI:" +:+ fmt (getd cell_settings "Line Interval" "?")
               +:+ " Pass:" +:+ fmt (getd cell_settings "Passes" "?") +:+ ")") in
      Ok [note_text; str_of_int tab; current_x_param a; x_value;
          current_y_param a; y_value; dynamic_title;
          getd cell_settings "Speed" EmptyString;
          getd cell_settings "Power" EmptyString;
          getd cell_settings "Frequency" EmptyString;
          getd cell_settings "Line Interval" EmptyString;
          getd cell_settings "Passes" EmptyString;
          getd cell_settings "Q-Pulse" EmptyString]
  end end.

Definition export_rows (a : app) : result (list (list string)) :=
  mapM (export_row a) (sorted_notes a).

Definition nl : string := String LF EmptyString.

Definition range_lines (a : app) (param : string) : result string :=
  match ranges a !! param with
  | None => Raise (KeyError param)
  | Some r =>
      Ok ("#   " +:+ param +:+ "_start: " +:+ start r +:+ nl +:+
          "#   " +:+ param +:+ "_end: " +:+ end_ r +:+ nl)
  end.

(** Everything the [with open(...)] block writes. *)
Definition export_text (today : string) (a : app) (rows : list (list string))
  : result string :=
  rls ← mapM (range_lines a) PARAMETERS;
  mret ("# Laser Test Grid Export - Metadata" +:+ nl +:+
        "# Date: " +:+ today +:+ nl +:+
        "# X_Axis: " +:+ current_x_param a +:+ nl +:+
        "# Y_Axis: " +:+ current_y_param a +:+ nl +:+
        "# Mode: " +:+ (if str_eqb (qpulse_mode a) "Split" then "Split" else "Single") +:+ nl +:+
        "# X_counts: " +:+ x_counts_var a +:+ nl +:+
        "# Y_counts: " +:+ y_counts_var a +:+ nl +:+
        nl +:+ "# Parameter Ranges:" +:+ nl +:+
        str_concat rls +:+
        nl +:+ "# Global Parameters:" +:+ nl +:+
        str_concat ((λ kv : string * string, "#   " +:+ kv.1 +:+ ": " +:+ kv.2 +:+ nl)
                      <$> globals_dict a) +:+
        nl +:+
        csv_writerow "|" header +:+
        str_concat (csv_writerow "|" <$> rows)).

(** [export_to_csv()]: the text written, if any, and the message boxes.
    [chosen] tells whether the operator picked a file name; an exception of
    the row loop is not caught by the method. *)
Definition export_to_csv (chosen : bool) (today : string) (a : app)
  : result (option string * list dialog) :=
  if bool_decide (notes a = ∅) then mret (None, [showinfo "Export" "No notes to export."])
  else if negb chosen then mret (None, [])
  else
    rows ← export_rows a;
    match export_text today a rows with
    | Ok txt =>
        mret (Some txt,
              [showinfo "Success"
                 ("Exported " +:+ str_of_int (Z.of_nat (length rows)) +:+
                  " rows + metadata (pipe delimited)")])
    | Raise e => mret (None, [showerror "Export Error" (exn_message e)])
    end.

(** *** Import decoder *)

(** The first loop of [load_from_csv]: metadata and data lines. *)
Fixpoint read_lines (lines : list string) (metadata : gmap string string)
  (data_lines : list string) : gmap string string * list string :=
  match lines with
  | [] => (metadata, data_lines)
  | line :: lines' =>
      let line := strip line in
      if startswith_char "#" line && contains_char ":" line then
        let '(k, v) := split_once ":" (str_drop 1 line) in
        read_lines lines' (<[strip k := strip v]> metadata) data_lines
      else if negb (str_eqb line EmptyString) && negb (startswith_char "#" line) then
        read_lines lines' metadata (data_lines ++ [line])
      else read_lines lines' metadata data_lines
  end.

Definition restore_range (metadata : gmap string string) (rg : gmap string range)
  (param : string) : gmap string range :=
  match rg !! param with
  | None => rg
  | Some r =>
      <[param := {| start := default (start r) (metadata !! (param +:+ "_start"));
                    end_ := default (end_ r) (metadata !! (param +:+ "_end")) |}]> rg
  end.

(** The Tk variables after the metadata keys present in the file were
    written to them. *)
Definition restore_inputs (metadata : gmap string string) (a : app) : app :=
  set_inputs
    (default (x_axis_var a) (metadata !! "X_Axis"))
    (default (y_axis_var a) (metadata !! "Y_Axis"))
    (match metadata !! "Mode" with
     | Some m => if str_eqb m "Split" then "Split" else "Single"
     | None => qpulse_mode a
     end)
    (foldl (restore_range metadata) (ranges a) PARAMETERS)
    (default (x_counts_var a) (metadata !! "X_counts"))
    (default (y_counts_var a) (metadata !! "Y_counts"))
    a.

(** [entry.delete(0, END); entry.insert(0, v)] for the global parameters
    named in the metadata. *)
Definition restore_globals (metadata : gmap string string) (a : app) : app :=
  set_global_entries
    ((λ pe : string * entry,
        match metadata !! pe.1 with
        | Some v =>
            if bool_decide (pe.1 ∈ PARAMETERS ++ ["Title"]) && negb (disabled pe.2)
            then (pe.1, {| text := v; disabled := disabled pe.2 |}) else pe
        | None => pe
        end) <$> global_entries a) a.

(** [next((i for i, v in enumerate(values) if str(v) == str(val)), None)] *)
Definition index_of (values : list string) (val : string) : option nat :=
  fst <$> list_find (λ v, v = val) values.

(** [str(x)] for a field of a [DictReader] row *)
Definition str_of_field (x : option string) : string :=
  match x with
  | Some s => s
  | None => "None"
  end.

(** The body of the row loop: the cell and the note the row restores, or
    [None] when the row is skipped ([continue], a failed test, or any
    exception swallowed by the bare [except]). *)
Definition locate_row (a : app) (row : gmap string (option string))
  : option (key * string) :=
  match row !! "X_Param", row !! "Y_Param" with
  | Some xp, Some yp =>
      if bool_decide (xp = Some (current_x_param a)) &&
         bool_decide (yp = Some (current_y_param a)) then
        match row !! "X_Value", row !! "Y_Value" with
        | Some x_val, Some y_val =>
            match default (Some EmptyString) (row !! "Note") with
            | None => None
            | Some note_raw =>
                let note := strip note_raw in
                match default (Some "0") (row !! "Tab") with
                | None => None
                | Some tab_str =>
                    match int_of_str tab_str with
                    | None => None
                    | Some tab =>
                        match index_of (current_values_x a) (str_of_field x_val),
                              index_of (current_values_y a) (str_of_field y_val) with
                        | Some c, Some r =>
                            if bool_decide ((tab, r, c) ∈ buttons a)
                            then Some ((tab, r, c), note) else None
                        | _, _ => None
                        end
                    end
                end
            end
        | _, _ => None
        end
      else None
  | _, _ => None
  end.

(** One iteration of the row loop on the state and the [loaded] counter. *)
Definition load_row (st : app * Z) (row : gmap string (option string)) : app * Z :=
  match locate_row st.1 row with
  | Some (k, note) => (set_notes (<[k := note]> (notes st.1)) st.1, st.2 + 1)
  | None => st
  end.

(** [load_from_csv()] on the text of the chosen file ([None]: no file
    chosen).  Writing an axis variable fires its trace, which is
    [_update_global_field_states]. *)
Definition load_from_csv (file : option string) (a : app) : app * list dialog :=
  match file with
  | None => (a, [])
  | Some txt =>
      let '(metadata, data_lines) := read_lines (splitlines txt) ∅ [] in
      let a0 := restore_inputs metadata a in
      let a0 :=
        if bool_decide (is_Some (metadata !! "X_Axis")) ||
           bool_decide (is_Some (metadata !! "Y_Axis"))
        then _update_global_field_states a0 else a0 in
      let '(a1, ds) := apply_ranges true true a0 in
      let a2 := _update_global_field_states (restore_globals metadata a1) in
      match data_lines with
      | [] => (a2, ds ++ [showinfo "Load" "No data rows found, but metadata restored."])
      | _ =>
          match csv_DictReader "|" data_lines with
          | Raise e => (a2, ds ++ [showerror "Load Error" (exn_message e)])
          | Ok rows =>
              let '(a3, loaded) := foldl load_row (clear_all a2, 0) rows in
              (a3, ds ++ [showinfo "Load Complete"
                            ("Loaded " +:+ str_of_int loaded +:+ " notes" +:+ nl +:+
                             "Metadata restored.")])
          end
      end
  end.

(** The state the [try] block of [apply_ranges] leaves behind. *)
Definition applied (a : app) : app := (apply_ranges_try a).1.1.

(** *** Construction *)

Definition _default_start (param : string) : string :=
  default "1" (dict_get [("Speed", "4000"); ("Power", "90"); ("Frequency", "3800.0");
                         ("Line Interval", "0.0010"); ("Passes", "1"); ("Q-Pulse", "150")]
                        param).

Definition _default_end (param : string) : string :=
  default "200" (dict_get [("Speed", "1000"); ("Power", "10"); ("Frequency", "100.0");
                           ("Line Interval", "0.020"); ("Passes", "10"); ("Q-Pulse", "200")]
                          param).

Definition default_globals (today : string) : list (string * string) :=
  [("Title", "Laser Test - " +:+ today); ("Speed", DEFAULT_SPEED);
   ("Power", DEFAULT_POWER); ("Frequency", DEFAULT_FREQUENCY);
   ("Line Interval", DEFAULT_LINE_INTERVAL); ("Passes", DEFAULT_PASSES);
   ("Q-Pulse", DEFAULT_QPULSE)].

(** [LaserGridApp()] *)
Definition __init__ (today : string) : app :=
  (apply_ranges true true
     {| notes := ∅; buttons := ∅;
        x_axis_var := "Q-Pulse"; y_axis_var := "Frequency"; qpulse_mode := "Single";
        ranges := list_to_map
          ((λ p, (p, {| start := _default_start p; end_ := _default_end p |}))
             <$> PARAMETERS);
        x_counts_var := str_of_int DEFAULT_X_COUNTS;
        y_counts_var := str_of_int DEFAULT_Y_COUNTS;
        current_values_x := []; current_values_y := [];
        current_x_param := EmptyString; current_y_param := EmptyString;
        notebook := [];
        global_entries :=
          (λ kv : string * string, (kv.1, {| text := kv.2; disabled := false |}))
            <$> default_globals today |}).1.

End V2.

(** ** grid_v1.py *)

Module V1.
Import Py.

Definition key : Type := Z * nat * nat.

Inductive dialog :=
| showerror (title msg : string)
| showinfo (title msg : string).

Record app := {
  notes : gmap key string;
  buttons : gset key;
  current_freq_labels : list string;
  current_qpulse1 : list Z;
  current_qpulse2 : list Z;
  freq_start_var : string;
  freq_end_var : string;
  q1_start_var : string;
  q1_end_var : string;
  q2_start_var : string;
  q2_end_var : string
}.

Definition set_notes (v : gmap key string) (a : app) : app :=
  {| notes := v; buttons := buttons a;
     current_freq_labels := current_freq_labels a;
     current_qpulse1 := current_qpulse1 a; current_qpulse2 := current_qpulse2 a;
     freq_start_var := freq_start_var a; freq_end_var := freq_end_var a;
     q1_start_var := q1_start_var a; q1_end_var := q1_end_var a;
     q2_start_var := q2_start_var a; q2_end_var := q2_end_var a |}.

Definition set_buttons (v : gset key) (a : app) : app :=
  {| notes := notes a; buttons := v;
     current_freq_labels := current_freq_labels a;
     current_qpulse1 := current_qpulse1 a; current_qpulse2 := current_qpulse2 a;
     freq_start_var := freq_start_var a; freq_end_var := freq_end_var a;
     q1_start_var := q1_start_var a; q1_end_var := q1_end_var a;
     q2_start_var := q2_start_var a; q2_end_var := q2_end_var a |}.

Definition set_sequences (f : list string) (q1 q2 : list Z) (a : app) : app :=
  {| notes := notes a; buttons := buttons a;
     current_freq_labels := f;
     current_qpulse1 := q1; current_qpulse2 := q2;
     freq_start_var := freq_start_var a; freq_end_var := freq_end_var a;
     q1_start_var := q1_start_var a; q1_end_var := q1_end_var a;
     q2_start_var := q2_start_var a; q2_end_var := q2_end_var a |}.

(** The six entry fields of the range frame. *)
Definition set_range_vars (fs fe q1s q1e q2s q2e : string) (a : app) : app :=
  {| notes := notes a; buttons := buttons a;
     current_freq_labels := current_freq_labels a;
     current_qpulse1 := current_qpulse1 a; current_qpulse2 := current_qpulse2 a;
     freq_start_var := fs; freq_end_var := fe;
     q1_start_var := q1s; q1_end_var := q1e;
     q2_start_var := q2s; q2_end_var := q2e |}.

(** [float(s)] and [int(s)] *)
Definition parse_float (s : string) : result float :=
  match float_of_str s with
  | Some x => Ok x
  | None => Raise (float_value_error s)
  end.

Definition parse_int (s : string) : result Z :=
  match int_of_str s with
  | Some x => Ok x
  | None => Raise (int_value_error s)
  end.

(** [list(range(start, stop, step))] for a positive [step] *)
Definition py_range (start stop step : Z) : list Z :=
  (λ i, start + i * step) <$> seqZ 0 ((stop - start + step - 1) / step).

Definition num_steps : Z := 20.

(** The [try] block of [apply_ranges]: the three sequences. *)
Definition compute_sequences (a : app) : result (list string * list Z * list Z) :=
  f_start ← parse_float (freq_start_var a);
  f_end ← parse_float (freq_end_var a);
  q1_start ← parse_int (q1_start_var a);
  q1_end ← parse_int (q1_end_var a);
  q2_start ← parse_int (q2_start_var a);
  q2_end ← parse_int (q2_end_var a);
  d ← float_of_int (num_steps - 1);
  f_step ← truediv (fsub f_start f_end) d;
  labels ← mapM (λ i, fi ← float_of_int i;
                      mret (format_fixed 1 (fsub f_start (fmul fi f_step))))
                (seqZ 0 num_steps);
  let q1_step := Z.max 1 ((q1_end - q1_start) / (num_steps - 1)) in
  let q2_step := Z.max 1 ((q2_end - q2_start) / (num_steps - 1)) in
  mret (labels, py_range q1_start (q1_end + 1) q1_step,
        py_range q2_start (q2_end + 1) q2_step).

(** The sequences of the [except] branch: the literals
    [3800.0 - i*190], [range(1, 21)] and [range(21, 41)]. *)
Definition default_freq_labels : list string :=
  (λ i, format_fixed 1 (fsub (float_of_decimal false 38000 (-1))
                              (binary_normalize prec emax (i * 190) 0 false)))
    <$> seqZ 0 20.
Definition default_qpulse1 : list Z := py_range 1 21 1.
Definition default_qpulse2 : list Z := py_range 21 41 1.

Definition grid_keys {A B} (tab_id : Z) (freq_labels : list A) (qpulse : list B) : list key :=
  r ← seq 0 (length freq_labels); c ← seq 0 (length qpulse); [(tab_id, r, c)].

(** [create_grid(parent, tab_id, freq_labels, qpulse)] *)
Definition create_grid {A B} (tab_id : Z) (freq_labels : list A) (qpulse : list B)
  (a : app) : app :=
  set_buttons (list_to_set (grid_keys tab_id freq_labels qpulse) ∪ buttons a) a.

(** What can escape a method of v1: the TclError of configuring a button
    that was destroyed with its tab. *)
Inductive escape := TclError.

(** [clear_all(silent=True)].  The loop configures the button of every
    note that has one, then the notes are cleared.  [live] holds the keys
    whose button still exists: configuring a destroyed button raises, and
    the notes are then not cleared. *)
Definition clear_all (live : gset key) (a : app) : app * option escape :=
  if bool_decide (dom (notes a) ∩ buttons a ⊆ live)
  then (set_notes ∅ a, None) else (a, Some TclError).

(** [apply_ranges(silent)]; [confirm] is the answer to the confirmation
    box.  The old tabs are destroyed before the grids are built, so the
    buttons that exist when [clear_all] runs are those of the two new
    grids.  The third component is what escapes the method; the success
    message is not shown then. *)
Definition apply_ranges_run (silent confirm : bool) (a : app)
  : app * list dialog * option escape :=
  if negb silent && negb confirm then (a, [], None)
  else
    match compute_sequences a with
    | Raise e =>
        (set_sequences default_freq_labels default_qpulse1 default_qpulse2 a,
         [showerror "Invalid Range"
            ("Error: " +:+ exn_message e +:+ String LF "Using defaults.")],
         None)
    | Ok (labels, q1, q2) =>
        let a1 := set_sequences labels q1 q2 a in
        let a2 := create_grid 1 (current_freq_labels a1) (current_qpulse1 a1) a1 in
        let a3 := create_grid 2 (current_freq_labels a2) (current_qpulse2 a2) a2 in
        let live : gset key :=
          list_to_set (grid_keys 1 labels q1 ++ grid_keys 2 labels q2) in
        match clear_all live a3 with
        | (a4, None) =>
            (a4, if silent then [] else [showinfo "Success" "Ranges applied."], None)
        | (a4, Some e) => (a4, [], Some e)
        end
    end.

(** The state and the message boxes [apply_ranges] leaves. *)
Definition apply_ranges (silent confirm : bool) (a : app) : app * list dialog :=
  (apply_ranges_run silent confirm a).1.

(** The note length limit, written as the literal 12 in [edit_note]. *)
Definition MAX_NOTE_LENGTH : nat := 12.

(** [edit_note(key)]; [answer] is what the note dialog returned. *)
Definition edit_note (k : key) (answer : option string) (a : app) : app :=
  match answer with
  | None => a
  | Some new_text =>
      let new_text := str_take MAX_NOTE_LENGTH (strip new_text) in
      match new_text with
      | EmptyString => set_notes (delete k (notes a)) a
      | _ => set_notes (<[k := new_text]> (notes a)) a
      end
  end.

(** [LaserGridApp()] *)
Definition __init__ : app :=
  (apply_ranges true true
     {| notes := ∅; buttons := ∅; current_freq_labels := [];
        current_qpulse1 := []; current_qpulse2 := [];
        freq_start_var := "3800.0"; freq_end_var := "100.0";
        q1_start_var := "1"; q1_end_var := "200";
        q2_start_var := "201"; q2_end_var := "500" |}).1.

(** What one iteration of the restore loop of [load_from_csv] does with a
    row. *)
Inductive row_outcome :=
| Skipped
| Restored (k : key) (text : string)
| Aborted (e : exn).

Definition get_stripped (row : gmap string (option string)) (k : string) : result string :=
  match default (Some EmptyString) (row !! k) with
  | Some s => Ok (strip s)
  | None => Raise AttributeError
  end.

(** [next((i for i, f in enumerate(labels) if round(float(f), 1) == saved), None)];
    an unparseable label raises. *)
Fixpoint find_freq (labels : list string) (saved : float) (i : nat) : result (option nat) :=
  match labels with
  | [] => Ok None
  | f :: labels' =>
      x ← parse_float f;
      if feqb (round_1 x) saved then Ok (Some i) else find_freq labels' saved (S i)
  end.

(** [l.index(x)] when [x in l] *)
Definition index_Z (l : list Z) (x : Z) : option nat :=
  fst <$> list_find (λ v, v = x) l.

Definition locate_row (a : app) (row : gmap string (option string)) : row_outcome :=
  match get_stripped row "Sub-layer name" with
  | Raise e => Aborted e
  | Ok EmptyString => Skipped
  | Ok text =>
  match get_stripped row "Freq." with
  | Raise e => Aborted e
  | Ok freq_str =>
  match get_stripped row "Q-pulse" with
  | Raise e => Aborted e
  | Ok q_str =>
  match (x ← parse_float freq_str; find_freq (current_freq_labels a) (round_1 x) 0) with
  | Raise _ | Ok None => Skipped
  | Ok (Some r) =>
  match (x ← parse_float q_str; round_to_int x) with
  | Raise _ => Skipped
  | Ok ns =>
      let found :=
        match index_Z (current_qpulse1 a) ns with
        | Some c => Some (1, c)
        | None =>
            match index_Z (current_qpulse2 a) ns with
            | Some c => Some (2, c)
            | None => None
            end
        end in
      match found with
      | None => Skipped
      | Some (tab, c) =>
          if bool_decide ((tab, r, c) ∈ buttons a) then Restored (tab, r, c) text
          else Skipped
      end
  end end end end end.

(** The restore loop over the rows, stopping at an escaping exception. *)
Fixpoint load_rows (rows : list (gmap string (option string))) (a : app) (loaded : Z)
  : app * Z * option exn :=
  match rows with
  | [] => (a, loaded, None)
  | row :: rows' =>
      match locate_row a row with
      | Skipped => load_rows rows' a loaded
      | Restored k text => load_rows rows' (set_notes (<[k := text]> (notes a)) a) (loaded + 1)
      | Aborted e => (a, loaded, Some e)
      end
  end.

End V1.

(** ** The exported file

    What [export_to_csv] writes and [load_from_csv] reads, line by line:
    the conditions on the written texts and the shape of the metadata
    block, used to state the round trip. *)

Module Exchange.
Import Py V2.

(** *** Lines of a file *)

(** A text that stays on one line. *)
Definition no_newline (s : string) : Prop := str_exists is_newline s = false.

(** *** The csv writer and reader *)

(** A text the writer can emit and the reader can take back from one
    line: no line break, no NUL, no longer than the field limit. *)
Definition plain (s : string) : bool :=
  negb (str_exists (λ c, is_newline c || bool_decide (c = NUL)) s) &&
  (Z.of_nat (String.length s) <=? field_limit).

(** The record of [csv_writerow] without its line terminator. *)
Definition csv_record (delim : ascii) (fields : list string) : string :=
  match fields with
  | [EmptyString] => String dquote (String dquote EmptyString)
  | _ => str_join (String delim EmptyString) (csv_field delim <$> fields)
  end.

(** The characters that make the writer quote a field. *)
Definition special (delim : ascii) (c : ascii) : bool :=
  bool_decide (c = delim) || bool_decide (c = dquote) || is_newline c.

(** A reader at the start of a field. *)
Definition at_field (st : parser_state) (acc : list string) : reader :=
  {| rstate := st; rfield := []; rfields := acc |}.

(** A line of the metadata block: a comment (or a blank line), or a key and
    a value after [#]. *)
Inductive meta_item :=
| Comment (s : string)
| Pair (pre post : string).

(** The line as [export_to_csv] writes it, without its line break. *)
Definition render (i : meta_item) : string :=
  match i with
  | Comment s => s
  | Pair pre post => "#" +:+ pre +:+ ":" +:+ post
  end.

(** The first loop of [load_from_csv] takes a comment for neither a key nor
    a data line, and cuts a key line at the colon after the key. *)
Definition item_ok (i : meta_item) : bool :=
  match i with
  | Comment s =>
      let t := strip s in
      negb (startswith_char "#" t && contains_char ":" t) &&
      (str_eqb t EmptyString || startswith_char "#" t)
  | Pair pre _ => negb (contains_char ":" pre)
  end.

(** The metadata dictionary after the line was read. *)
Definition absorb (m : gmap string string) (i : meta_item) : gmap string string :=
  match i with
  | Comment _ => m
  | Pair pre post => <[strip pre := strip post]> m
  end.

(** The value the items leave under a key, if any of them writes it. *)
Fixpoint meta_get (k : string) (items : list meta_item) : option string :=
  match items with
  | [] => None
  | i :: items' =>
      match meta_get k items' with
      | Some v => Some v
      | None =>
          match i with
          | Pair pre post => if str_eqb (strip pre) k then Some (strip post) else None
          | Comment _ => None
          end
      end
  end.

(** A line of the data block, kept as it is by the first loop. *)
Definition data_ok (l : string) : bool :=
  str_eqb (strip l) l && negb (str_eqb l EmptyString) && negb (startswith_char "#" l).

(** *** The text [export_to_csv] writes *)

(** Lines ended by a line feed, and records ended by CR LF. *)
Definition unlines (ls : list string) : string :=
  str_concat ((λ l, l +:+ nl) <$> ls).

Definition records (rows : list (list string)) : string :=
  str_concat ((λ l, l +:+ String CR (String LF EmptyString)) <$> (csv_record "|" <$> rows)).

(** The two lines of one parameter range, the line of one global
    parameter, the lines before the ranges and the whole block. *)
Definition range_items (a : app) (p : string) : list meta_item :=
  match ranges a !! p with
  | Some r => [Pair ("   " +:+ p +:+ "_start") (" " +:+ start r);
               Pair ("   " +:+ p +:+ "_end") (" " +:+ end_ r)]
  | None => []
  end.

Definition global_item (kv : string * string) : meta_item :=
  Pair ("   " +:+ kv.1) (" " +:+ kv.2).

Definition head_items (today : string) (a : app) : list meta_item :=
  [Comment "# Laser Test Grid Export - Metadata";
   Pair " Date" (" " +:+ today);
   Pair " X_Axis" (" " +:+ current_x_param a);
   Pair " Y_Axis" (" " +:+ current_y_param a);
   Pair " Mode" (" " +:+ if str_eqb (qpulse_mode a) "Split" then "Split" else "Single");
   Pair " X_counts" (" " +:+ x_counts_var a);
   Pair " Y_counts" (" " +:+ y_counts_var a);
   Comment EmptyString;
   Pair " Parameter Ranges" EmptyString].

Definition meta_items (today : string) (a : app) : list meta_item :=
  head_items today a ++ (PARAMETERS ≫= range_items a) ++
  [Comment EmptyString; Pair " Global Parameters" EmptyString] ++
  (global_item <$> globals_dict a) ++ [Comment EmptyString].

(** *** The grid on screen *)

(** The cells of the notebook tabs. *)
Definition cells (nb : list tab) : list key :=
  t ← nb; grid_keys (tab_id t) (tab_y t) (tab_x t).

(** The tabs an apply builds from the two sequences. *)
Definition tabs (split : bool) (xs ys : list string) : list tab :=
  if split && negb (length xs <? 4)%nat then
    [ {| tab_id := 1; tab_y := ys; tab_x := take ((length xs + 1) / 2)%nat xs |};
      {| tab_id := 2; tab_y := ys; tab_x := drop ((length xs + 1) / 2)%nat xs |} ]
  else [ {| tab_id := 0; tab_y := ys; tab_x := xs |} ].

(** *** Numbers *)

(** The characters of a decimal literal. *)
Definition numeric_char (c : ascii) : bool :=
  isdigit c || bool_decide (c = "_"%char) || bool_decide (c = "."%char) ||
  bool_decide (lower c = "e"%char) || bool_decide (c = "+"%char) ||
  bool_decide (c = "-"%char).

(** The two scanning steps of [read_decimal]: the integer part and the
    fraction. *)
Definition after_int (s : string) : option (Z * nat * string) :=
  match s with
  | String "."%char _ => Some (0, O, s)
  | _ => read_digits s false 0 O
  end.

Definition after_frac (ip : Z) (rest : string) : option (Z * nat * string) :=
  match rest with
  | String "."%char rest' =>
      match rest' with
      | String c _ =>
          if isdigit c then
            match read_digits rest' false ip O with
            | Some (v, nf, rest'') => Some (v, nf, rest'')
            | None => None
            end
          else Some (ip, O, rest')
      | EmptyString => Some (ip, O, rest')
      end
  | _ => Some (ip, O, rest)
  end.

(** *** Rows and inputs that survive the first loop *)

(** What [read_lines] needs of a written row: plain fields, at least two
    of them, a first field that is stripped and does not start a comment,
    and no white space at the end of the last field. *)
Definition row_ok (row : list string) : bool :=
  forallb plain row && (2 <=? length row)%nat &&
  str_eqb (strip (hd EmptyString row)) (hd EmptyString row) &&
  negb (startswith_char "#" (hd EmptyString row)) &&
  str_eqb (rstrip_with isspace (List.last row EmptyString)) (List.last row EmptyString).

(** The keys of the metadata block the import reads the grid from. *)
Definition input_keys : list string :=
  ["X_Axis"; "Y_Axis"; "Mode"; "X_counts"; "Y_counts"] ++
  (PARAMETERS ≫= λ p, [p +:+ "_start"; p +:+ "_end"]).

(** The same block built from its texts: the ranges given by a function,
    the lines of the global parameters as they are. *)
Definition range_items_of (rf : string → range) (p : string) : list meta_item :=
  [Pair ("   " +:+ p +:+ "_start") (" " +:+ start (rf p));
   Pair ("   " +:+ p +:+ "_end") (" " +:+ end_ (rf p))].

Definition head_items_of (today xp yp mode xc yc : string) : list meta_item :=
  [Comment "# Laser Test Grid Export - Metadata";
   Pair " Date" (" " +:+ today);
   Pair " X_Axis" (" " +:+ xp);
   Pair " Y_Axis" (" " +:+ yp);
   Pair " Mode" (" " +:+ mode);
   Pair " X_counts" (" " +:+ xc);
   Pair " Y_counts" (" " +:+ yc);
   Comment EmptyString;
   Pair " Parameter Ranges" EmptyString].

Definition assembled (today xp yp mode xc yc : string) (rf : string → range)
  (G : list meta_item) : list meta_item :=
  (head_items_of today xp yp mode xc yc ++ (PARAMETERS ≫= range_items_of rf) ++
   [Comment EmptyString; Pair " Global Parameters" EmptyString]) ++
  G ++ [Comment EmptyString].

(** The texts the metadata block is made of hold no line break: today's
    date, the two counts, the ranges of all parameters (which all exist)
    and the stripped global entries. *)
Definition one_line_inputs (today : string) (a : app) : bool :=
  negb (str_exists is_newline today) &&
  negb (str_exists is_newline (x_counts_var a)) &&
  negb (str_exists is_newline (y_counts_var a)) &&
  forallb (λ p, match ranges a !! p with
                | Some r => negb (str_exists is_newline (start r)) &&
                            negb (str_exists is_newline (end_ r))
                | None => false
                end) PARAMETERS &&
  forallb (λ pe : string * entry, negb (str_exists is_newline (strip (text pe.2))))
          (global_entries a).

(** Stands for the range of a parameter that has none. *)
Definition no_range : range := {| start := EmptyString; end_ := EmptyString |}.

(** A written row that the first loop of [load_from_csv] does not take for
    data: plain fields, at least two of them, and a first field that begins
    with [#] and is written without quotes. *)
Definition lost_row (row : list string) : bool :=
  forallb plain row && (2 <=? length row)%nat &&
  startswith_char "#" (hd EmptyString row) &&
  negb (str_exists (special "|") (hd EmptyString row)).

End Exchange.

(** ** Concrete states *)

Module Examples.
Import Py V2.

(** A freshly constructed v2 model. *)
Definition fresh : app := __init__ "2026-01-01".

(** The operator picked Power for both axes. *)
Definition conflict_state : app :=
  _update_global_field_states
    (set_inputs "Power" "Power" "Single" (ranges fresh) "20" "20" fresh).

(** The operator asked for the split view on the default ranges. *)
Definition split_request : app :=
  set_inputs "Q-Pulse" "Frequency" "Split" (ranges fresh) "20" "20" fresh.

(** The split view applied. *)
Definition split_applied : app := applied split_request.

(** The operator typed a word into the start field of the frequency range
    of a freshly constructed v1 model. *)
Definition v1_bad_start : V1.app :=
  V1.set_range_vars "abc" "100.0" "1" "200" "201" "500" V1.__init__.

(** The operator typed a word into the start field of the x-axis range. *)
Definition bad_x_range : app :=
  set_inputs "Q-Pulse" "Frequency" "Single"
    (<["Q-Pulse" := {| start := "abc"; end_ := "200" |}]> (ranges fresh))
    "20" "20" fresh.

(** The operator widened the x-axis range and typed a word into the start
    field of the y-axis range. *)
Definition bad_y_range : app :=
  set_inputs "Q-Pulse" "Frequency" "Single"
    (<["Frequency" := {| start := "abc"; end_ := "100.0" |}]>
       (<["Q-Pulse" := {| start := "150"; end_ := "300" |}]> (ranges fresh)))
    "20" "20" fresh.

(** Ranges whose start equals their end. *)
Definition same_speed : gmap string range :=
  {[ "Speed" := {| start := "150"; end_ := "150" |} ]}.
Definition same_interval : gmap string range :=
  {[ "Line Interval" := {| start := "0.02"; end_ := "0.02" |} ]}.
Definition same_frequency : gmap string range :=
  {[ "Frequency" := {| start := "150"; end_ := "150" |} ]}.






(** A note on the fifth column of the second split tab. *)
Definition split_noted : app :=
  set_notes {[ (2, 3%nat, 4%nat) := "deep" ]} split_applied.

Definition split_noted_rows : list (list string) :=
  match export_rows split_noted with
  | Ok rows => rows
  | Raise _ => []
  end.

Fixpoint str_repeat (n : nat) (c : ascii) : string :=
  match n with
  | O => EmptyString
  | S n' => String c (str_repeat n' c)
  end.

(** A hand-written file whose only row carries a note of 600 characters. *)
Definition long_note : string := str_repeat 600 "a".

Definition oversize_file : string :=
  "Note|Tab|X_Param|X_Value|Y_Param|Y_Value" +:+ nl +:+
  long_note +:+ "|0|Q-Pulse|150|Frequency|3800.0" +:+ nl.

(** The row of [oversize_file] as [csv.DictReader] yields it. *)
Definition oversize_row : gmap string (option string) :=
  dict_row ["Note"; "Tab"; "X_Param"; "X_Value"; "Y_Param"; "Y_Value"]
           [long_note; "0"; "Q-Pulse"; "150"; "Frequency"; "3800.0"] ∅.

(** The note of the worked example: gold on the sixth column of the third
    row of the first split tab. *)
Definition gold_notes : gmap key string := {[ (1, 2%nat, 5%nat) := "gold" ]}.

Definition gold_rows : list (list string) :=
  match export_rows (set_notes gold_notes split_applied) with
  | Ok rows => rows
  | Raise _ => []
  end.

(** The operator wrote #1 on the first cell of a fresh model. *)
Definition hash_noted : app := set_notes {[ (0, 0%nat, 0%nat) := "#1" ]} fresh.

End Examples.

(** ** Properties of the string helpers *)

Section StringFacts.
Import Py.

Lemma str_eqb_eq (a b : string) : str_eqb a b = true ↔ a = b.
Proof. unfold str_eqb. apply bool_decide_eq_true. Qed.

Lemma str_eqb_refl (a : string) : str_eqb a a = true.
Proof. by apply str_eqb_eq. Qed.

Lemma str_eqb_neq (a b : string) : a ≠ b → str_eqb a b = false.
Proof. intros. unfold str_eqb. by apply bool_decide_eq_false. Qed.

Lemma str_take_all (n : nat) (s : string) : (len s <= n)%nat → str_take n s = s.
Proof.
  revert n. induction s as [|c s IH]; intros [|n] Hn; simpl in *; try done; try lia.
  f_equal. apply IH. lia.
Qed.

Lemma len_str_take (n : nat) (s : string) : len (str_take n s) = Nat.min n (len s).
Proof.
  revert n. induction s as [|c s IH]; intros [|n]; simpl; try done.
  f_equal. apply IH.
Qed.

Lemma str_take_nonempty (n : nat) (s : string) :
  (0 < n)%nat → s ≠ EmptyString → str_take n s ≠ EmptyString.
Proof. destruct n, s; simpl; try done; lia. Qed.

End StringFacts.

(** ** The exception monad *)

Section ResultMonad.
Import Py.

Lemma bind_Ok {A B} (r : result A) (k : A → result B) (b : B) :
  r ≫= k = Ok b ↔ ∃ a, r = Ok a ∧ k a = Ok b.
Proof.
  destruct r as [a|e]; simpl; split.
  - intros H. by exists a.
  - by intros (a' & [= <-] & H).
  - done.
  - by intros (a' & [=] & _).
Qed.

Context {A B : Type}.

Lemma mapM_Ok (f : A → result B) (l : list A) (k : list B) :
  mapM f l = Ok k ↔ Forall2 (λ x y, f x = Ok y) l k.
Proof.
  revert k. induction l as [|x l IH]; intros k; simpl.
  - split; [intros [= <-]; constructor | by inversion 1].
  - split.
    + intros H. apply bind_Ok in H as (y & Hy & H).
      apply bind_Ok in H as (k' & Hk' & [= <-]).
      constructor; [done | by apply IH].
    + inversion 1 as [|? y ? k' Hy Hk']; subst.
      apply IH in Hk'. apply bind_Ok. exists y. split; [done|].
      apply bind_Ok. by exists k'.
Qed.

Lemma mapM_Ok_length (f : A → result B) (l : list A) (k : list B) :
  mapM f l = Ok k → length k = length l.
Proof. intros H. apply mapM_Ok in H. symmetry. by eapply Forall2_length. Qed.


Lemma mapM_fmap_Ok (f : A → result B) (g : A → B) (l : list A) :
  (∀ x, x ∈ l → f x = Ok (g x)) → mapM f l = Ok (g <$> l).
Proof.
  intros H. apply mapM_Ok. apply Forall2_fmap_r, Forall_Forall2_diag.
  by apply Forall_forall.
Qed.

End ResultMonad.

(** ** The grid model of grid_v2.py *)

Section GridModel.
Import Py V2 Examples.

(** C4.  When the x-axis parameter equals the y-axis parameter, an apply that
    is carried out (silent, or confirmed by the operator) ends with the
    axis-conflict error and returns the very state it was given: generated
    sequences, current axis parameters, tabs, buttons and annotations are
    all unchanged. *)
Theorem C4_axis_conflict_leaves_state (a : app) (silent confirm : bool) :
  x_axis_var a = y_axis_var a →
  silent = true ∨ confirm = true →
  apply_ranges silent confirm a =
    (a, [showerror "Input Error" "X and Y axes cannot be the same parameter!"]).
Proof.
  intros Hxy Hgo. unfold apply_ranges.
  replace (negb silent && negb confirm) with false
    by (destruct Hgo as [-> | ->]; [done | by destruct silent]).
  unfold apply_ranges_try. rewrite Hxy, str_eqb_refl. done.
Qed.

Lemma C4_axis_conflict_witness :
  apply_ranges true false conflict_state =
    (conflict_state,
     [showerror "Input Error" "X and Y axes cannot be the same parameter!"]).
Proof.
  apply (C4_axis_conflict_leaves_state conflict_state true false);
    [reflexivity | by left].
Defined.

(** The state a successful [try] block of [apply_ranges] starts its grid
    construction from. *)
Definition regenerated (a : app) (xs ys : list string) : app :=
  set_grid (buttons a) []
    (set_current_params (x_axis_var a) (y_axis_var a)
       (set_current_values_y ys (set_current_values_x xs a))).

Lemma apply_ranges_try_Ok (a a' : app) (ds : list dialog) :
  apply_ranges_try a = (a', ds, Ok ()) →
  ∃ xc yc xs ys,
    x_axis_var a ≠ y_axis_var a ∧
    int_of_str (x_counts_var a) = Some xc ∧
    int_of_str (y_counts_var a) = Some yc ∧
    _generate_values (ranges a) (x_axis_var a) (Z.max 2 xc) = Ok xs ∧
    _generate_values (ranges a) (y_axis_var a) (Z.max 2 yc) = Ok ys ∧
    ∃ a5,
      (if str_eqb (qpulse_mode a) "Split" then _create_split_grids (regenerated a xs ys)
       else (_create_single_grid (regenerated a xs ys), [])) = (a5, ds) ∧
      a' = _update_global_field_states (clear_all a5).
Proof.
  unfold apply_ranges_try. intros H.
  destruct (str_eqb (x_axis_var a) (y_axis_var a)) eqn:Hxy; [done|].
  destruct (int_of_str (x_counts_var a)) as [xc|] eqn:Hxc; [|done].
  destruct (int_of_str (y_counts_var a)) as [yc|] eqn:Hyc; [|done].
  destruct (_generate_values (ranges a) (x_axis_var a) (Z.max 2 xc)) as [xs|] eqn:Hxs;
    [|done].
  simpl in H.
  destruct (_generate_values (ranges a) (y_axis_var a) (Z.max 2 yc)) as [ys|] eqn:Hys;
    [|done].
  exists xc, yc, xs, ys. repeat split; try done.
  { intros E. apply str_eqb_eq in E. congruence. }
  fold (regenerated a xs ys) in H. simpl in H.
  destruct (if str_eqb (qpulse_mode a) "Split"
            then _create_split_grids (regenerated a xs ys)
            else (_create_single_grid (regenerated a xs ys), [])) as [a5 ds'] eqn:Hg.
  exists a5. by simplify_eq.
Qed.

(** The last two steps of a successful apply only clear the notes and
    refresh the entry states. *)
Lemma finished_fields (a : app) :
  let a' := _update_global_field_states (clear_all a) in
  current_values_x a' = current_values_x a ∧
  current_values_y a' = current_values_y a ∧
  current_x_param a' = current_x_param a ∧
  current_y_param a' = current_y_param a ∧
  notebook a' = notebook a ∧
  buttons a' = buttons a ∧
  notes a' = ∅.
Proof. done. Qed.

(** The state and the message boxes a [try] block of [apply_ranges] ends
    with, when it ends without an exception. *)
Lemma apply_ranges_try_proj (a : app) :
  (apply_ranges_try a).2 = Ok () →
  apply_ranges_try a = ((apply_ranges_try a).1.1, (apply_ranges_try a).1.2, Ok ()).
Proof. destruct (apply_ranges_try a) as [[a' ds] r]. simpl. by intros ->. Qed.

(** The notebook a successful Split apply builds. *)
Lemma split_notebook (a a' : app) (ds : list dialog) :
  qpulse_mode a = "Split" →
  apply_ranges_try a = (a', ds, Ok ()) →
  (4 <= length (current_values_x a'))%nat →
  notebook a' =
    [ {| tab_id := 1; tab_y := current_values_y a';
         tab_x := take ((length (current_values_x a') + 1) `div` 2) (current_values_x a') |};
      {| tab_id := 2; tab_y := current_values_y a';
         tab_x := drop ((length (current_values_x a') + 1) `div` 2) (current_values_x a') |} ] ∧
  (length (current_values_x a') <= 2 * ((length (current_values_x a') + 1) `div` 2)
     <= length (current_values_x a') + 1)%nat.
Proof.
  intros Hmode Hok Hn.
  apply apply_ranges_try_Ok in Hok
    as (xc & yc & xs & ys & _ & _ & _ & _ & _ & a5 & Hg & ->).
  rewrite Hmode, str_eqb_refl in Hg.
  unfold _create_split_grids in Hg. cbv zeta in Hg.
  change (current_values_x (regenerated a xs ys)) with xs in Hg.
  change (current_values_y (regenerated a xs ys)) with ys in Hg.
  destruct (finished_fields a5) as (Ex & Ey & _ & _ & Enb & _).
  rewrite Ex, Ey, Enb in *. clear Ex Ey Enb.
  assert (Hxs : current_values_x a5 = xs).
  { destruct (length xs <? 4)%nat; by injection Hg as <- <-. }
  rewrite Hxs in *.
  destruct (length xs <? 4)%nat eqn:Hlt; [apply Nat.ltb_lt in Hlt; lia|].
  injection Hg as <- <-. split; [reflexivity|].
  pose proof (Nat.div_mod_eq (length xs + 1) 2) as E.
  pose proof (Nat.mod_upper_bound (length xs + 1) 2). lia.
Qed.

(** C6.  After an apply in Split mode that ended without an error and left
    at least four x values, the notebook holds exactly two tabs, 1 and 2,
    whose x sequences are the first [ceil(n/2)] values and the remaining
    [n - ceil(n/2)] values of the x sequence, in their original order;
    concatenated they give the x sequence back, and for [n = 20] both have
    ten values. *)
Theorem C6_split_contiguous_halves (a : app) :
  qpulse_mode a = "Split" →
  (apply_ranges_try a).2 = Ok () →
  (4 <= length (current_values_x (applied a)))%nat →
  ∃ x1 x2,
    notebook (applied a) =
      [ {| tab_id := 1; tab_y := current_values_y (applied a); tab_x := x1 |};
        {| tab_id := 2; tab_y := current_values_y (applied a); tab_x := x2 |} ] ∧
    x1 = take (length x1) (current_values_x (applied a)) ∧
    x2 = drop (length x1) (current_values_x (applied a)) ∧
    x1 ++ x2 = current_values_x (applied a) ∧
    (length (current_values_x (applied a)) <= 2 * length x1
       <= length (current_values_x (applied a)) + 1)%nat ∧
    length x2 = (length (current_values_x (applied a)) - length x1)%nat ∧
    (length (current_values_x (applied a)) = 20%nat →
     length x1 = 10%nat ∧ length x2 = 10%nat).
Proof.
  intros Hmode Hok Hn. apply apply_ranges_try_proj in Hok.
  destruct (split_notebook a _ _ Hmode Hok Hn) as (Hnb & Hmid).
  fold (applied a) in Hnb, Hmid.
  set (xs := current_values_x (applied a)) in *.
  set (mid := ((length xs + 1) `div` 2)%nat) in *.
  assert (Hl1 : length (take mid xs) = mid) by (rewrite length_take; lia).
  exists (take mid xs), (drop mid xs). rewrite Hl1, length_drop.
  split; [exact Hnb|]. split; [reflexivity|]. split; [reflexivity|].
  split; [apply take_drop|]. split; [lia|]. split; [reflexivity|]. lia.
Qed.

Lemma C6_split_witness :
  ∃ x1 x2,
    notebook (applied split_request) =
      [ {| tab_id := 1; tab_y := current_values_y (applied split_request); tab_x := x1 |};
        {| tab_id := 2; tab_y := current_values_y (applied split_request); tab_x := x2 |} ] ∧
    x1 ++ x2 = current_values_x (applied split_request) ∧
    length x1 = 10%nat ∧ length x2 = 10%nat.
Proof.
  destruct (C6_split_contiguous_halves split_request)
    as (x1 & x2 & Hnb & _ & _ & Happ & _ & _ & H20).
  - reflexivity.
  - vm_compute. reflexivity.
  - vm_compute. lia.
  - exists x1, x2. split; [exact Hnb|]. split; [exact Happ|].
    apply H20. vm_compute. reflexivity.
Defined.

(** *** Unparseable ranges *)

(** The start or the end of the range of [param] is not a number (or the
    parameter has no range at all). *)
Definition unparseable (rg : gmap string range) (param : string) : Prop :=
  match rg !! param with
  | Some r => float_of_str (start r) = None ∨ float_of_str (end_ r) = None
  | None => True
  end.

(** A text that [int] refuses raises a [ValueError]. *)
Lemma int_value_error_ValueError (s : string) :
  ∃ msg, int_value_error s = ValueError msg.
Proof.
  unfold int_value_error. destruct (read_sign (strip_num s)) as [neg body].
  destruct (read_digits body false 0 0) as [[[v n] rest]|]; [|by eexists].
  destruct (INT_MAX_STR_DIGITS <? Z.of_nat n); by eexists.
Qed.

Lemma generate_unparseable (rg : gmap string range) (param : string) (counts : Z) :
  unparseable rg param → _generate_values rg param counts = Raise (invalid_range param).
Proof.
  unfold unparseable, _generate_values.
  destruct (rg !! param) as [r|]; [|done].
  intros [-> | H]; [done|]. rewrite H. by destruct (float_of_str (start r)).
Qed.

(** With an unparseable x-axis range the [try] block raises a [ValueError]
    before its first assignment. *)
Lemma apply_unparseable_x (a : app) :
  unparseable (ranges a) (x_axis_var a) →
  ∃ msg, apply_ranges_try a = (a, [], Raise (ValueError msg)).
Proof.
  intros Hx. unfold apply_ranges_try.
  destruct (str_eqb (x_axis_var a) (y_axis_var a)); [by eexists|].
  destruct (int_of_str (x_counts_var a)) as [xc|];
    [|destruct (int_value_error_ValueError (x_counts_var a)) as [m ->]; by eexists].
  destruct (int_of_str (y_counts_var a)) as [yc|];
    [|destruct (int_value_error_ValueError (y_counts_var a)) as [m ->]; by eexists].
  rewrite generate_unparseable by done. by eexists.
Qed.

(** With an unparseable y-axis range the [try] block raises, and the state
    it leaves differs from the one it started in at most in
    [current_values_x]. *)
Lemma apply_unparseable_y (a : app) :
  unparseable (ranges a) (y_axis_var a) →
  ∃ e, (apply_ranges_try a).2 = Raise e ∧ (apply_ranges_try a).1.2 = [] ∧
       (applied a = a ∨ ∃ xs, applied a = set_current_values_x xs a).
Proof.
  intros Hy. unfold applied, apply_ranges_try.
  destruct (str_eqb (x_axis_var a) (y_axis_var a)); [eexists; by eauto|].
  destruct (int_of_str (x_counts_var a)) as [xc|]; [|eexists; by eauto].
  destruct (int_of_str (y_counts_var a)) as [yc|]; [|eexists; by eauto].
  destruct (_generate_values (ranges a) (x_axis_var a) (Z.max 2 xc)) as [xs|e];
    [|eexists; by eauto].
  change (ranges (set_current_values_x xs a)) with (ranges a).
  rewrite generate_unparseable by done. simpl. eexists; eauto.
Qed.

Lemma V1_compute_sequences_unparseable (a : V1.app) :
  float_of_str (V1.freq_start_var a) = None ∨ float_of_str (V1.freq_end_var a) = None ∨
  int_of_str (V1.q1_start_var a) = None ∨ int_of_str (V1.q1_end_var a) = None ∨
  int_of_str (V1.q2_start_var a) = None ∨ int_of_str (V1.q2_end_var a) = None →
  ∃ msg, V1.compute_sequences a = Raise (ValueError msg).
Proof.
  intros H. unfold V1.compute_sequences, V1.parse_float, V1.parse_int, float_value_error.
  destruct (float_of_str (V1.freq_start_var a)); [|by eexists].
  destruct (float_of_str (V1.freq_end_var a)); [|by eexists].
  destruct (int_of_str (V1.q1_start_var a));
    [|destruct (int_value_error_ValueError (V1.q1_start_var a)) as [m ->]; by eexists].
  destruct (int_of_str (V1.q1_end_var a));
    [|destruct (int_value_error_ValueError (V1.q1_end_var a)) as [m ->]; by eexists].
  destruct (int_of_str (V1.q2_start_var a));
    [|destruct (int_value_error_ValueError (V1.q2_start_var a)) as [m ->]; by eexists].
  destruct (int_of_str (V1.q2_end_var a));
    [|destruct (int_value_error_ValueError (V1.q2_end_var a)) as [m ->]; by eexists].
  by destruct H as [H | [H | [H | [H | [H | H]]]]].
Qed.

(** C3 (as amended).  In v2 an apply whose x-axis start or end is not a
    number shows an Input Error and returns the state it was given; one whose
    y-axis start or end is not a number shows an error and leaves the
    annotations, the buttons, the notebook, the current axis parameters and
    the y sequence as they were.  In v1 an apply with any unparseable range
    field shows the Invalid Range error and replaces the three value
    sequences by the built-in defaults, leaving notes and buttons alone. *)
Theorem C3_unparseable_range
  (a2 : V2.app) (a1 : V1.app) (silent confirm : bool) :
  silent = true ∨ confirm = true →
  (unparseable (ranges a2) (x_axis_var a2) →
     ∃ msg, apply_ranges silent confirm a2 = (a2, [showerror "Input Error" msg])) ∧
  (unparseable (ranges a2) (y_axis_var a2) →
     ∃ a' title msg,
       apply_ranges silent confirm a2 = (a', [showerror title msg]) ∧
       notes a' = notes a2 ∧ buttons a' = buttons a2 ∧ notebook a' = notebook a2 ∧
       current_x_param a' = current_x_param a2 ∧
       current_y_param a' = current_y_param a2 ∧
       current_values_y a' = current_values_y a2) ∧
  (float_of_str (V1.freq_start_var a1) = None ∨ float_of_str (V1.freq_end_var a1) = None ∨
   int_of_str (V1.q1_start_var a1) = None ∨ int_of_str (V1.q1_end_var a1) = None ∨
   int_of_str (V1.q2_start_var a1) = None ∨ int_of_str (V1.q2_end_var a1) = None →
     ∃ msg,
       V1.apply_ranges silent confirm a1 =
         (V1.set_sequences V1.default_freq_labels V1.default_qpulse1
            V1.default_qpulse2 a1,
          [V1.showerror "Invalid Range" msg])).
Proof.
  intros Hgo.
  assert (Hb : negb silent && negb confirm = false)
    by (destruct Hgo as [-> | ->]; [done | by destruct silent]).
  split; [|split].
  - intros Hx. destruct (apply_unparseable_x a2 Hx) as [msg E].
    exists msg. unfold apply_ranges. by rewrite Hb, E.
  - intros Hy. destruct (apply_unparseable_y a2 Hy) as (e & He & Hds & Ha).
    unfold apply_ranges. rewrite Hb. unfold applied in Ha.
    destruct (apply_ranges_try a2) as [[a' ds] r]. simpl in *. subst r ds.
    assert (Hf : notes a' = notes a2 ∧ buttons a' = buttons a2 ∧
                 notebook a' = notebook a2 ∧
                 current_x_param a' = current_x_param a2 ∧
                 current_y_param a' = current_y_param a2 ∧
                 current_values_y a' = current_values_y a2)
      by (destruct Ha as [-> | [xs ->]]; done).
    destruct e; by eexists _, _, _.
  - intros H1. destruct (V1_compute_sequences_unparseable a1 H1) as [msg E].
    unfold V1.apply_ranges, V1.apply_ranges_run. rewrite Hb, E. cbn [fst]. by eexists.
Qed.

Lemma C3_unparseable_range_witness :
  (∃ msg, apply_ranges true true bad_x_range =
            (bad_x_range, [showerror "Input Error" msg])) ∧
  (∃ a' title msg,
     apply_ranges true true bad_y_range = (a', [showerror title msg]) ∧
     notes a' = notes bad_y_range ∧ current_values_y a' = current_values_y bad_y_range) ∧
  (∃ msg,
     V1.apply_ranges true true v1_bad_start =
       (V1.set_sequences V1.default_freq_labels V1.default_qpulse1
          V1.default_qpulse2 v1_bad_start,
        [V1.showerror "Invalid Range" msg])).
Proof.
  destruct (C3_unparseable_range bad_x_range v1_bad_start true true) as (Hx & _ & H1);
    [by left|].
  destruct (C3_unparseable_range bad_y_range v1_bad_start true true) as (_ & Hy & _);
    [by left|].
  split; [|split].
  - apply Hx. vm_compute. by left.
  - destruct Hy as (a' & title & msg & E & Hn & _ & _ & _ & _ & Hv);
      [vm_compute; by left|].
    exists a', title, msg. split; [exact E|]. split; [exact Hn | exact Hv].
  - apply H1. left. vm_compute. reflexivity.
Defined.

(** The claim as the specification words it fails in v1: after the failed
    apply the frequency labels are the built-in defaults, not the ones of
    the previously applied grid. *)
Lemma C3_counterexample :
  float_of_str (V1.freq_start_var v1_bad_start) = None ∧
  V1.current_freq_labels v1_bad_start !! 1%nat = Some "3605.3" ∧
  V1.current_freq_labels (V1.apply_ranges true true v1_bad_start).1 !! 1%nat
    = Some "3610.0" ∧
  V1.current_freq_labels (V1.apply_ranges true true v1_bad_start).1
    ≠ V1.current_freq_labels v1_bad_start.
Proof.
  split; [vm_compute; reflexivity|].
  split; [vm_compute; reflexivity|].
  split; [vm_compute; reflexivity|].
  vm_compute. discriminate.
Qed.

(** In v2 the same failure on the y axis comes after the x sequence was
    already replaced. *)
Lemma apply_bad_y_replaces_x :
  current_values_x bad_y_range !! 19%nat = Some "200" ∧
  current_values_x (apply_ranges true true bad_y_range).1 !! 19%nat = Some "300" ∧
  current_values_y (apply_ranges true true bad_y_range).1 = current_values_y bad_y_range ∧
  (apply_ranges true true bad_y_range).2 =
    [showerror "Input Error" "Invalid range for Frequency"].
Proof.
  split; [vm_compute; reflexivity|]. split; [vm_compute; reflexivity|].
  split; vm_compute; reflexivity.
Qed.

End GridModel.

(** ** binary64 facts used by the generator *)

Section FloatFacts.
Import Py.

Lemma digits2_pos_iter_xO (m k : positive) :
  digits2_pos (Pos.iter xO m k) = (digits2_pos m + k)%positive.
Proof.
  induction k as [|k IH] using Pos.peano_ind.
  - simpl. lia.
  - rewrite Pos.iter_succ. simpl. rewrite IH. lia.
Qed.

(** An [int] below 2^53 converts to a finite float without rounding: the
    mantissa is the integer shifted up to 53 bits. *)
Lemma float_of_int_small (n : positive) :
  (Zpos (digits2_pos n) <= 53) →
  ∃ m e, float_of_int (Zpos n) = Ok (S754_finite false m e).
Proof.
  intros Hd. unfold float_of_int, binary_normalize, binary_round.
  set (d := digits2_pos n) in *.
  assert (Hf : fexp prec emax (Zpos d + 0) = Zpos d - 53).
  { unfold fexp, emin, prec, emax. lia. }
  rewrite Hf. unfold shl_align.
  assert (Hround : ∀ mz ez, digits2_pos mz = 53%positive → -52 <= ez <= 0 →
            binary_round_aux prec emax false (Zpos mz) ez loc_Exact
            = S754_finite false mz ez).
  { intros mz ez Hmz Hez. unfold binary_round_aux, shr_fexp.
    assert (Hz : fexp prec emax (Zdigits2 (Zpos mz) + ez) - ez = 0).
    { simpl. rewrite Hmz. unfold fexp, emin, prec, emax. lia. }
    rewrite Hz. simpl. rewrite Hmz.
    replace (fexp prec emax (53 + ez) - ez) with 0
      by (unfold fexp, emin, prec, emax; lia).
    simpl. replace (ez <=? emax - prec) with true
      by (symmetry; apply Z.leb_le; unfold emax, prec; lia).
    done. }
  destruct (Zpos d - 53 - 0) as [|p|p] eqn:E; try lia.
  - rewrite Hround; [by eexists _, _ | fold d; lia | lia].
  - rewrite Hround; [by eexists _, _ | | lia].
    rewrite digits2_pos_iter_xO. fold d. lia.
Qed.

Lemma digits2_pos_log2 (q : positive) : Zpos (digits2_pos q) = Z.log2 (Zpos q) + 1.
Proof.
  induction q as [q IH|q IH|]; simpl; try done.
  - rewrite Pos2Z.inj_succ, IH. destruct q; simpl; lia.
  - rewrite Pos2Z.inj_succ, IH. destruct q; simpl; lia.
Qed.

Lemma digits2_pos_small (q : positive) : Zpos q < 2 ^ 53 → Zpos (digits2_pos q) <= 53.
Proof.
  intros H. rewrite digits2_pos_log2.
  assert (Z.log2 (Zpos q) < 53) by (apply Z.log2_lt_pow2; lia). lia.
Qed.

(** [float(n)] for an [int] within the range of the type. *)
Definition int_float (n : Z) : float := binary_normalize prec emax n 0 false.

Lemma float_of_int_Ok (n : Z) (x : float) : float_of_int n = Ok x → x = int_float n.
Proof.
  unfold float_of_int, int_float.
  destruct (binary_normalize prec emax n 0 false); congruence.
Qed.

Lemma float_of_int_int_float (n : Z) :
  0 <= n < 2 ^ 53 →
  float_of_int n = Ok (int_float n) ∧ is_finite (int_float n) = true ∧
  (0 < n → ∃ m e, int_float n = S754_finite false m e).
Proof.
  intros Hn. destruct n as [|q|q]; [done | | lia].
  destruct (float_of_int_small q) as (m & e & E); [apply digits2_pos_small; lia|].
  pose proof (float_of_int_Ok _ _ E) as Ei. rewrite <- Ei.
  split; [done|]. split; [done|]. intros _. by exists m, e.
Qed.


End FloatFacts.

(** ** The axis value generator of grid_v2.py *)

Section Generator.
Import Py V2 Examples.

(** The rendering of the single value of a degenerate range. *)
Definition render_same (param : string) (x : float) : string :=
  if str_eqb param "Frequency" then format_fixed 1 x else str_of_float x.



Lemma generate_same (rg : gmap string range) (param : string) (r : range)
  (s e : float) (counts : Z) :
  rg !! param = Some r → float_of_str (start r) = Some s →
  float_of_str (end_ r) = Some e → feqb s e = true →
  _generate_values rg param counts
    = Ok (replicate (Z.to_nat counts) (render_same param s)).
Proof.
  intros Hr Hs He Heq. unfold _generate_values, render_same.
  rewrite Hr, Hs, He, Heq. by destruct (str_eqb param "Frequency").
Qed.







(** C7.  With start equal to end the generator does return [counts] equal
    strings, but only the frequency is rendered in its formatting class: the
    other parameters get [str(start)], so a speed of 150 is rendered with a
    decimal and a line interval of 0.02 without its four decimals, unlike
    the general branch, which renders them as 150 and 0.0200. *)
Theorem C7_degenerate_not_class_formatted :
  _generate_values same_speed "Speed" 3 = Ok ["150.0"; "150.0"; "150.0"] ∧
  (∃ x, float_of_str "150" = Some x ∧ format_value "Speed" x = Ok "150") ∧
  _generate_values same_interval "Line Interval" 3 = Ok ["0.02"; "0.02"; "0.02"] ∧
  (∃ x, float_of_str "0.02" = Some x ∧ format_value "Line Interval" x = Ok "0.0200") ∧
  _generate_values same_frequency "Frequency" 3 = Ok ["150.0"; "150.0"; "150.0"] ∧
  (∀ rg param r s e counts,
     rg !! param = Some r → float_of_str (start r) = Some s →
     float_of_str (end_ r) = Some e → feqb s e = true →
     _generate_values rg param counts
       = Ok (replicate (Z.to_nat counts) (render_same param s))).
Proof.
  split; [vm_compute; reflexivity|].
  split; [exists (S754_finite false 5277655813324800 (-45));
          split; vm_compute; reflexivity|].
  split; [vm_compute; reflexivity|].
  split; [exists (S754_finite false 5764607523034235 (-58));
          split; vm_compute; reflexivity|].
  split; [vm_compute; reflexivity|].
  apply generate_same.
Qed.

End Generator.

(** ** The annotation store *)

Section AnnotationStore.
Import Py Examples.

(** What [edit_note] leaves in the store for the entered text [t]: nothing at
    the cell when the trimmed text is empty, otherwise the trimmed text cut
    to [limit] characters. *)
Definition stored_note (limit : nat) (t : string) : option string :=
  match strip t with
  | EmptyString => None
  | s => Some (str_take limit s)
  end.

Definition put_note {K} `{Countable K} (k : K) (v : option string)
  (m : gmap K string) : gmap K string :=
  match v with
  | Some s => <[k := s]> m
  | None => delete k m
  end.

Lemma stored_note_bound (limit : nat) (t s : string) :
  stored_note limit t = Some s → s ≠ EmptyString ∧ (len s <= limit)%nat ∨ limit = O.
Proof.
  unfold stored_note. destruct (strip t) as [|c u] eqn:E; [done|].
  intros [= <-]. destruct limit as [|n]; [by right|left]. split; [done|].
  rewrite len_str_take. lia.
Qed.

Lemma V2_edit_note_spec (a : V2.app) (k : V2.key) (t : string) :
  k ∈ V2.buttons a →
  V2.edit_note k (Some t) a =
    V2.set_notes (put_note k (stored_note V2.MAX_NOTE_LENGTH t) (V2.notes a)) a.
Proof.
  intros Hk. unfold V2.edit_note, stored_note.
  rewrite bool_decide_eq_true_2 by done.
  destruct (V2.MAX_NOTE_LENGTH <? len (strip t))%nat eqn:Hlen.
  - destruct (strip t) as [|c u] eqn:E; [done|]. reflexivity.
  - apply Nat.ltb_ge in Hlen.
    destruct (strip t) as [|c u] eqn:E; [done|].
    rewrite (str_take_all _ (String c u)) by done. reflexivity.
Qed.

Lemma V1_edit_note_spec (a : V1.app) (k : V1.key) (t : string) :
  V1.edit_note k (Some t) a =
    V1.set_notes (put_note k (stored_note V1.MAX_NOTE_LENGTH t) (V1.notes a)) a.
Proof.
  unfold V1.edit_note, stored_note.
  destruct (strip t) as [|c u] eqn:E; reflexivity.
Qed.

(** C8.  Setting the text [t] on a cell (a key of [buttons] in v2; any key in
    v1, whose limit is 12) trims [t] and cuts it to the note length limit.
    If the trimmed text is empty the entry of the cell is removed and
    nothing is stored; otherwise the trimmed and truncated text, which is
    never longer than the limit, becomes the note of the cell, replacing any
    earlier one.  Nothing else in the state changes, and the other cells
    keep their notes. *)
Theorem C8_set_trims_truncates_or_clears
  (a2 : V2.app) (a1 : V1.app) (k : Z * nat * nat) (t : string) :
  k ∈ V2.buttons a2 →
  let s2 := str_take V2.MAX_NOTE_LENGTH (strip t) in
  let s1 := str_take V1.MAX_NOTE_LENGTH (strip t) in
  (len s2 <= V2.MAX_NOTE_LENGTH)%nat ∧ (len s1 <= V1.MAX_NOTE_LENGTH)%nat ∧
  (strip t = EmptyString →
     V2.edit_note k (Some t) a2 = V2.set_notes (delete k (V2.notes a2)) a2 ∧
     V1.edit_note k (Some t) a1 = V1.set_notes (delete k (V1.notes a1)) a1) ∧
  (strip t ≠ EmptyString →
     V2.edit_note k (Some t) a2 = V2.set_notes (<[k := s2]> (V2.notes a2)) a2 ∧
     V1.edit_note k (Some t) a1 = V1.set_notes (<[k := s1]> (V1.notes a1)) a1 ∧
     V2.notes (V2.edit_note k (Some t) a2) !! k = Some s2 ∧
     V1.notes (V1.edit_note k (Some t) a1) !! k = Some s1) ∧
  (∀ k', k' ≠ k →
     V2.notes (V2.edit_note k (Some t) a2) !! k' = V2.notes a2 !! k' ∧
     V1.notes (V1.edit_note k (Some t) a1) !! k' = V1.notes a1 !! k').
Proof.
  intros Hk s2 s1.
  rewrite (V2_edit_note_spec a2 k t Hk), (V1_edit_note_spec a1 k t).
  unfold stored_note. subst s1 s2.
  split; [rewrite len_str_take; lia|]. split; [rewrite len_str_take; lia|].
  destruct (strip t) as [|c u] eqn:E.
  - split; [done|]. split; [done|]. intros k' Hk'. simpl.
    by rewrite !lookup_delete_ne.
  - split; [done|]. split.
    + intros _. simpl. by rewrite !lookup_insert_eq.
    + intros k' Hk'. simpl. by rewrite !lookup_insert_ne.
Qed.

Lemma C8_set_witness :
  (len (str_take V2.MAX_NOTE_LENGTH (strip "  gold ")) <= V2.MAX_NOTE_LENGTH)%nat ∧
  V2.notes (V2.edit_note (0, 2%nat, 5%nat) (Some "  gold ") fresh) !! (0, 2%nat, 5%nat)
    = Some "gold".
Proof.
  pose proof (C8_set_trims_truncates_or_clears fresh V1.__init__
                (0, 2%nat, 5%nat) "  gold ") as H.
  destruct H as (H2 & _ & _ & Hs & _); [by vm_compute|].
  split; [exact H2|].
  destruct Hs as (_ & _ & Hl & _); [by vm_compute|]. exact Hl.
Defined.

End AnnotationStore.

(** ** The export encoder of grid_v2.py *)

Section Encoder.
Import Py V2 Examples.

Lemma sorted_notes_elem (a : app) (k : key) (note : string) :
  (k, note) ∈ sorted_notes a ↔ notes a !! k = Some note.
Proof.
  unfold sorted_notes. rewrite merge_sort_Permutation.
  apply elem_of_map_to_list.
Qed.

(** The columns of an exported row that the import reads back. *)
Lemma export_row_Ok (a : app) (t : Z) (r c : nat) (note : string) (row : list string) :
  export_row a ((t, r, c), note) = Ok row →
  ∃ xv yv rest,
    current_values_x a !! c = Some xv ∧
    current_values_y a !! r = Some yv ∧
    row = note :: str_of_int t :: current_x_param a :: xv
            :: current_y_param a :: yv :: rest ∧
    length rest = 7%nat.
Proof.
  unfold export_row.
  destruct (current_values_x a !! c) as [xv|]; [|done].
  destruct (current_values_y a !! r) as [yv|]; [|done].
  intros [= <-]. by eexists xv, yv, _.
Qed.

Lemma export_rows_elem (a : app) (rows : list (list string)) (k : key) (note : string) :
  export_rows a = Ok rows →
  notes a !! k = Some note →
  ∃ row, row ∈ rows ∧ export_row a (k, note) = Ok row.
Proof.
  unfold export_rows. intros Hrows Hk.
  apply mapM_Ok in Hrows. apply sorted_notes_elem in Hk.
  apply list_elem_of_lookup in Hk as [i Hi].
  destruct (Forall2_lookup_l _ _ _ _ _ Hrows Hi) as (row & Hrow & Hf).
  exists row. split; [|done]. apply list_elem_of_lookup. by exists i.
Qed.

(** C9.  [export_row] reads the X_Value of every cell from the full x
    sequence at the cell's column index.  On a grid applied in Split mode
    with [n >= 4] x values the columns of tab 2 are local to the second
    half, so for an annotated cell [(2, r, c)] whose own column header is
    [x_own] the exported row carries the value at column [c] of the first
    half; [x_own] sits at index [ceil(n/2) + c] of the full sequence, and
    the two differ whenever the x values are pairwise distinct. *)
Theorem C9_split_export_indexes_full_sequence
  (a : app) (n : gmap key string)
  (r c : nat) (note x_own : string) (t2 : tab) (rows : list (list string)) :
  qpulse_mode a = "Split" →
  (apply_ranges_try a).2 = Ok () →
  (4 <= length (current_values_x (applied a)))%nat →
  notebook (applied a) !! 1%nat = Some t2 →
  tab_x t2 !! c = Some x_own →
  n !! (2, r, c) = Some note →
  export_rows (set_notes n (applied a)) = Ok rows →
  (∀ t' r' c' note' row',
     export_row (set_notes n (applied a)) ((t', r', c'), note') = Ok row' →
     row' !! 3%nat = current_values_x (applied a) !! c') ∧
  tab_id t2 = 2 ∧
  ∃ row x_exported,
    row ∈ rows ∧
    row !! 0%nat = Some note ∧ row !! 1%nat = Some "2" ∧
    row !! 3%nat = Some x_exported ∧
    current_values_x (applied a) !! c = Some x_exported ∧
    take ((length (current_values_x (applied a)) + 1) `div` 2)
         (current_values_x (applied a)) !! c = Some x_exported ∧
    current_values_x (applied a)
      !! (((length (current_values_x (applied a)) + 1) `div` 2) + c)%nat = Some x_own ∧
    (NoDup (current_values_x (applied a)) → x_exported ≠ x_own).
Proof.
  intros Hmode Hok Hn Ht2 Hown Hnote Hrows. apply apply_ranges_try_proj in Hok.
  destruct (split_notebook a _ _ Hmode Hok Hn) as (Hnb & Hmid).
  fold (applied a) in Hnb, Hmid.
  set (a1 := applied a) in *.
  set (xs := current_values_x a1) in *.
  set (mid := ((length xs + 1) `div` 2)%nat) in *.
  rewrite Hnb in Ht2. injection Ht2 as <-. simpl in Hown.
  split.
  { intros t' r' c' note' row' Hrow.
    apply export_row_Ok in Hrow as (xv & yv & rest & Hx & _ & -> & _).
    simpl. symmetry. exact Hx. }
  split; [done|].
  destruct (export_rows_elem _ rows (2, r, c) note Hrows Hnote) as (row & Hin & Hrow).
  apply export_row_Ok in Hrow as (xv & yv & rest & Hx & _ & -> & _).
  change (current_values_x (set_notes n a1)) with xs in Hx.
  assert (Hc : (c < length xs - mid)%nat).
  { apply lookup_lt_Some in Hown. by rewrite length_drop in Hown. }
  eexists; exists xv. split; [exact Hin|].
  split; [done|]. split; [done|]. split; [done|].
  split; [done|]. split; [rewrite lookup_take_lt; [done | lia]|].
  rewrite lookup_drop in Hown. split; [done|].
  intros Hnd ->. pose proof (NoDup_lookup _ _ _ _ Hnd Hx Hown). lia.
Qed.

Lemma C9_split_export_witness :
  ∃ row x_exported,
    row ∈ split_noted_rows ∧ row !! 3%nat = Some x_exported ∧
    current_values_x (applied split_request) !! 4%nat = Some x_exported ∧
    x_exported ≠ "187".
Proof.
  destruct (C9_split_export_indexes_full_sequence
              split_request {[ (2, 3%nat, 4%nat) := "deep" ]}
              3 4 "deep" "187"
              {| tab_id := 2;
                 tab_y := current_values_y (applied split_request);
                 tab_x := drop 10 (current_values_x (applied split_request)) |}
              split_noted_rows)
    as (_ & _ & row & x & Hin & _ & _ & H3 & Hx & _ & _ & Hne).
  - reflexivity.
  - vm_compute. reflexivity.
  - vm_compute. lia.
  - vm_compute. reflexivity.
  - vm_compute. reflexivity.
  - vm_compute. reflexivity.
  - vm_compute. reflexivity.
  - exists row, x. split; [exact Hin|]. split; [exact H3|]. split; [exact Hx|].
    apply Hne. apply (bool_decide_unpack _). vm_compute. exact I.
Defined.

End Encoder.

(** ** The import decoder of grid_v2.py *)

Section Decoder.
Import Py V2 Examples.

(** What a restored row went through in [locate_row]. *)
Lemma locate_row_Some (a : app) (row : gmap string (option string))
  (k : key) (note : string) :
  locate_row a row = Some (k, note) →
  ∃ x_val y_val raw tab_str tab r c,
    row !! "X_Param" = Some (Some (current_x_param a)) ∧
    row !! "Y_Param" = Some (Some (current_y_param a)) ∧
    row !! "X_Value" = Some x_val ∧
    row !! "Y_Value" = Some y_val ∧
    default (Some EmptyString) (row !! "Note") = Some raw ∧
    default (Some "0") (row !! "Tab") = Some tab_str ∧
    int_of_str tab_str = Some tab ∧
    index_of (current_values_x a) (str_of_field x_val) = Some c ∧
    index_of (current_values_y a) (str_of_field y_val) = Some r ∧
    k = (tab, r, c) ∧ k ∈ buttons a ∧ note = strip raw.
Proof.
  unfold locate_row. intros H.
  destruct (row !! "X_Param") as [xp|]; [|done].
  destruct (row !! "Y_Param") as [yp|]; [|done].
  destruct (bool_decide (xp = Some (current_x_param a))) eqn:Hxp; [|done].
  destruct (bool_decide (yp = Some (current_y_param a))) eqn:Hyp; [|done].
  apply bool_decide_eq_true in Hxp as ->. apply bool_decide_eq_true in Hyp as ->.
  simpl in H.
  destruct (row !! "X_Value") as [x_val|]; [|done].
  destruct (row !! "Y_Value") as [y_val|]; [|done].
  destruct (default (Some EmptyString) (row !! "Note")) as [raw|]; [|done].
  destruct (default (Some "0") (row !! "Tab")) as [tab_str|]; [|done].
  destruct (int_of_str tab_str) as [tab|] eqn:Htab; [|done].
  destruct (index_of (current_values_x a) (str_of_field x_val)) as [c|] eqn:Hc; [|done].
  destruct (index_of (current_values_y a) (str_of_field y_val)) as [r|] eqn:Hr; [|done].
  destruct (bool_decide ((tab, r, c) ∈ buttons a)) eqn:Hb; [|done].
  apply bool_decide_eq_true in Hb. injection H as <- <-.
  exists x_val, y_val, raw, tab_str, tab, r, c.
  repeat (split; [first [reflexivity | assumption]|]). reflexivity.
Qed.



Lemma index_of_Some (values : list string) (val : string) (i : nat) :
  index_of values val = Some i ↔
  values !! i = Some val ∧ ∀ j, (j < i)%nat → values !! j ≠ Some val.
Proof.
  unfold index_of. split.
  - intros H. apply fmap_Some in H as ([i' x] & H & ->).
    apply list_find_Some in H as (Hi & -> & Hj). split; [done|].
    intros j Hlt Hv. by eapply Hj.
  - intros [Hi Hj]. apply fmap_Some. exists (i, val). split; [|done].
    apply list_find_Some. split; [done|]. split; [done|].
    intros j y Hy Hlt ->. by eapply Hj.
Qed.



Definition bounded_notes (a : app) : Prop :=
  ∀ k v, notes a !! k = Some v → (len v <= MAX_NOTE_LENGTH)%nat.

Lemma edit_note_bounded (a : app) (k : key) (answer : option string) :
  bounded_notes a → bounded_notes (edit_note k answer a).
Proof.
  intros Hb. unfold edit_note.
  destruct (bool_decide (k ∈ buttons a)) eqn:Hk; [|done].
  apply bool_decide_eq_true in Hk.
  destruct answer as [t|]; [|done].
  fold (edit_note k (Some t) a).
  pose proof (V2_edit_note_spec a k t Hk) as E. unfold edit_note in E.
  rewrite bool_decide_eq_true_2 in E by done. rewrite E. clear E.
  intros k' v. simpl. unfold stored_note, put_note.
  destruct (strip t) as [|c u].
  - intros H. apply lookup_delete_Some in H as [_ H]. by eapply Hb.
  - intros H. apply lookup_insert_Some in H as [[_ <-]|[_ H]]; [|by eapply Hb].
    rewrite len_str_take. lia.
Qed.

(** C10.  A row that the import restores is stored with the stripped text of
    its Note column, whatever its length: [load_row] applies no truncation.
    Direct edits keep every note within [MAX_NOTE_LENGTH], but loading
    [oversize_file] into a fresh model leaves a note of 600 characters in
    the store, so the bound is not preserved by import. *)
Theorem C10_import_bypasses_truncation :
  (∀ (a : app) (loaded : Z) (row : gmap string (option string)) (k : key) (note : string),
     locate_row a row = Some (k, note) →
     ∃ raw, default (Some EmptyString) (row !! "Note") = Some raw ∧
            note = strip raw ∧
            notes (load_row (a, loaded) row).1 !! k = Some (strip raw)) ∧
  (∀ (a : app) (k : key) (answer : option string),
     bounded_notes a → bounded_notes (edit_note k answer a)) ∧
  bounded_notes fresh ∧
  notes (load_from_csv (Some oversize_file) fresh).1 !! (0, 0%nat, 0%nat)
    = Some long_note ∧
  (MAX_NOTE_LENGTH < len long_note)%nat ∧
  ¬ bounded_notes (load_from_csv (Some oversize_file) fresh).1.
Proof.
  assert (Hload : notes (load_from_csv (Some oversize_file) fresh).1
                    !! (0, 0%nat, 0%nat) = Some long_note)
    by (vm_compute; reflexivity).
  assert (Hlen : (MAX_NOTE_LENGTH < len long_note)%nat) by (vm_compute; lia).
  assert (Hfresh : notes fresh = ∅) by (vm_compute; reflexivity).
  split; [|split; [|split; [|split; [exact Hload|split; [exact Hlen|]]]]].
  - intros a loaded row k note H.
    pose proof H as H'.
    apply locate_row_Some in H'
      as (x_val & y_val & raw & tab_str & tab & r & c & _ & _ & _ & _ & Hraw & _ & _
          & _ & _ & _ & _ & ->).
    exists raw. split; [done|]. split; [done|].
    unfold load_row. simpl. rewrite H. simpl. apply lookup_insert_eq.
  - apply edit_note_bounded.
  - intros k v. rewrite Hfresh, lookup_empty. done.
  - intros Hb. specialize (Hb _ _ Hload). lia.
Qed.

Lemma C10_import_witness :
  ∃ raw, default (Some EmptyString) (oversize_row !! "Note") = Some raw ∧
         notes (load_row (fresh, 0) oversize_row).1 !! (0, 0%nat, 0%nat)
           = Some (strip raw).
Proof.
  destruct C10_import_bypasses_truncation as (H & _).
  destruct (H fresh 0 oversize_row (0, 0%nat, 0%nat) long_note) as (raw & Hr & _ & Hn).
  - vm_compute. reflexivity.
  - exists raw. split; [exact Hr | exact Hn].
Defined.









End Decoder.

(** ** Texts, lines and csv records *)

Section TextFacts.
Import Py V2 Exchange.

Lemma str_app_cons (c : ascii) (s t : string) : String c s +:+ t = String c (s +:+ t).
Proof. reflexivity. Qed.

Lemma str_app_nil_l (t : string) : EmptyString +:+ t = t.
Proof. reflexivity. Qed.

Ltac str_app_simpl := rewrite ?str_app_cons, ?str_app_nil_l; simpl.

Lemma str_app_nil_r (s : string) : s +:+ EmptyString = s.
Proof. induction s as [|c s IH]; str_app_simpl; [done | by rewrite IH]. Qed.

Lemma str_app_assoc (a b c : string) : (a +:+ b) +:+ c = a +:+ (b +:+ c).
Proof. induction a as [|d a IH]; str_app_simpl; [done | by rewrite IH]. Qed.

Lemma str_exists_app (f : ascii → bool) (a b : string) :
  str_exists f (a +:+ b) = str_exists f a || str_exists f b.
Proof. induction a as [|c a IH]; str_app_simpl; [done|]. rewrite IH. by destruct (f c). Qed.

(** *** Stripping *)

Lemma rstrip_cons_keep (sp : ascii → bool) (c : ascii) (s : string) :
  sp c = false → rstrip_with sp (String c s) = String c (rstrip_with sp s).
Proof. intros H. simpl. rewrite H. by destruct (rstrip_with sp s). Qed.

Lemma rstrip_app_keep (sp : ascii → bool) (s t : string) :
  rstrip_with sp t ≠ EmptyString →
  rstrip_with sp (s +:+ t) = s +:+ rstrip_with sp t.
Proof.
  intros Ht. induction s as [|c s IH]; str_app_simpl; [done|].
  rewrite IH. destruct (s +:+ rstrip_with sp t) eqn:E; [|done].
  destruct s; [done | discriminate].
Qed.

Lemma rstrip_idem (sp : ascii → bool) (s : string) :
  rstrip_with sp (rstrip_with sp s) = rstrip_with sp s.
Proof.
  induction s as [|c s IH]; simpl; [done|].
  destruct (rstrip_with sp s) as [|d t] eqn:E.
  - destruct (sp c) eqn:Hc; simpl; [done|]. by rewrite Hc.
  - simpl in *. rewrite IH. done.
Qed.

Lemma rstrip_lstrip (sp : ascii → bool) (s : string) :
  rstrip_with sp (lstrip_with sp s) = lstrip_with sp (rstrip_with sp s).
Proof.
  induction s as [|c s IH]; simpl; [done|].
  destruct (sp c) eqn:Hc.
  - rewrite IH. destruct (rstrip_with sp s) as [|d t] eqn:E; simpl; [done|].
    by rewrite Hc.
  - simpl. rewrite Hc. destruct (rstrip_with sp s) as [|d t] eqn:E; simpl; by rewrite Hc.
Qed.

Lemma lstrip_idem (sp : ascii → bool) (s : string) :
  lstrip_with sp (lstrip_with sp s) = lstrip_with sp s.
Proof.
  induction s as [|c s IH]; simpl; [done|].
  destruct (sp c) eqn:Hc; [done|]. simpl. by rewrite Hc.
Qed.

Lemma strip_idem (s : string) : strip (strip s) = strip s.
Proof.
  unfold strip.
  by rewrite <- (rstrip_lstrip _ (lstrip_with isspace s)), lstrip_idem, rstrip_idem.
Qed.

Lemma strip_rstrip (s : string) : strip (rstrip_with isspace s) = strip s.
Proof. unfold strip. by rewrite <- rstrip_lstrip, rstrip_idem. Qed.

(** A stripped non-empty text starts and ends with a character that is no
    white space. *)
Lemma strip_fix_head (c : ascii) (s : string) :
  strip (String c s) = String c s → isspace c = false.
Proof.
  unfold strip. simpl. destruct (isspace c) eqn:Hc; [|done].
  intros H. exfalso.
  assert (Hlen : ∀ t, (String.length (rstrip_with isspace (lstrip_with isspace t))
                       <= String.length t)%nat).
  { clear. assert (Hr : ∀ t, (String.length (rstrip_with isspace t)
                              <= String.length t)%nat).
    { induction t as [|d t IH]; simpl; [lia|].
      destruct (rstrip_with isspace t); [destruct (isspace d)|]; simpl in *; lia. }
    induction t as [|d t IH]; simpl; [lia|].
    destruct (isspace d); [lia|]. etrans; [apply Hr|]. simpl. lia. }
  specialize (Hlen s). rewrite H in Hlen. simpl in Hlen. lia.
Qed.

Lemma strip_fix_rstrip (s : string) : strip s = s → rstrip_with isspace s = s.
Proof. intros H. rewrite <- H at 1. unfold strip. rewrite rstrip_idem. exact H. Qed.

Lemma strip_of_fix (c : ascii) (s : string) :
  isspace c = false → rstrip_with isspace (String c s) = String c s →
  strip (String c s) = String c s.
Proof. intros Hc Hr. unfold strip. simpl. rewrite Hc. exact Hr. Qed.

(** *** Splitting at the first colon *)

Lemma contains_char_app (c : ascii) (a b : string) :
  contains_char c (a +:+ b) = contains_char c a || contains_char c b.
Proof. induction a as [|d a IH]; str_app_simpl; [done|]. destruct (ascii_dec c d); [done|]. done. Qed.

Lemma split_once_app (c : ascii) (pre post : string) :
  contains_char c pre = false →
  split_once c (pre +:+ String c post) = (pre, post).
Proof.
  induction pre as [|d pre IH]; str_app_simpl.
  - destruct (ascii_dec c c); [done | congruence].
  - destruct (ascii_dec c d); [done|]. intros H. by rewrite IH.
Qed.

Lemma string_of_list_ascii_app (l k : list ascii) :
  string_of_list_ascii (l ++ k) = string_of_list_ascii l +:+ string_of_list_ascii k.
Proof. induction l as [|d l IH]; str_app_simpl; [done | by rewrite IH]. Qed.

Lemma splitlines_aux_line (s rest : string) (cur : list ascii) (c : ascii) :
  no_newline s → is_newline c = true →
  splitlines_aux (s +:+ String c rest) cur
    = (string_of_list_ascii (rev cur) +:+ s) :: splitlines_aux rest [].
Proof.
  unfold no_newline. revert cur. induction s as [|d s IH]; intros cur Hs Hc; str_app_simpl.
  - rewrite Hc. by rewrite str_app_nil_r.
  - simpl in Hs. apply orb_false_iff in Hs as [Hd Hs]. rewrite Hd, IH by done.
    simpl. rewrite string_of_list_ascii_app. simpl. by rewrite str_app_assoc.
Qed.

Lemma splitlines_line (s rest : string) :
  no_newline s → splitlines (s +:+ String LF rest) = s :: splitlines rest.
Proof. intros H. unfold splitlines. by rewrite splitlines_aux_line. Qed.

Lemma splitlines_crlf (s rest : string) :
  no_newline s →
  splitlines (s +:+ String CR (String LF rest)) = s :: EmptyString :: splitlines rest.
Proof.
  intros H. unfold splitlines. rewrite splitlines_aux_line by done. simpl. done.
Qed.

Lemma csv_writerow_record (delim : ascii) (fields : list string) :
  csv_writerow delim fields
    = csv_record delim fields +:+ String CR (String LF EmptyString).
Proof.
  unfold csv_writerow, csv_record.
  destruct fields as [|[|c f] [|g fs]]; reflexivity.
Qed.

(** *** The csv reader on what the csv writer wrote *)

Section Csv.
Context (delim : ascii).
Hypothesis delim_not_newline : is_newline delim = false.
Hypothesis delim_not_quote : delim ≠ dquote.
Hypothesis delim_not_NUL : delim ≠ NUL.

Lemma plain_cons (c : ascii) (s : string) :
  plain (String c s) = true →
  is_newline c = false ∧ c ≠ NUL ∧ plain s = true ∧
  Z.of_nat (String.length s) < field_limit.
Proof.
  unfold plain. simpl String.length. simpl str_exists.
  rewrite andb_true_iff, negb_true_iff, Z.leb_le, !orb_false_iff.
  intros [[[Hn H0] Hs] Hl]. apply bool_decide_eq_false in H0.
  rewrite andb_true_iff, negb_true_iff, Z.leb_le. repeat split; try done; lia.
Qed.

(** Unquoted characters accumulate in [IN_FIELD]. *)
Lemma parse_line_in_field (f rest : string) (cur : list ascii) (acc : list string) :
  str_exists (special delim) f = false → plain f = true →
  Z.of_nat (length cur) + Z.of_nat (String.length f) <= field_limit →
  parse_line delim (f +:+ rest) {| rstate := IN_FIELD; rfield := cur; rfields := acc |}
    = parse_line delim rest
        {| rstate := IN_FIELD; rfield := rev (list_ascii_of_string f) ++ cur;
           rfields := acc |}.
Proof.
  revert cur. induction f as [|c f IH]; intros cur Hsp Hpl Hlen; [done|].
  rewrite str_app_cons. simpl in Hsp. apply orb_false_iff in Hsp as [Hc Hsp].
  unfold special in Hc. rewrite !orb_false_iff in Hc. destruct Hc as [[Hd Hq] Hn].
  apply plain_cons in Hpl as (_ & H0 & Hpl & _).
  simpl String.length in Hlen.
  cbn [parse_line].
  unfold parse_process_char at 1. cbn [rstate]. rewrite Hn, Hd.
  unfold parse_add_char. cbn [rfield rfields].
  destruct (Z.leb_spec field_limit (Z.of_nat (length cur))) as [Hle|_]; [lia|].
  cbn [mbind result_bind]. rewrite IH; [|done|done|simpl length; lia].
  simpl. by rewrite <- app_assoc.
Qed.

Lemma parse_line_cons (c : ascii) (s : string) (r : reader) :
  c ≠ NUL →
  parse_line delim (String c s) r
    = parse_process_char delim (Some c) r ≫= parse_line delim s.
Proof. intros _. reflexivity. Qed.

Lemma dquote_not_NUL : dquote ≠ NUL.
Proof. vm_compute. discriminate. Qed.

(** Inside quotes every character accumulates, a doubled quote as one. *)
Lemma parse_line_in_quoted (f rest : string) (cur : list ascii) (acc : list string) :
  plain f = true →
  Z.of_nat (length cur) + Z.of_nat (String.length f) <= field_limit →
  parse_line delim (double_quotes f +:+ rest)
      {| rstate := IN_QUOTED_FIELD; rfield := cur; rfields := acc |}
    = parse_line delim rest
        {| rstate := IN_QUOTED_FIELD; rfield := rev (list_ascii_of_string f) ++ cur;
           rfields := acc |}.
Proof.
  revert cur. induction f as [|c f IH]; intros cur Hpl Hlen; [done|].
  apply plain_cons in Hpl as (_ & H0 & Hpl & _).
  simpl String.length in Hlen.
  cbn [double_quotes]. destruct (bool_decide (c = dquote)) eqn:Hq.
  - apply bool_decide_eq_true in Hq as ->. rewrite !str_app_cons.
    rewrite parse_line_cons by exact dquote_not_NUL.
    unfold parse_process_char at 1. cbn [rstate].
    rewrite (bool_decide_eq_true_2 (dquote = dquote) eq_refl).
    cbn [mbind result_bind]. unfold with_state. cbn [rfield rfields].
    rewrite parse_line_cons by exact dquote_not_NUL.
    unfold parse_process_char at 1. cbn [rstate].
    rewrite (bool_decide_eq_true_2 (dquote = dquote) eq_refl).
    unfold parse_add_char. cbn [rfield rfields].
    destruct (Z.leb_spec field_limit (Z.of_nat (length cur))) as [Hle|_]; [lia|].
    cbn [mbind result_bind]. rewrite IH; [|done|simpl length; lia].
    simpl. by rewrite <- app_assoc.
  - rewrite str_app_cons. rewrite parse_line_cons by exact H0.
    unfold parse_process_char at 1. cbn [rstate]. rewrite Hq.
    unfold parse_add_char. cbn [rfield rfields].
    destruct (Z.leb_spec field_limit (Z.of_nat (length cur))) as [Hle|_]; [lia|].
    cbn [mbind result_bind]. rewrite IH; [|done|simpl length; lia].
    simpl. by rewrite <- app_assoc.
Qed.

Lemma saved_field (f : string) (cur : list ascii) :
  string_of_list_ascii (rev (rev (list_ascii_of_string f) ++ cur))
    = string_of_list_ascii (rev cur) +:+ f.
Proof.
  by rewrite rev_app_distr, rev_involutive, string_of_list_ascii_app,
    string_of_list_ascii_of_string.
Qed.

Lemma saved_field_whole (f : string) :
  string_of_list_ascii (rev (rev (list_ascii_of_string f))) = f.
Proof. by rewrite rev_involutive, string_of_list_ascii_of_string. Qed.

Lemma is_newline_dquote : is_newline dquote = false.
Proof. reflexivity. Qed.

Lemma field_limit_pos : 0 < field_limit.
Proof. reflexivity. Qed.

(** What one written field leaves the reader with, whatever follows it. *)
Lemma parse_line_field (st : parser_state) (f rest : string) (acc : list string) :
  st = START_RECORD ∨ st = START_FIELD →
  plain f = true →
  parse_line delim (csv_field delim f +:+ rest) (at_field st acc)
    = parse_line delim rest
        (if str_exists (special delim) f
         then {| rstate := QUOTE_IN_QUOTED_FIELD;
                 rfield := rev (list_ascii_of_string f); rfields := acc |}
         else match f with
              | EmptyString => at_field st acc
              | _ => {| rstate := IN_FIELD;
                        rfield := rev (list_ascii_of_string f); rfields := acc |}
              end).
Proof.
  intros Hst Hpl. unfold csv_field. fold (special delim).
  assert (Hlim : Z.of_nat (String.length f) <= field_limit).
  { unfold plain in Hpl. apply andb_true_iff in Hpl as [_ Hl]. by apply Z.leb_le. }
  destruct (str_exists (special delim) f) eqn:Hsp.
  - rewrite str_app_cons, str_app_assoc, str_app_cons, str_app_nil_l.
    rewrite parse_line_cons by exact dquote_not_NUL.
    assert (parse_process_char delim (Some dquote) (at_field st acc)
            = Ok {| rstate := IN_QUOTED_FIELD; rfield := []; rfields := acc |}) as ->.
    { destruct Hst as [-> | ->]; reflexivity. }
    cbn [mbind result_bind].
    rewrite parse_line_in_quoted; [|done|simpl; lia].
    rewrite parse_line_cons by exact dquote_not_NUL.
    unfold parse_process_char at 1. cbn [rstate].
    rewrite (bool_decide_eq_true_2 (dquote = dquote) eq_refl).
    cbn [mbind result_bind]. unfold with_state. cbn [rfield rfields].
    by rewrite app_nil_r.
  - destruct f as [|c f]; [done|].
    rewrite str_app_cons. simpl in Hsp. apply orb_false_iff in Hsp as [Hc Hsp].
    unfold special in Hc. rewrite !orb_false_iff in Hc. destruct Hc as [[Hd Hq] Hn].
    apply plain_cons in Hpl as (_ & H0 & Hpl & Hlt).
    rewrite parse_line_cons by exact H0.
    assert (parse_process_char delim (Some c) (at_field st acc)
            = Ok {| rstate := IN_FIELD; rfield := [c]; rfields := acc |}) as ->.
    { destruct Hst as [-> | ->]; unfold parse_process_char, start_field; cbn [rstate at_field];
        rewrite Hn, Hq, Hd; reflexivity. }
    cbn [mbind result_bind].
    rewrite parse_line_in_field; [|done|done|simpl length; lia].
    reflexivity.
Qed.

(** The same field when a delimiter follows it. *)
Lemma parse_line_field_delim (st : parser_state) (f rest : string) (acc : list string) :
  st = START_RECORD ∨ st = START_FIELD →
  plain f = true →
  parse_line delim (csv_field delim f +:+ String delim rest) (at_field st acc)
    = parse_line delim rest (at_field START_FIELD (f :: acc)).
Proof.
  intros Hst Hpl. rewrite parse_line_field by done.
  rewrite parse_line_cons by exact delim_not_NUL.
  destruct (str_exists (special delim) f) eqn:Hsp.
  - unfold parse_process_char. cbn [rstate].
    rewrite (bool_decide_eq_false_2 _ delim_not_quote),
      (bool_decide_eq_true_2 (delim = delim) eq_refl).
    cbn [mbind result_bind]. unfold parse_save_field, at_field. cbn [rfield rfields].
    by rewrite saved_field_whole.
  - destruct f as [|c f].
    + destruct Hst as [-> | ->]; unfold parse_process_char, start_field;
        cbn [rstate at_field]; rewrite ?delim_not_newline,
          (bool_decide_eq_false_2 _ delim_not_quote),
          (bool_decide_eq_true_2 (delim = delim) eq_refl); reflexivity.
    + unfold parse_process_char. cbn [rstate].
      rewrite delim_not_newline, (bool_decide_eq_true_2 (delim = delim) eq_refl).
      cbn [mbind result_bind]. unfold parse_save_field, at_field. cbn [rfield rfields].
      by rewrite saved_field_whole.
Qed.

(** The last field of a record that has another field before it. *)
Lemma parse_line_field_end (f : string) (acc : list string) :
  plain f = true →
  parse_line delim (csv_field delim f) (at_field START_FIELD acc)
    = Ok (at_field START_RECORD (f :: acc)).
Proof.
  intros Hpl. rewrite <- (str_app_nil_r (csv_field delim f)).
  rewrite parse_line_field by (done || by right).
  cbn [parse_line].
  destruct (str_exists (special delim) f) eqn:Hsp.
  - unfold parse_process_char. cbn [rstate]. unfold parse_save_field, at_field.
    cbn [rfield rfields]. by rewrite saved_field_whole.
  - destruct f as [|c f]; [reflexivity|].
    unfold parse_process_char. cbn [rstate]. unfold parse_save_field, at_field.
    cbn [rfield rfields]. by rewrite saved_field_whole.
Qed.

(** A record alone: one field, or the empty record. *)
Lemma parse_line_single (f : string) :
  plain f = true →
  parse_line delim (csv_record delim [f]) parse_reset
    = Ok (at_field START_RECORD [f]).
Proof.
  intros Hpl. destruct f as [|c f]; [reflexivity|].
  unfold csv_record. cbn [fmap list_fmap str_join].
  rewrite <- (str_app_nil_r (csv_field delim _)).
  change parse_reset with (at_field START_RECORD []).
  rewrite (parse_line_field START_RECORD) by (done || by left).
  cbn [parse_line].
  destruct (str_exists (special delim) (String c f)) eqn:Hsp.
  - unfold parse_process_char. cbn [rstate]. unfold parse_save_field, at_field.
    cbn [rfield rfields]. by rewrite saved_field_whole.
  - unfold parse_process_char. cbn [rstate]. unfold parse_save_field, at_field.
    cbn [rfield rfields]. by rewrite saved_field_whole.
Qed.

Lemma parse_line_fields (f : string) (fields acc : list string) :
  Forall (λ f, plain f = true) (f :: fields) →
  parse_line delim (str_join (String delim EmptyString) (csv_field delim <$> f :: fields))
      (at_field START_FIELD acc)
    = Ok (at_field START_RECORD (rev (f :: fields) ++ acc)).
Proof.
  revert f acc. induction fields as [|g fields IH]; intros f acc Hpl.
  - apply Forall_inv in Hpl. cbn [fmap list_fmap str_join].
    by rewrite parse_line_field_end.
  - pose proof (Forall_inv Hpl) as Hf. apply Forall_inv_tail in Hpl.
    change (str_join (String delim EmptyString) (csv_field delim <$> f :: g :: fields))
      with (csv_field delim f +:+ String delim EmptyString +:+
            str_join (String delim EmptyString) (csv_field delim <$> g :: fields)).
    rewrite str_app_cons, str_app_nil_l.
    rewrite parse_line_field_delim by (done || by right).
    rewrite IH by done. do 2 f_equal. simpl. by rewrite <- !app_assoc.
Qed.

(** The reader takes back the record the writer wrote. *)
Lemma parse_line_record (fields : list string) :
  Forall (λ f, plain f = true) fields →
  ∃ r, parse_line delim (csv_record delim fields) parse_reset = Ok r ∧
       rstate r = START_RECORD ∧ rev (rfields r) = fields.
Proof.
  intros Hpl. destruct fields as [|f [|g fields]].
  - by exists parse_reset.
  - apply Forall_inv in Hpl. rewrite parse_line_single by done.
    by eexists.
  - pose proof (Forall_inv Hpl) as Hf. apply Forall_inv_tail in Hpl.
    assert (csv_record delim (f :: g :: fields)
            = csv_field delim f +:+ String delim
                (str_join (String delim EmptyString) (csv_field delim <$> g :: fields)))
      as ->.
    { by destruct f. }
    change parse_reset with (at_field START_RECORD []).
    rewrite (parse_line_field_delim START_RECORD) by (done || by left).
    rewrite parse_line_fields by done. eexists. split; [done|]. split; [done|].
    cbn [rfields at_field]. rewrite rev_app_distr, rev_involutive. done.
Qed.

Lemma csv_reader_records (rows : list (list string)) :
  Forall (Forall (λ f, plain f = true)) rows →
  csv_reader delim (csv_record delim <$> rows) parse_reset = Ok rows.
Proof.
  induction 1 as [|row rows Hrow _ IH]; [done|].
  cbn [fmap list_fmap csv_reader].
  destruct (parse_line_record row Hrow) as (r & -> & Hst & Hf).
  cbn [mbind result_bind]. rewrite Hst.
  change (list_fmap _ _ (csv_record delim) rows) with (csv_record delim <$> rows).
  rewrite IH. cbn [mbind result_bind mret result_ret]. by rewrite Hf.
Qed.

End Csv.

Lemma strip_hash (s : string) :
  strip (String "#" s) = String "#" (rstrip_with isspace s).
Proof.
  unfold strip. change (lstrip_with isspace (String "#" s)) with (String "#" s).
  by rewrite rstrip_cons_keep.
Qed.

Lemma read_lines_pair (pre post : string) (rest : list string)
  (m : gmap string string) (d : list string) :
  contains_char ":" pre = false →
  read_lines (render (Pair pre post) :: rest) m d
    = read_lines rest (<[strip pre := strip post]> m) d.
Proof.
  intros Hpre. cbn [read_lines render]. rewrite str_app_cons, str_app_nil_l, strip_hash.
  rewrite rstrip_app_keep.
  2:{ rewrite str_app_cons, str_app_nil_l, rstrip_cons_keep by done. done. }
  rewrite str_app_cons, str_app_nil_l, rstrip_cons_keep by done.
  cbn [startswith_char]. destruct (ascii_dec "#" "#") as [_|]; [|done].
  assert (contains_char ":" (String "#" (pre +:+ String ":" (rstrip_with isspace post)))
          = true) as ->.
  { cbn [contains_char]. destruct (ascii_dec ":" "#"); [done|].
    rewrite contains_char_app. cbn [contains_char].
    destruct (ascii_dec ":" ":"); [|done]. by rewrite orb_true_r. }
  cbn [andb str_drop]. rewrite split_once_app by done.
  by rewrite strip_rstrip.
Qed.

Lemma read_lines_comment (s : string) (rest : list string)
  (m : gmap string string) (d : list string) :
  item_ok (Comment s) = true →
  read_lines (s :: rest) m d = read_lines rest m d.
Proof.
  cbn [item_ok read_lines]. intros H. apply andb_true_iff in H as [H1 H2].
  apply negb_true_iff in H1. rewrite H1.
  destruct (str_eqb (strip s) EmptyString); [done|].
  cbn in H2. by rewrite H2.
Qed.

Lemma read_lines_items (items : list meta_item) (rest : list string)
  (m : gmap string string) (d : list string) :
  forallb item_ok items = true →
  read_lines ((render <$> items) ++ rest) m d = read_lines rest (foldl absorb m items) d.
Proof.
  revert m. induction items as [|i items IH]; intros m H; [done|].
  cbn [forallb] in H. apply andb_true_iff in H as [Hi H].
  rewrite fmap_cons, <- app_comm_cons. destruct i as [s|pre post].
  - rewrite read_lines_comment by done. by apply IH.
  - rewrite read_lines_pair by (by apply negb_true_iff). by apply IH.
Qed.

Lemma foldl_absorb_lookup (k : string) (items : list meta_item) (m : gmap string string) :
  foldl absorb m items !! k
    = match meta_get k items with Some v => Some v | None => m !! k end.
Proof.
  revert m. induction items as [|i items IH]; intros m; [done|].
  cbn [foldl meta_get]. rewrite IH.
  destruct (meta_get k items); [done|].
  destruct i as [s|pre post]; [done|]. cbn [absorb]. unfold str_eqb.
  case_bool_decide as Hk.
  - subst k. by rewrite lookup_insert_eq.
  - by rewrite lookup_insert_ne.
Qed.

Lemma read_lines_data (ls : list string) (m : gmap string string) (d : list string) :
  forallb data_ok ls = true →
  read_lines (ls ≫= λ l, [l; EmptyString]) m d = (m, d ++ ls).
Proof.
  revert d. induction ls as [|l ls IH]; intros d H.
  - by rewrite app_nil_r.
  - cbn [forallb] in H. apply andb_true_iff in H as [Hl H].
    unfold data_ok in Hl. rewrite !andb_true_iff, !negb_true_iff in Hl.
    destruct Hl as [[Hs He] Hh]. apply str_eqb_eq in Hs.
    rewrite bind_cons. cbn [List.app read_lines]. rewrite Hs, Hh, He. cbn [andb negb].
    change (strip EmptyString) with EmptyString.
    change (startswith_char "#" EmptyString) with false.
    change (str_eqb EmptyString EmptyString) with true. cbn [andb negb].
    rewrite IH by done. by rewrite <- app_assoc.
Qed.

Lemma splitlines_unlines (ls : list string) (rest : string) :
  Forall no_newline ls →
  splitlines (str_concat ((λ l, l +:+ nl) <$> ls) +:+ rest) = ls ++ splitlines rest.
Proof.
  induction 1 as [|l ls Hl _ IH]; [done|].
  rewrite fmap_cons. cbn [str_concat]. unfold nl at 1.
  rewrite !str_app_assoc, str_app_cons, str_app_nil_l, splitlines_line by done.
  by rewrite IH.
Qed.

Lemma splitlines_records (ls : list string) :
  Forall no_newline ls →
  splitlines (str_concat ((λ l, l +:+ String CR (String LF EmptyString)) <$> ls))
    = ls ≫= λ l, [l; EmptyString].
Proof.
  induction 1 as [|l ls Hl _ IH]; [done|].
  rewrite fmap_cons. cbn [str_concat].
  rewrite !str_app_assoc, !str_app_cons, str_app_nil_l, splitlines_crlf by done.
  by rewrite IH.
Qed.

Lemma str_concat_app (l k : list string) :
  str_concat (l ++ k) = str_concat l +:+ str_concat k.
Proof.
  induction l as [|s l IH]; [done|].
  cbn [List.app str_concat]. by rewrite IH, str_app_assoc.
Qed.

Lemma unlines_app (l k : list string) : unlines (l ++ k) = unlines l +:+ unlines k.
Proof. unfold unlines. by rewrite fmap_app, str_concat_app. Qed.

Lemma range_lines_items (a : app) (ps : list string) :
  Forall (λ p, is_Some (ranges a !! p)) ps →
  ∃ rls, mapM (range_lines a) ps = Ok rls ∧
         str_concat rls = unlines (render <$> (ps ≫= range_items a)).
Proof.
  induction 1 as [|p ps [r Hr] _ (rls & Hrls & IH)]; [by exists []|].
  exists (("#   " +:+ p +:+ "_start: " +:+ start r +:+ nl +:+
           "#   " +:+ p +:+ "_end: " +:+ end_ r +:+ nl) :: rls).
  split.
  { apply mapM_Ok. constructor; [|by apply mapM_Ok].
    unfold range_lines. by rewrite Hr. }
  rewrite bind_cons, fmap_app, unlines_app. cbn [str_concat]. rewrite IH. f_equal.
  unfold range_items. rewrite Hr. unfold unlines. cbn [fmap list_fmap str_concat render].
  rewrite !str_app_assoc, str_app_nil_r. reflexivity.
Qed.

Lemma global_lines_items (d : list (string * string)) :
  str_concat ((λ kv : string * string, "#   " +:+ kv.1 +:+ ": " +:+ kv.2 +:+ nl) <$> d)
    = unlines (render <$> (global_item <$> d)).
Proof.
  induction d as [|kv d IH]; [done|].
  rewrite !fmap_cons. unfold unlines. rewrite fmap_cons. cbn [str_concat].
  fold (unlines (render <$> (global_item <$> d))). rewrite <- IH. f_equal.
  unfold global_item. cbn [render]. rewrite !str_app_assoc. reflexivity.
Qed.

Lemma records_cons (row : list string) (rows : list (list string)) :
  records (row :: rows) = csv_writerow "|" row +:+ str_concat (csv_writerow "|" <$> rows).
Proof.
  unfold records. rewrite !fmap_cons. cbn [str_concat]. rewrite csv_writerow_record.
  do 2 f_equal. induction rows as [|r rs IH]; [done|].
  rewrite !fmap_cons, IH, csv_writerow_record. done.
Qed.

Lemma export_text_meta (today : string) (a : app) (rows : list (list string)) :
  Forall (λ p, is_Some (ranges a !! p)) PARAMETERS →
  export_text today a rows
    = Ok (unlines (render <$> meta_items today a) +:+ records (header :: rows)).
Proof.
  intros Hr. destruct (range_lines_items a _ Hr) as (rls & Hrls & Hcat).
  unfold export_text. rewrite Hrls. cbn [mbind result_bind mret result_ret]. f_equal.
  rewrite Hcat, global_lines_items, records_cons. unfold meta_items.
  rewrite !fmap_app, !unlines_app. unfold unlines, head_items.
  cbn [fmap list_fmap str_concat render]. rewrite !str_app_assoc, ?str_app_nil_r.
  reflexivity.
Qed.

End TextFacts.

(** ** Numbers in stripped text *)

Section ParseFacts.
Import Py Exchange.

(** *** Numbers in stripped text *)

Lemma lstrip_split (sp : ascii → bool) (s : string) :
  ∃ w, s = w +:+ lstrip_with sp s ∧ str_exists (λ c, negb (sp c)) w = false.
Proof.
  induction s as [|c s (w & Hs & Hw)]; [by exists EmptyString|].
  cbn [lstrip_with]. destruct (sp c) eqn:Hc.
  - exists (String c w). rewrite str_app_cons, <- Hs. split; [done|].
    cbn [str_exists]. by rewrite Hc, Hw.
  - by exists EmptyString.
Qed.

Lemma rstrip_split (sp : ascii → bool) (s : string) :
  ∃ w, s = rstrip_with sp s +:+ w ∧ str_exists (λ c, negb (sp c)) w = false.
Proof.
  induction s as [|c s (w & Hs & Hw)]; [by exists EmptyString|].
  cbn [rstrip_with]. destruct (rstrip_with sp s) as [|d t] eqn:E.
  - rewrite str_app_nil_l in Hs. subst w. destruct (sp c) eqn:Hc.
    + exists (String c s). split; [done|]. cbn [str_exists]. by rewrite Hc, Hw.
    + exists s. by rewrite str_app_cons, str_app_nil_l.
  - exists w. by rewrite str_app_cons, <- Hs.
Qed.

Lemma lstrip_skip (sp : ascii → bool) (w s : string) :
  str_exists (λ c, negb (sp c)) w = false →
  lstrip_with sp (w +:+ s) = lstrip_with sp s.
Proof.
  induction w as [|c w IH]; [done|]. cbn [str_exists]. intros H.
  apply orb_false_iff in H as [Hc Hw]. apply negb_false_iff in Hc.
  rewrite str_app_cons. cbn [lstrip_with]. rewrite Hc. by apply IH.
Qed.

Lemma rstrip_all (sp : ascii → bool) (w : string) :
  str_exists (λ c, negb (sp c)) w = false → rstrip_with sp w = EmptyString.
Proof.
  induction w as [|c w IH]; [done|]. cbn [str_exists]. intros H.
  apply orb_false_iff in H as [Hc Hw]. apply negb_false_iff in Hc.
  cbn [rstrip_with]. by rewrite IH, Hc.
Qed.

Lemma rstrip_skip (sp : ascii → bool) (s w : string) :
  str_exists (λ c, negb (sp c)) w = false →
  rstrip_with sp (s +:+ w) = rstrip_with sp s.
Proof.
  intros Hw. induction s as [|c s IH].
  - rewrite str_app_nil_l. by apply rstrip_all.
  - rewrite str_app_cons. cbn [rstrip_with]. by rewrite IH.
Qed.

Lemma strip_with_none (sp : ascii → bool) (s : string) :
  str_exists sp s = false → lstrip_with sp s = s ∧ rstrip_with sp s = s.
Proof.
  induction s as [|c s IH]; [done|]. cbn [str_exists]. intros H.
  apply orb_false_iff in H as [Hc Hs]. destruct (IH Hs) as [_ Hr].
  cbn [lstrip_with rstrip_with]. rewrite Hc, Hr. by destruct s.
Qed.

Lemma isspace_num_isspace (c : ascii) : isspace_num c = true → isspace c = true.
Proof. destruct c as [[] [] [] [] [] [] [] []]; done. Qed.

Lemma str_exists_weaken (f g : ascii → bool) (s : string) :
  (∀ c, f c = true → g c = true) → str_exists g s = false → str_exists f s = false.
Proof.
  intros Hfg. induction s as [|c s IH]; [done|]. cbn [str_exists]. intros H.
  apply orb_false_iff in H as [Hc Hs]. rewrite (IH Hs), orb_false_r.
  destruct (f c) eqn:Hf; [|done]. apply Hfg in Hf. congruence.
Qed.

(** When the number inside holds no white space of [str.strip], stripping
    the text first leaves the same number. *)
Lemma strip_num_strip (s : string) :
  str_exists isspace (strip_num s) = false → strip_num (strip s) = strip_num s.
Proof.
  intros Ht. set (t := strip_num s) in *.
  assert (Hnum : str_exists isspace_num t = false).
  { revert Ht. apply str_exists_weaken, isspace_num_isspace. }
  destruct (strip_with_none _ _ Ht) as [Hl Hr].
  destruct (strip_with_none _ _ Hnum) as [Hl' Hr'].
  assert (Hstrip : strip s = t).
  { destruct (lstrip_split isspace_num s) as (w1 & Hs & Hw1).
    destruct (rstrip_split isspace_num (lstrip_with isspace_num s)) as (w2 & Hu & Hw2).
    fold (strip_num s) in Hu. fold t in Hu. rewrite Hu in Hs.
    assert (Hw1' : str_exists (λ c, negb (isspace c)) w1 = false).
    { revert Hw1. apply str_exists_weaken. intros c Hc.
      apply negb_true_iff in Hc. apply negb_true_iff.
      destruct (isspace_num c) eqn:E; [|done].
      apply isspace_num_isspace in E. congruence. }
    assert (Hw2' : str_exists (λ c, negb (isspace c)) w2 = false).
    { revert Hw2. apply str_exists_weaken. intros c Hc.
      apply negb_true_iff in Hc. apply negb_true_iff.
      destruct (isspace_num c) eqn:E; [|done].
      apply isspace_num_isspace in E. congruence. }
    unfold strip. rewrite Hs, lstrip_skip by done.
    destruct t as [|c t'] eqn:Et.
    - rewrite str_app_nil_l. destruct (lstrip_split isspace w2) as (w & Hw & Hww).
      destruct (lstrip_with isspace w2) as [|d u] eqn:E; [done|].
      (* a character of [w2] that is no white space: impossible *)
      exfalso. assert (isspace d = false) as Hd.
      { clear -E. induction w2 as [|e w2 IH]; [done|]. cbn [lstrip_with] in E.
        destruct (isspace e) eqn:He; [by apply IH|]. by injection E as <- _. }
      rewrite Hw, str_exists_app in Hw2'. apply orb_false_iff in Hw2' as [_ H].
      cbn [str_exists] in H. rewrite Hd in H. done.
    - rewrite <- Et in *. assert (lstrip_with isspace (t +:+ w2) = t +:+ w2) as ->.
      { rewrite Et, str_app_cons. cbn [lstrip_with]. cbn [str_exists] in Ht.
        rewrite Et in Ht. cbn [str_exists] in Ht.
        apply orb_false_iff in Ht as [-> _]. done. }
      by rewrite rstrip_skip. }
  rewrite Hstrip. unfold strip_num. by rewrite Hl', Hr'.
Qed.

Lemma numeric_char_not_space (c : ascii) : numeric_char c = true → isspace c = false.
Proof. destruct c as [[] [] [] [] [] [] [] []]; done. Qed.

Lemma lower_isspace (c : ascii) : isspace (lower c) = isspace c.
Proof. destruct c as [[] [] [] [] [] [] [] []]; done. Qed.

Lemma lower_str_isspace (s : string) :
  str_exists isspace (lower_str s) = str_exists isspace s.
Proof.
  induction s as [|c s IH]; [done|].
  cbn [lower_str str_exists]. by rewrite lower_isspace, IH.
Qed.

(** The characters [read_digits] consumes. *)
Lemma read_digits_chars (s : string) (p : bool) (acc : Z) (n : nat)
  (v : Z) (n' : nat) (rest : string) :
  read_digits s p acc n = Some (v, n', rest) →
  ∃ pre, s = pre +:+ rest ∧ str_exists (λ c, negb (numeric_char c)) pre = false.
Proof.
  revert p acc n. induction s as [|c s IH]; intros p acc n H.
  - cbn [read_digits] in H. destruct p; [|done]. injection H as _ _ <-.
    by exists EmptyString.
  - cbn [read_digits] in H. destruct (isdigit c) eqn:Hd.
    { apply IH in H as (pre & -> & Hpre). exists (String c pre).
      split; [done|]. cbn [str_exists]. unfold numeric_char at 1. by rewrite Hd, Hpre. }
    destruct (ascii_dec c "_") as [->|Hu].
    { destruct p; [|done]. destruct s as [|d s']; [done|].
      destruct (isdigit d); [|done].
      apply IH in H as (pre & -> & Hpre). exists (String "_" pre).
      split; [done|]. cbn [str_exists]. by rewrite Hpre. }
    destruct p; [|done]. injection H as _ _ <-. by exists EmptyString.
Qed.

Lemma read_sign_chars (s : string) (neg : bool) (body : string) :
  read_sign s = (neg, body) →
  str_exists (λ c, negb (numeric_char c)) body = false →
  str_exists (λ c, negb (numeric_char c)) s = false.
Proof.
  unfold read_sign. intros H Hb.
  destruct s as [|c s]; [by injection H as _ <-|].
  destruct (ascii_dec c "-") as [->|H1]; [injection H as _ <-; cbn [str_exists]; by rewrite Hb|].
  destruct (ascii_dec c "+") as [->|H2]; [injection H as _ <-; cbn [str_exists]; by rewrite Hb|].
  assert (read_sign (String c s) = (false, String c s)) as E.
  { unfold read_sign. destruct c as [[] [] [] [] [] [] [] []]; done. }
  unfold read_sign in E. rewrite E in H. by injection H as _ <-.
Qed.

Lemma numeric_no_space (s : string) :
  str_exists (λ c, negb (numeric_char c)) s = false → str_exists isspace s = false.
Proof.
  apply str_exists_weaken. intros c Hc. apply negb_true_iff.
  destruct (numeric_char c) eqn:E; [|done].
  apply numeric_char_not_space in E. congruence.
Qed.

Lemma int_of_str_no_space (s : string) (v : Z) :
  int_of_str s = Some v → str_exists isspace (strip_num s) = false.
Proof.
  unfold int_of_str. destruct (read_sign (strip_num s)) as [neg body] eqn:Hs.
  destruct (read_digits body false 0 0) as [[[v' n'] rest]|] eqn:Hd; [|done].
  destruct rest; [|done]. destruct (INT_MAX_STR_DIGITS <? Z.of_nat n'); [done|].
  intros _.
  apply read_digits_chars in Hd as (pre & -> & Hpre). rewrite str_app_nil_r in Hs.
  apply numeric_no_space. by eapply read_sign_chars.
Qed.

(** [int] reads the same number from a text and from the text stripped. *)
Lemma int_of_str_strip (s : string) (v : Z) :
  int_of_str s = Some v → int_of_str (strip s) = Some v.
Proof.
  intros H. pose proof (int_of_str_no_space s v H) as Hsp.
  unfold int_of_str in *. by rewrite strip_num_strip.
Qed.

Lemma read_decimal_steps (neg : bool) (s : string) :
  read_decimal neg s =
    match after_int s with
    | None => None
    | Some (ip, ni, rest) =>
        match after_frac ip rest with
        | None => None
        | Some (v, nf, rest'') =>
            if (Nat.eqb ni 0 && Nat.eqb nf 0)%bool then None
            else match read_exponent rest'' with
                 | Some ex => Some (float_of_decimal neg v (ex - Z.of_nat nf))
                 | None => None
                 end
        end
    end.
Proof. reflexivity. Qed.

Lemma after_int_chars (s : string) (ip : Z) (ni : nat) (rest : string) :
  after_int s = Some (ip, ni, rest) → ∃ pre, s = pre +:+ rest ∧ str_exists (λ c, negb (numeric_char c)) pre = false.
Proof.
  unfold after_int. destruct s as [|c s']; [apply read_digits_chars|].
  destruct c as [[] [] [] [] [] [] [] []];
    first [apply read_digits_chars | (intros [= _ _ <-]; by exists EmptyString)].
Qed.

Lemma after_frac_chars (ip : Z) (rest : string) (v : Z) (nf : nat) (rest'' : string) :
  after_frac ip rest = Some (v, nf, rest'') → ∃ mid, rest = mid +:+ rest'' ∧ str_exists (λ c, negb (numeric_char c)) mid = false.
Proof.
  unfold after_frac. destruct rest as [|c rest'];
    [intros [= _ _ <-]; by exists EmptyString|].
  destruct c as [[] [] [] [] [] [] [] []];
    first [(intros [= _ _ <-]; by exists EmptyString) | idtac].
  destruct rest' as [|d r]; [intros [= _ _ <-]; by exists "."|].
  destruct (isdigit d); [|intros [= _ _ <-]; by exists "."].
  destruct (read_digits (String d r) false ip 0) as [[[v' nf'] r'']|] eqn:Hd; [|done].
  intros [= _ _ <-]. apply read_digits_chars in Hd as (pre' & Hd & Hpre').
  exists ("." +:+ pre'). rewrite str_app_cons, str_app_nil_l, str_app_cons, <- Hd. split; [done|].
  cbn [str_exists]. by rewrite Hpre'.
Qed.

Lemma read_exponent_chars (s : string) (ex : Z) : read_exponent s = Some ex → str_exists (λ c, negb (numeric_char c)) s = false.
Proof.
  unfold read_exponent. destruct s as [|c s']; [done|].
  destruct (ascii_dec (lower c) "e") as [He|]; [|done].
  destruct (read_sign s') as [neg body] eqn:Hs.
  destruct (read_digits body false 0 0) as [[[v n] rest]|] eqn:Hd; [|done].
  destruct rest; [|done]. intros _.
  apply read_digits_chars in Hd as (pre & -> & Hpre). rewrite str_app_nil_r in Hs.
  cbn [str_exists]. rewrite (read_sign_chars _ _ _ Hs Hpre), orb_false_r.
  apply negb_false_iff. unfold numeric_char. rewrite (bool_decide_eq_true_2 _ He).
  by rewrite !orb_true_r.
Qed.

Lemma read_decimal_chars (neg : bool) (s : string) (x : float) :
  read_decimal neg s = Some x → str_exists (λ c, negb (numeric_char c)) s = false.
Proof.
  rewrite read_decimal_steps.
  destruct (after_int s) as [[[ip ni] rest]|] eqn:Hi; [|done].
  destruct (after_frac ip rest) as [[[v nf] rest'']|] eqn:Hf; [|done].
  destruct (Nat.eqb ni 0 && Nat.eqb nf 0)%bool; [done|].
  destruct (read_exponent rest'') as [ex|] eqn:He; [|done]. intros _.
  apply after_int_chars in Hi as (pre & -> & Hpre).
  apply after_frac_chars in Hf as (mid & -> & Hmid).
  apply read_exponent_chars in He.
  by rewrite !str_exists_app, Hpre, Hmid, He.
Qed.

Lemma read_sign_no_space (s : string) (neg : bool) (body : string) :
  read_sign s = (neg, body) →
  str_exists isspace body = false → str_exists isspace s = false.
Proof.
  unfold read_sign. intros H Hb.
  destruct s as [|c s]; [by injection H as _ <-|].
  destruct (ascii_dec c "-") as [->|H1]; [injection H as _ <-; cbn [str_exists]; by rewrite Hb|].
  destruct (ascii_dec c "+") as [->|H2]; [injection H as _ <-; cbn [str_exists]; by rewrite Hb|].
  assert (read_sign (String c s) = (false, String c s)) as E.
  { unfold read_sign. destruct c as [[] [] [] [] [] [] [] []]; done. }
  unfold read_sign in E. rewrite E in H. by injection H as _ <-.
Qed.

Lemma float_of_str_no_space (s : string) (x : float) :
  float_of_str s = Some x → str_exists isspace (strip_num s) = false.
Proof.
  unfold float_of_str. destruct (read_sign (strip_num s)) as [neg body] eqn:Hs.
  intros H. apply (read_sign_no_space _ _ _ Hs).
  rewrite <- lower_str_isspace. unfold str_eqb in H.
  repeat case_bool_decide; simplify_eq/=;
    try match goal with E : lower_str body = _ |- _ => by rewrite E end.
  rewrite lower_str_isspace. apply numeric_no_space. by eapply read_decimal_chars.
Qed.

(** [float] reads the same number from a text and from the text stripped. *)
Lemma float_of_str_strip (s : string) (x : float) :
  float_of_str s = Some x → float_of_str (strip s) = Some x.
Proof.
  intros H. pose proof (float_of_str_no_space s x H) as Hsp.
  unfold float_of_str in *. by rewrite strip_num_strip.
Qed.

End ParseFacts.

(** ** Export followed by import *)

Section RoundTrip.
Import Py V2 Exchange Examples.

Lemma apply_ranges_try_succeeds (a : app) (xc yc : Z) (xs ys : list string) :
  x_axis_var a ≠ y_axis_var a →
  int_of_str (x_counts_var a) = Some xc →
  int_of_str (y_counts_var a) = Some yc →
  _generate_values (ranges a) (x_axis_var a) (Z.max 2 xc) = Ok xs →
  _generate_values (ranges a) (y_axis_var a) (Z.max 2 yc) = Ok ys →
  (apply_ranges_try a).2 = Ok ().
Proof.
  intros Hne Hxc Hyc Hxs Hys. unfold apply_ranges_try.
  rewrite (str_eqb_neq _ _ Hne), Hxc, Hyc, Hxs. cbn [ranges set_current_values_x].
  rewrite Hys.
  by destruct (if str_eqb _ "Split" then _ else _).
Qed.

Lemma applied_facts (a : app) :
  (apply_ranges_try a).2 = Ok () →
  ∃ xc yc,
    x_axis_var a ≠ y_axis_var a ∧
    int_of_str (x_counts_var a) = Some xc ∧
    int_of_str (y_counts_var a) = Some yc ∧
    _generate_values (ranges a) (x_axis_var a) (Z.max 2 xc)
      = Ok (current_values_x (applied a)) ∧
    _generate_values (ranges a) (y_axis_var a) (Z.max 2 yc)
      = Ok (current_values_y (applied a)) ∧
    current_x_param (applied a) = x_axis_var a ∧
    current_y_param (applied a) = y_axis_var a ∧
    notebook (applied a)
      = tabs (str_eqb (qpulse_mode a) "Split")
          (current_values_x (applied a)) (current_values_y (applied a)) ∧
    (∀ k, k ∈ cells (notebook (applied a)) → k ∈ buttons (applied a)) ∧
    notes (applied a) = ∅ ∧
    ranges (applied a) = ranges a ∧
    x_counts_var (applied a) = x_counts_var a ∧
    y_counts_var (applied a) = y_counts_var a ∧
    qpulse_mode (applied a) = qpulse_mode a ∧
    globals_dict (applied a) = globals_dict a.
Proof.
  intros Hok. apply apply_ranges_try_proj in Hok. fold (applied a) in Hok.
  apply apply_ranges_try_Ok in Hok
    as (xc & yc & xs & ys & Hne & Hxc & Hyc & Hxs & Hys & a5 & Hg & Ha).
  exists xc, yc. rewrite Ha.
  assert (H5 : current_values_x a5 = xs ∧ current_values_y a5 = ys ∧
               current_x_param a5 = x_axis_var a ∧ current_y_param a5 = y_axis_var a ∧
               notebook a5 = tabs (str_eqb (qpulse_mode a) "Split") xs ys ∧
               (∀ k, k ∈ cells (notebook a5) → k ∈ buttons a5) ∧
               ranges a5 = ranges a ∧ x_counts_var a5 = x_counts_var a ∧
               y_counts_var a5 = y_counts_var a ∧ qpulse_mode a5 = qpulse_mode a ∧
               global_entries a5 = global_entries a ∧
               x_axis_var a5 = x_axis_var a ∧ y_axis_var a5 = y_axis_var a).
  { unfold tabs. destruct (str_eqb (qpulse_mode a) "Split").
    - unfold _create_split_grids in Hg. cbv zeta in Hg.
      change (current_values_x (regenerated a xs ys)) with xs in Hg.
      change (current_values_y (regenerated a xs ys)) with ys in Hg.
      destruct (length xs <? 4)%nat; injection Hg as <- _;
        (repeat (split; [reflexivity|]));
        (split; [|by repeat (split; [reflexivity|])]);
        intros k Hk; unfold cells in Hk; cbn in Hk; rewrite ?app_nil_r in Hk;
        cbn [buttons _create_single_grid _build_grid set_grid regenerated];
        rewrite ?elem_of_union, ?elem_of_list_to_set;
        rewrite ?elem_of_app in Hk; tauto.
    - injection Hg as <- _. repeat (split; [reflexivity|]).
      split; [|by repeat (split; [reflexivity|])].
      intros k Hk. unfold cells in Hk. cbn in Hk. rewrite app_nil_r in Hk.
      cbn [buttons _create_single_grid _build_grid set_grid regenerated].
      rewrite elem_of_union, elem_of_list_to_set. tauto. }
  destruct H5 as (Ex & Ey & Exp & Eyp & Enb & Hb & Er & Exc & Eyc & Em & Eg & _).
  destruct (finished_fields a5) as (Fx & Fy & Fxp & Fyp & Fnb & Fb & Fn).
  cbv zeta in Fx, Fy, Fxp, Fyp, Fnb, Fb, Fn.
  rewrite Fx, Fy, Fxp, Fyp, Fnb, Fn, Ex, Ey.
  repeat (split; [first [assumption | reflexivity]|]).
  unfold globals_dict. cbn [global_entries _update_global_field_states set_global_entries
    clear_all set_notes]. rewrite Eg, <- list_fmap_compose. done.
Qed.

(** *** Written records as lines *)

Lemma plain_no_newline (s : string) : plain s = true → no_newline s.
Proof.
  unfold plain, no_newline. intros H. apply andb_true_iff in H as [H _].
  apply negb_true_iff in H. revert H. apply str_exists_weaken.
  intros c ->. done.
Qed.

Lemma double_quotes_newline (s : string) :
  str_exists is_newline (double_quotes s) = str_exists is_newline s.
Proof.
  induction s as [|c s IH]; [done|]. cbn [double_quotes str_exists].
  destruct (bool_decide (c = dquote)) eqn:Hc; cbn [str_exists]; rewrite IH.
  - apply bool_decide_eq_true in Hc as ->. reflexivity.
  - reflexivity.
Qed.

Lemma csv_field_no_newline (delim : ascii) (f : string) :
  plain f = true → no_newline (csv_field delim f).
Proof.
  intros H. apply plain_no_newline in H. unfold csv_field.
  match goal with |- context [if ?b then _ else _] => destruct b end; [|done].
  unfold no_newline in *. cbn [str_exists].
  by rewrite str_exists_app, double_quotes_newline, H.
Qed.

Lemma str_join_no_newline (sep : string) (l : list string) :
  no_newline sep → Forall no_newline l → no_newline (str_join sep l).
Proof.
  intros Hsep. induction 1 as [|x l Hx Hl IH]; [done|].
  destruct l as [|y l]; [done|].
  change (str_join sep (x :: y :: l)) with (x +:+ sep +:+ str_join sep (y :: l)).
  unfold no_newline in *. by rewrite !str_exists_app, Hx, Hsep, IH.
Qed.

Lemma csv_record_no_newline (fields : list string) :
  Forall (λ f, plain f = true) fields → no_newline (csv_record "|" fields).
Proof.
  intros H. unfold csv_record.
  assert (no_newline (str_join "|" (csv_field "|" <$> fields))) as Hj.
  { apply str_join_no_newline; [done|]. apply Forall_fmap.
    eapply Forall_impl; [exact H|]. intros f. apply csv_field_no_newline. }
  destruct fields as [|[|c f] [|g fs]]; done.
Qed.

Lemma str_join_last (sep : string) (l : list string) (x : string) :
  l ≠ [] → str_join sep (l ++ [x]) = str_join sep l +:+ sep +:+ x.
Proof.
  induction l as [|y l IH]; [done|]. intros _.
  destruct l as [|z l].
  - cbn [List.app str_join]. done.
  - change (str_join sep ((y :: z :: l) ++ [x]))
      with (y +:+ sep +:+ str_join sep ((z :: l) ++ [x])).
    rewrite IH by done.
    change (str_join sep (y :: z :: l)) with (y +:+ sep +:+ str_join sep (z :: l)).
    by rewrite !str_app_assoc.
Qed.

Lemma csv_field_rstrip (f : string) :
  rstrip_with isspace f = f → rstrip_with isspace (csv_field "|" f) = csv_field "|" f.
Proof.
  intros H. unfold csv_field.
  match goal with |- context [if ?b then _ else _] => destruct b end; [|done].
  rewrite rstrip_cons_keep by done. f_equal.
  apply rstrip_app_keep. done.
Qed.

Lemma csv_field_head (f : string) :
  strip f = f → startswith_char "#" f = false →
  ∃ c t, csv_field "|" f +:+ "|" = String c t ∧ isspace c = false ∧ c ≠ "#"%char.
Proof.
  intros Hs Hh. unfold csv_field.
  match goal with |- context [if ?b then _ else _] => destruct b end.
  - eexists _, _. rewrite str_app_cons. split; [reflexivity|]. done.
  - destruct f as [|c f]; [by eexists _, _|].
    exists c, (f +:+ "|"). split; [done|]. split; [by eapply strip_fix_head|].
    cbn [startswith_char] in Hh. by destruct (ascii_dec "#" c) as [|Hne]; [|intros ->].
Qed.

Lemma data_ok_record (row : list string) :
  row_ok row = true → data_ok (csv_record "|" row) = true.
Proof.
  unfold row_ok. rewrite !andb_true_iff, negb_true_iff, Nat.leb_le.
  intros [[[[Hpl Hlen] Hs] Hh] Hl].
  apply str_eqb_eq in Hs. apply str_eqb_eq in Hl.
  destruct row as [|f0 [|g fs]]; [simpl in Hlen; lia..|]. clear Hlen Hpl.
  cbn [hd] in Hs, Hh.
  destruct (exists_last (l := g :: fs)) as (mid & fl & Hmid); [done|].
  rewrite Hmid in *. clear Hmid g fs.
  change (f0 :: mid ++ [fl]) with ((f0 :: mid) ++ [fl]) in *.
  rewrite last_last in Hl.
  assert (csv_record "|" ((f0 :: mid) ++ [fl])
          = str_join "|" ((csv_field "|" <$> f0 :: mid) ++ [csv_field "|" fl])) as ->.
  { unfold csv_record. rewrite fmap_app. by destruct f0, mid. }
  rewrite str_join_last by done.
  set (line := str_join "|" (csv_field "|" <$> f0 :: mid) +:+ "|" +:+ csv_field "|" fl).
  assert (Hhead : ∃ c t, line = String c t ∧ isspace c = false ∧ c ≠ "#"%char).
  { destruct (csv_field_head f0 Hs Hh) as (c & t & E & Hc & Hne).
    subst line. destruct mid as [|g mid].
    - cbn [fmap list_fmap str_join]. rewrite <- str_app_assoc, E.
      by exists c, (t +:+ csv_field "|" fl).
    - change (str_join "|" (csv_field "|" <$> f0 :: g :: mid))
        with (csv_field "|" f0 +:+ "|" +:+ str_join "|" (csv_field "|" <$> g :: mid)).
      rewrite <- (str_app_assoc (csv_field "|" f0)), E, !str_app_cons. by eexists _, _. }
  assert (Hr : rstrip_with isspace line = line).
  { subst line. rewrite rstrip_app_keep.
    - by rewrite str_app_cons, str_app_nil_l, rstrip_cons_keep, csv_field_rstrip.
    - by rewrite str_app_cons, str_app_nil_l, rstrip_cons_keep. }
  destruct Hhead as (c & t & E & Hc & Hne).
  unfold data_ok. rewrite !andb_true_iff, !negb_true_iff. split; [split|].
  - apply str_eqb_eq. unfold strip. rewrite E. cbn [lstrip_with]. rewrite Hc, <- E. exact Hr.
  - rewrite E. by apply str_eqb_neq.
  - rewrite E. cbn [startswith_char]. by destruct (ascii_dec "#" c) as [<-|].
Qed.

Lemma meta_get_app (k : string) (xs ys : list meta_item) :
  meta_get k (xs ++ ys)
    = match meta_get k ys with Some v => Some v | None => meta_get k xs end.
Proof.
  induction xs as [|i xs IH]; cbn [List.app meta_get].
  - by destruct (meta_get k ys).
  - rewrite IH. by destruct (meta_get k ys).
Qed.

Lemma meta_get_globals (k : string) (d : list (string * string)) :
  forallb (λ nme, negb (str_eqb (strip ("   " +:+ nme)) k)) d.*1 = true →
  meta_get k (global_item <$> d) = None.
Proof.
  induction d as [|kv d IH]; [done|]. rewrite !fmap_cons. cbn [forallb meta_get global_item].
  intros H. apply andb_true_iff in H as [Hk H]. apply negb_true_iff in Hk.
  by rewrite IH, Hk.
Qed.

Lemma item_ok_globals (d : list (string * string)) :
  forallb (λ nme, negb (contains_char ":" ("   " +:+ nme))) d.*1 = true →
  forallb item_ok (global_item <$> d) = true.
Proof.
  induction d as [|kv d IH]; [done|]. rewrite !fmap_cons. cbn [forallb item_ok global_item].
  intros H. apply andb_true_iff in H as [Hk H]. by rewrite Hk, IH.
Qed.

Lemma assembled_item_ok (today xp yp mode xc yc : string) (rf : string → range)
  (G : list meta_item) :
  forallb item_ok G = true →
  forallb item_ok (assembled today xp yp mode xc yc rf G) = true.
Proof.
  intros HG. unfold assembled. rewrite !forallb_app, HG.
  vm_compute. reflexivity.
Qed.

Lemma assembled_get (today xp yp mode xc yc : string) (rf : string → range)
  (G : list meta_item) :
  (∀ k, k ∈ input_keys → meta_get k G = None) →
  let items := assembled today xp yp mode xc yc rf G in
  meta_get "X_Axis" items = Some (strip (" " +:+ xp)) ∧
  meta_get "Y_Axis" items = Some (strip (" " +:+ yp)) ∧
  meta_get "Mode" items = Some (strip (" " +:+ mode)) ∧
  meta_get "X_counts" items = Some (strip (" " +:+ xc)) ∧
  meta_get "Y_counts" items = Some (strip (" " +:+ yc)) ∧
  Forall (λ p, meta_get (p +:+ "_start") items = Some (strip (" " +:+ start (rf p))) ∧
               meta_get (p +:+ "_end") items = Some (strip (" " +:+ end_ (rf p))))
         PARAMETERS.
Proof.
  intros HG items. subst items. unfold assembled.
  assert (Hk : ∀ k v, k ∈ input_keys →
            meta_get k (head_items_of today xp yp mode xc yc ++
                        (PARAMETERS ≫= range_items_of rf) ++
                        [Comment EmptyString; Pair " Global Parameters" EmptyString])
              = Some v →
            meta_get k ((head_items_of today xp yp mode xc yc ++
                         (PARAMETERS ≫= range_items_of rf) ++
                         [Comment EmptyString; Pair " Global Parameters" EmptyString]) ++
                        G ++ [Comment EmptyString]) = Some v).
  { intros k v Hin Hv. rewrite meta_get_app, (meta_get_app k G), (HG k Hin). cbn [meta_get].
    exact Hv. }
  repeat split;
    try (apply Hk; [apply (bool_decide_unpack _); vm_compute; exact I
                   | vm_compute; reflexivity]).
  repeat constructor;
    (apply Hk; [apply (bool_decide_unpack _); vm_compute; exact I
               | vm_compute; reflexivity]).
Qed.

Lemma restore_range_other (md : gmap string string) (rg : gmap string range)
  (p q : string) :
  p ≠ q → restore_range md rg q !! p = rg !! p.
Proof.
  intros Hne. unfold restore_range. destruct (rg !! q); [|done].
  by rewrite lookup_insert_ne.
Qed.

Lemma restore_ranges_notin (md : gmap string string) (ps : list string)
  (rg : gmap string range) (p : string) :
  p ∉ ps → foldl (restore_range md) rg ps !! p = rg !! p.
Proof.
  revert rg. induction ps as [|q ps IH]; intros rg Hp; [done|].
  apply not_elem_of_cons in Hp as [Hne Hp]. cbn [foldl].
  rewrite IH by done. by apply restore_range_other.
Qed.

(** The range of a parameter after the metadata was written to the range
    fields. *)
Lemma restore_ranges_lookup (md : gmap string string) (ps : list string)
  (rg : gmap string range) (p : string) (r0 : range) :
  NoDup ps → p ∈ ps → rg !! p = Some r0 →
  foldl (restore_range md) rg ps !! p
    = Some {| start := default (start r0) (md !! (p +:+ "_start"));
              end_ := default (end_ r0) (md !! (p +:+ "_end")) |}.
Proof.
  revert rg. induction ps as [|q ps IH]; intros rg Hnd Hp Hr; [by apply elem_of_nil in Hp|].
  apply NoDup_cons in Hnd as [Hq Hnd]. cbn [foldl].
  destruct (decide (p = q)) as [->|Hne].
  - rewrite restore_ranges_notin by done. unfold restore_range. rewrite Hr.
    by rewrite lookup_insert_eq.
  - apply elem_of_cons in Hp as [|Hp]; [done|].
    apply IH; [done..|]. by rewrite restore_range_other.
Qed.

(** The generator reads the range texts only through [float]. *)
Lemma generate_values_ext (rg rg' : gmap string range) (p : string) (r r' : range)
  (n : Z) :
  rg !! p = Some r → rg' !! p = Some r' →
  float_of_str (start r') = float_of_str (start r) →
  float_of_str (end_ r') = float_of_str (end_ r) →
  _generate_values rg' p n = _generate_values rg p n.
Proof. intros H H' Hs He. unfold _generate_values. by rewrite H, H', Hs, He. Qed.

Lemma strip_space (s : string) : strip (" " +:+ s) = strip s.
Proof. reflexivity. Qed.

(** *** Rows *)

Lemma dict_row_header (f0 f1 f2 f3 f4 f5 : string) (rest : list string) :
  length rest = 7%nat →
  let row := dict_row header (f0 :: f1 :: f2 :: f3 :: f4 :: f5 :: rest) ∅ in
  row !! "Note" = Some (Some f0) ∧ row !! "Tab" = Some (Some f1) ∧
  row !! "X_Param" = Some (Some f2) ∧ row !! "X_Value" = Some (Some f3) ∧
  row !! "Y_Param" = Some (Some f4) ∧ row !! "Y_Value" = Some (Some f5).
Proof.
  intros Hlen.
  destruct rest as [|g0 [|g1 [|g2 [|g3 [|g4 [|g5 [|g6 [|]]]]]]]]; try discriminate.
  cbv zeta. unfold header. cbn [dict_row].
  repeat split; by simplify_map_eq.
Qed.

Lemma locate_row_exported (s : app) (t : Z) (r c : nat) (note xv yv : string)
  (rest : list string) :
  length rest = 7%nat →
  current_values_x s !! c = Some xv → current_values_y s !! r = Some yv →
  NoDup (current_values_x s) → NoDup (current_values_y s) →
  int_of_str (str_of_int t) = Some t →
  (t, r, c) ∈ buttons s →
  locate_row s (dict_row header
                  (note :: str_of_int t :: current_x_param s :: xv
                     :: current_y_param s :: yv :: rest) ∅)
    = Some ((t, r, c), strip note).
Proof.
  intros Hlen Hx Hy Hndx Hndy Ht Hb.
  destruct (dict_row_header note (str_of_int t) (current_x_param s) xv
              (current_y_param s) yv rest Hlen) as (E0 & E1 & E2 & E3 & E4 & E5).
  cbv zeta in E0, E1, E2, E3, E4, E5.
  unfold locate_row. rewrite E0, E1, E2, E3, E4, E5.
  rewrite !bool_decide_eq_true_2 by done. cbn [andb default str_of_field from_option id].
  rewrite Ht.
  assert (index_of (current_values_x s) xv = Some c) as ->.
  { apply index_of_Some. split; [done|]. intros j Hj Hv.
    pose proof (NoDup_lookup _ _ _ _ Hndx Hx Hv). lia. }
  assert (index_of (current_values_y s) yv = Some r) as ->.
  { apply index_of_Some. split; [done|]. intros j Hj Hv.
    pose proof (NoDup_lookup _ _ _ _ Hndy Hy Hv). lia. }
  by rewrite bool_decide_eq_true_2.
Qed.

(** The row loop on rows that are all located: every note is stored under
    its cell and counted. *)
Lemma foldl_load_rows (s : app) (kns : list (key * string))
  (rows : list (gmap string (option string))) (cnt : Z) :
  Forall2 (λ kn row, locate_row s row = Some kn) kns rows →
  foldl load_row (s, cnt) rows
    = (set_notes (foldl (λ m kn, <[kn.1 := kn.2]> m) (notes s) kns) s,
       cnt + Z.of_nat (length kns)).
Proof.
  intros H. revert rows s cnt H.
  induction kns as [|[k note] kns IH]; intros rows s cnt H.
  - apply Forall2_nil_inv_l in H as ->. cbn [foldl length]. rewrite Z.add_0_r. by destruct s.
  - apply Forall2_cons_inv_l in H as (row & rows' & Hrow & Hrest & ->).
    cbn [foldl].
    assert (load_row (s, cnt) row = (set_notes (<[k:=note]> (notes s)) s, cnt + 1)) as ->.
    { unfold load_row. cbn [fst snd]. by rewrite Hrow. }
    rewrite (IH rows' (set_notes (<[k:=note]> (notes s)) s)).
    + cbn [length foldl fst snd]. f_equal. lia.
    + eapply Forall2_impl; [exact Hrest|]. intros kn row' Hl. exact Hl.
Qed.

Lemma foldl_insert_to_list (l : list (key * string)) (m : gmap key string) :
  l ≡ₚ map_to_list m →
  foldl (λ acc kn, <[kn.1 := kn.2]> acc) ∅ l = m.
Proof.
  intros Hp.
  assert (Hnd : NoDup l.*1).
  { rewrite Hp. apply NoDup_fst_map_to_list. }
  assert (Hfold : ∀ acc : gmap key string,
            foldl (λ acc kn, <[kn.1 := kn.2]> acc) acc l
              = (list_to_map (reverse l) : gmap key string) ∪ acc).
  { clear Hp. induction l as [|[k v] l IH]; intros acc.
    - rewrite reverse_nil. cbn [foldl list_to_map foldr].
      by rewrite (left_id_L ∅ (∪)).
    - apply NoDup_cons in Hnd as [Hk Hnd]. cbn [foldl fst snd]. rewrite IH by done.
      rewrite reverse_cons, list_to_map_app. cbn [list_to_map foldr fst snd].
      rewrite insert_empty, <- (assoc_L (∪)), <- insert_union_singleton_l. done. }
  rewrite Hfold, (right_id_L ∅ (∪)).
  rewrite <- (list_to_map_to_list m). apply list_to_map_proper.
  - by rewrite fmap_reverse, reverse_Permutation.
  - by rewrite reverse_Permutation.
Qed.

Lemma forallb_Forall {A} (f : A → bool) (l : list A) :
  forallb f l = true ↔ Forall (λ x, f x = true) l.
Proof.
  induction l as [|x l IH]; cbn [forallb].
  - split; [constructor | done].
  - rewrite andb_true_iff, IH, Forall_cons. done.
Qed.

(** The first loop of [load_from_csv] on an exported text. *)
Lemma read_lines_export (items : list meta_item) (rows : list (list string)) :
  forallb item_ok items = true →
  Forall no_newline (render <$> items) →
  Forall (Forall (λ f, plain f = true)) rows →
  forallb data_ok (csv_record "|" <$> rows) = true →
  read_lines (splitlines (unlines (render <$> items) +:+ records rows)) ∅ []
    = (foldl absorb ∅ items, csv_record "|" <$> rows).
Proof.
  intros Hok Hnl Hpl Hdata. unfold unlines, records.
  rewrite splitlines_unlines by done.
  rewrite splitlines_records.
  2:{ apply Forall_fmap. eapply Forall_impl; [exact Hpl|].
      intros row. apply csv_record_no_newline. }
  rewrite read_lines_items by done.
  by rewrite read_lines_data.
Qed.

Lemma csv_DictReader_records (hdr : list string) (rows : list (list string)) :
  Forall (Forall (λ f, plain f = true)) (hdr :: rows) →
  Forall (λ row, row ≠ []) rows →
  csv_DictReader "|" (csv_record "|" <$> hdr :: rows)
    = Ok ((λ rec, dict_row hdr rec ∅) <$> rows).
Proof.
  intros Hpl Hne. unfold csv_DictReader.
  rewrite csv_reader_records; [|done|done|done|done].
  cbn [mbind result_bind mret result_ret]. do 2 f_equal.
  induction Hne as [|row rows Hrow _ IH]; [done|].
  rewrite filter_cons_True by done. f_equal. apply IH.
  apply Forall_cons in Hpl as [Hh Hpl]. apply Forall_cons in Hpl as [_ Hpl].
  by constructor.
Qed.

(** [load_from_csv] once its three stages are known. *)
Lemma load_from_csv_stages (txt : string) (b a1 : app) (md : gmap string string)
  (lines : list string) (ds : list dialog)
  (rows : list (gmap string (option string))) :
  read_lines (splitlines txt) ∅ [] = (md, lines) →
  is_Some (md !! "X_Axis") →
  apply_ranges true true (_update_global_field_states (restore_inputs md b)) = (a1, ds) →
  lines ≠ [] →
  csv_DictReader "|" lines = Ok rows →
  load_from_csv (Some txt) b
    = ((foldl load_row
          (clear_all (_update_global_field_states (restore_globals md a1)), 0) rows).1,
       ds ++ [showinfo "Load Complete"
                ("Loaded " +:+
                 str_of_int (foldl load_row
                   (clear_all (_update_global_field_states (restore_globals md a1)), 0)
                   rows).2 +:+ " notes" +:+ nl +:+ "Metadata restored.")]).
Proof.
  intros Hread Hx Happly Hne Hrows. unfold load_from_csv. rewrite Hread.
  cbv beta iota zeta. rewrite (bool_decide_eq_true_2 _ Hx). cbn [orb].
  rewrite Happly. cbv beta iota zeta.
  destruct lines as [|l lines]; [done|]. rewrite Hrows.
  by destruct (foldl load_row _ rows).
Qed.

Lemma bind_ext_Forall {A B} (f g : A → list B) (l : list A) :
  Forall (λ x, f x = g x) l → l ≫= f = l ≫= g.
Proof. induction 1 as [|x l Hx _ IH]; [done|]. by rewrite !bind_cons, Hx, IH. Qed.

Lemma meta_items_assembled (today : string) (e : app) :
  Forall (λ p, is_Some (ranges e !! p)) PARAMETERS →
  meta_items today e
    = assembled today (current_x_param e) (current_y_param e)
        (if str_eqb (qpulse_mode e) "Split" then "Split" else "Single")
        (x_counts_var e) (y_counts_var e)
        (λ p, default no_range (ranges e !! p))
        (global_item <$> globals_dict e).
Proof.
  intros H. unfold meta_items, assembled. rewrite <- !app_assoc. f_equal. f_equal.
  apply bind_ext_Forall. eapply Forall_impl; [exact H|].
  intros p [r Hr]. unfold range_items, range_items_of. by rewrite Hr.
Qed.

Lemma render_pair_no_newline (pre post : string) :
  no_newline pre → no_newline post → no_newline (render (Pair pre post)).
Proof.
  unfold no_newline, render. intros H1 H2.
  rewrite !str_exists_app, H1, H2. reflexivity.
Qed.

Lemma no_newline_app (s t : string) : no_newline s → no_newline t → no_newline (s +:+ t).
Proof. unfold no_newline. intros H1 H2. by rewrite str_exists_app, H1, H2. Qed.

Lemma assembled_no_newline (today xp yp mode xc yc : string) (rf : string → range)
  (G : list meta_item) :
  no_newline today → no_newline xp → no_newline yp → no_newline mode →
  no_newline xc → no_newline yc →
  Forall (λ p, no_newline (start (rf p)) ∧ no_newline (end_ (rf p))) PARAMETERS →
  Forall no_newline (render <$> G) →
  Forall no_newline (render <$> assembled today xp yp mode xc yc rf G).
Proof.
  intros Ht Hxp Hyp Hm Hxc Hyc Hr HG. unfold assembled.
  rewrite !fmap_app, !Forall_app. repeat split; [| | |exact HG|].
  - unfold head_items_of.
    repeat (apply Forall_cons; split;
            [first [reflexivity
                   | apply render_pair_no_newline; [reflexivity|];
                     first [reflexivity | by apply no_newline_app]]|]).
    constructor.
  - apply Forall_fmap, Forall_bind. unfold PARAMETERS in *.
    repeat match goal with
           | H : Forall _ (_ :: _) |- _ => apply Forall_cons in H as [[? ?] H]
           end.
    repeat (apply Forall_cons; split;
            [unfold compose, range_items_of;
             repeat (apply Forall_cons; split;
                     [apply render_pair_no_newline;
                      [reflexivity | by apply no_newline_app]|]);
             constructor|]).
    constructor.
  - by repeat constructor.
  - by repeat constructor.
Qed.

Lemma parameters_plain :
  Forall (λ p, strip p = p ∧ no_newline p) PARAMETERS.
Proof. repeat constructor. Qed.

Lemma NoDup_PARAMETERS : NoDup PARAMETERS.
Proof. apply (bool_decide_unpack _). vm_compute. exact I. Qed.

Lemma global_names_keys :
  Forall (λ k, forallb (λ nme, negb (str_eqb (strip ("   " +:+ nme)) k))
                 ("Title" :: PARAMETERS) = true) input_keys.
Proof. repeat constructor. Qed.

Lemma generate_values_parses (rg : gmap string range) (p : string) (n : Z)
  (vs : list string) :
  _generate_values rg p n = Ok vs →
  ∃ r x y, rg !! p = Some r ∧ float_of_str (start r) = Some x ∧
           float_of_str (end_ r) = Some y.
Proof.
  unfold _generate_values. destruct (rg !! p) as [r|]; [|done].
  destruct (float_of_str (start r)) as [x|] eqn:Hx,
           (float_of_str (end_ r)) as [y|] eqn:Hy; try done.
  intros _. by exists r, x, y.
Qed.

Lemma apply_ranges_silent (a : app) :
  (apply_ranges_try a).2 = Ok () →
  apply_ranges true true a = (applied a, (apply_ranges_try a).1.2).
Proof.
  intros H. unfold apply_ranges, applied. cbn [negb andb].
  destruct (apply_ranges_try a) as [[a' ds] r]. cbn in H. by subst r.
Qed.

Lemma cells_tabs_tab (split : bool) (xs ys : list string) (t : Z) (r c : nat) :
  (t, r, c) ∈ cells (tabs split xs ys) → t = 0 ∨ t = 1 ∨ t = 2.
Proof.
  unfold cells, tabs. destruct (split && negb (length xs <? 4)%nat);
    cbn [mbind list_bind tab_id tab_x tab_y]; rewrite ?app_nil_r, ?elem_of_app;
    unfold grid_keys; intros H.
  - destruct H as [H|H]; apply list_elem_of_bind in H as (r' & H & _);
      apply list_elem_of_bind in H as (c' & H & _); apply list_elem_of_singleton in H;
      injection H as -> _ _; tauto.
  - apply list_elem_of_bind in H as (r' & H & _);
      apply list_elem_of_bind in H as (c' & H & _); apply list_elem_of_singleton in H;
      injection H as -> _ _; tauto.
Qed.

(** The metadata an exported text carries, as the import reads it. *)
Lemma export_metadata (today : string) (e : app) :
  one_line_inputs today e = true →
  current_x_param e ∈ PARAMETERS → current_y_param e ∈ PARAMETERS →
  (global_entries e).*1 = "Title" :: PARAMETERS →
  let md := foldl absorb ∅ (meta_items today e) in
  Forall (λ p, is_Some (ranges e !! p)) PARAMETERS ∧
  forallb item_ok (meta_items today e) = true ∧
  Forall no_newline (render <$> meta_items today e) ∧
  md !! "X_Axis" = Some (current_x_param e) ∧
  md !! "Y_Axis" = Some (current_y_param e) ∧
  md !! "Mode" = Some (if str_eqb (qpulse_mode e) "Split" then "Split" else "Single") ∧
  md !! "X_counts" = Some (strip (x_counts_var e)) ∧
  md !! "Y_counts" = Some (strip (y_counts_var e)) ∧
  ∀ p r, p ∈ PARAMETERS → ranges e !! p = Some r →
         md !! (p +:+ "_start") = Some (strip (start r)) ∧
         md !! (p +:+ "_end") = Some (strip (end_ r)).
Proof.
  intros Hone Hxp Hyp Hnames md.
  unfold one_line_inputs in Hone. rewrite !andb_true_iff, !negb_true_iff in Hone.
  destruct Hone as [[[[Ht Hxc] Hyc] Hrg] Hgl].
  apply forallb_Forall in Hrg. apply forallb_Forall in Hgl.
  assert (Hsome : Forall (λ p, is_Some (ranges e !! p)) PARAMETERS).
  { eapply Forall_impl; [exact Hrg|]. intros p Hp. cbv beta in Hp.
    by destruct (ranges e !! p). }
  split; [exact Hsome|].
  assert (Hdn : (globals_dict e).*1 = "Title" :: PARAMETERS).
  { rewrite <- Hnames. unfold globals_dict. rewrite <- list_fmap_compose.
    by apply list_fmap_ext. }
  subst md. rewrite (meta_items_assembled today e Hsome).
  set (rf := λ p, default no_range (ranges e !! p)).
  set (G := global_item <$> globals_dict e).
  set (mode := if str_eqb (qpulse_mode e) "Split" then "Split" else "Single").
  assert (HGok : forallb item_ok G = true).
  { apply item_ok_globals. rewrite Hdn. reflexivity. }
  assert (HGget : ∀ k, k ∈ input_keys → meta_get k G = None).
  { intros k Hk. apply meta_get_globals. rewrite Hdn.
    pose proof global_names_keys as HF. rewrite Forall_forall in HF. by apply HF. }
  split; [by apply assembled_item_ok|].
  pose proof parameters_plain as Hpar. rewrite Forall_forall in Hpar.
  split.
  { apply assembled_no_newline; try done.
    - by apply Hpar.
    - by apply Hpar.
    - subst mode. by destruct (str_eqb _ _).
    - eapply Forall_impl; [exact Hrg|]. intros p Hp. cbv beta in Hp. subst rf. cbv beta.
      destruct (ranges e !! p) as [r|]; [|done]. cbn [default].
      apply andb_true_iff in Hp as [H1 H2]. by rewrite !negb_true_iff in H1, H2.
    - subst G. unfold globals_dict. rewrite <- !list_fmap_compose.
      apply Forall_fmap, Forall_forall. intros [nme en] Hin.
      assert (no_newline nme) as H1.
      { assert (Hn : Forall no_newline ("Title" :: PARAMETERS)) by repeat constructor.
        rewrite <- Hnames, Forall_forall in Hn. apply Hn.
        apply list_elem_of_fmap. by exists (nme, en). }
      rewrite Forall_forall in Hgl. specialize (Hgl _ Hin). cbn in Hgl.
      apply negb_true_iff in Hgl.
      apply render_pair_no_newline; by apply no_newline_app. }
  destruct (assembled_get today (current_x_param e) (current_y_param e) mode
              (x_counts_var e) (y_counts_var e) rf G HGget)
    as (Gx & Gy & Gm & Gxc & Gyc & Grg).
  cbv zeta in Gx, Gy, Gm, Gxc, Gyc, Grg.
  rewrite !foldl_absorb_lookup, Gx, Gy, Gm, Gxc, Gyc, !strip_space.
  split; [f_equal; by apply Hpar|]. split; [f_equal; by apply Hpar|].
  split; [subst mode; by destruct (str_eqb _ _)|].
  split; [done|]. split; [done|].
  intros p r Hp Hr. rewrite Forall_forall in Grg. destruct (Grg p Hp) as [Gs Ge].
  rewrite !foldl_absorb_lookup, Gs, Ge, !strip_space. subst rf. cbv beta.
  by rewrite Hr.
Qed.

(** The round trip for an exporter state whose sequences are the ones the
    generator gives for its ranges and counts. *)
Lemma export_import_in_sync (today : string) (e b : app) (rows : list (list string))
  (xc yc : Z) :
  current_x_param e ∈ PARAMETERS → current_y_param e ∈ PARAMETERS →
  current_x_param e ≠ current_y_param e →
  int_of_str (x_counts_var e) = Some xc →
  int_of_str (y_counts_var e) = Some yc →
  _generate_values (ranges e) (current_x_param e) (Z.max 2 xc)
    = Ok (current_values_x e) →
  _generate_values (ranges e) (current_y_param e) (Z.max 2 yc)
    = Ok (current_values_y e) →
  one_line_inputs today e = true →
  (global_entries e).*1 = "Title" :: PARAMETERS →
  is_Some (ranges b !! current_x_param e) →
  is_Some (ranges b !! current_y_param e) →
  NoDup (current_values_x e) → NoDup (current_values_y e) →
  notes e ≠ ∅ →
  map_Forall (λ k _, k ∈ cells (tabs (str_eqb (qpulse_mode e) "Split")
                                  (current_values_x e) (current_values_y e)))
             (notes e) →
  export_rows e = Ok rows →
  forallb row_ok rows = true →
  ∃ txt,
    export_to_csv true today e
      = Ok (Some txt,
            [showinfo "Success"
               ("Exported " +:+ str_of_int (Z.of_nat (length rows)) +:+
                " rows + metadata (pipe delimited)")]) ∧
    notes (load_from_csv (Some txt) b).1 = notes e.
Proof.
  intros Hxp Hyp Hne Hxc Hyc Hxs Hys Hone Hnames Hbx Hby Hndx Hndy Hnotes Hcells
    Hrows Hok.
  destruct (export_metadata today e Hone Hxp Hyp Hnames)
    as (Hsome & Hitems & Hnl & Mx & My & Mm & Mxc & Myc & Mrg).
  cbv zeta in Mx, My, Mm, Mxc, Myc, Mrg.
  set (md := foldl absorb ∅ (meta_items today e)) in *.
  set (txt := unlines (render <$> meta_items today e) +:+ records (header :: rows)).
  exists txt. split.
  { unfold export_to_csv. rewrite (bool_decide_eq_false_2 _ Hnotes). cbn [negb].
    rewrite Hrows. cbn [mbind result_bind]. by rewrite export_text_meta. }
  (* the rows *)
  apply forallb_Forall in Hok.
  assert (Hplain : Forall (Forall (λ f, plain f = true)) (header :: rows)).
  { constructor; [repeat constructor|].
    eapply Forall_impl; [exact Hok|]. intros row Hrow. unfold row_ok in Hrow.
    rewrite !andb_true_iff in Hrow. destruct Hrow as [[[[Hp _] _] _] _].
    by apply forallb_Forall. }
  assert (Hdata : forallb data_ok (csv_record "|" <$> header :: rows) = true).
  { rewrite fmap_cons. cbn [forallb]. apply andb_true_iff. split; [reflexivity|].
    apply forallb_Forall, Forall_fmap. eapply Forall_impl; [exact Hok|].
    intros row. apply data_ok_record. }
  pose proof (read_lines_export _ _ Hitems Hnl Hplain Hdata) as Hread.
  fold txt md in Hread.
  (* the restored inputs and the grid they give *)
  set (a0 := _update_global_field_states (restore_inputs md b)).
  destruct (generate_values_parses _ _ _ _ Hxs) as (rx & fx & gx & Hrx & Hfx & Hgx).
  destruct (generate_values_parses _ _ _ _ Hys) as (ry & fy & gy & Hry & Hfy & Hgy).
  destruct Hbx as [bx Hbx]. destruct Hby as [by_ Hby].
  destruct (Mrg _ _ Hxp Hrx) as [Mxs Mxe]. destruct (Mrg _ _ Hyp Hry) as [Mys Mye].
  assert (Ex : x_axis_var a0 = current_x_param e).
  { subst a0. cbn [x_axis_var _update_global_field_states set_global_entries
                   restore_inputs set_inputs]. by rewrite Mx. }
  assert (Ey : y_axis_var a0 = current_y_param e).
  { subst a0. cbn [y_axis_var _update_global_field_states set_global_entries
                   restore_inputs set_inputs]. by rewrite My. }
  assert (Exc : x_counts_var a0 = strip (x_counts_var e)).
  { subst a0. cbn [x_counts_var _update_global_field_states set_global_entries
                   restore_inputs set_inputs]. by rewrite Mxc. }
  assert (Eyc : y_counts_var a0 = strip (y_counts_var e)).
  { subst a0. cbn [y_counts_var _update_global_field_states set_global_entries
                   restore_inputs set_inputs]. by rewrite Myc. }
  assert (Em : str_eqb (qpulse_mode a0) "Split" = str_eqb (qpulse_mode e) "Split").
  { subst a0. cbn [qpulse_mode _update_global_field_states set_global_entries
                   restore_inputs set_inputs]. rewrite Mm.
    by destruct (str_eqb (qpulse_mode e) "Split"). }
  assert (Erx : ranges a0 !! current_x_param e
                = Some {| start := strip (start rx); end_ := strip (end_ rx) |}).
  { subst a0. cbn [ranges _update_global_field_states set_global_entries
                   restore_inputs set_inputs].
    rewrite (restore_ranges_lookup md PARAMETERS (ranges b) _ bx NoDup_PARAMETERS Hxp Hbx).
    by rewrite Mxs, Mxe. }
  assert (Ery : ranges a0 !! current_y_param e
                = Some {| start := strip (start ry); end_ := strip (end_ ry) |}).
  { subst a0. cbn [ranges _update_global_field_states set_global_entries
                   restore_inputs set_inputs].
    rewrite (restore_ranges_lookup md PARAMETERS (ranges b) _ by_ NoDup_PARAMETERS Hyp Hby).
    by rewrite Mys, Mye. }
  assert (Gx : _generate_values (ranges a0) (x_axis_var a0) (Z.max 2 xc)
               = Ok (current_values_x e)).
  { rewrite Ex, <- Hxs. eapply generate_values_ext; [exact Hrx | exact Erx | |]; cbn.
    - rewrite Hfx. by apply float_of_str_strip.
    - rewrite Hgx. by apply float_of_str_strip. }
  assert (Gy : _generate_values (ranges a0) (y_axis_var a0) (Z.max 2 yc)
               = Ok (current_values_y e)).
  { rewrite Ey, <- Hys. eapply generate_values_ext; [exact Hry | exact Ery | |]; cbn.
    - rewrite Hfy. by apply float_of_str_strip.
    - rewrite Hgy. by apply float_of_str_strip. }
  assert (Hap : (apply_ranges_try a0).2 = Ok ()).
  { apply (apply_ranges_try_succeeds a0 xc yc (current_values_x e) (current_values_y e)).
    - by rewrite Ex, Ey.
    - rewrite Exc. by apply int_of_str_strip.
    - rewrite Eyc. by apply int_of_str_strip.
    - exact Gx.
    - exact Gy. }
  destruct (applied_facts a0 Hap)
    as (xc' & yc' & _ & Hxc' & Hyc' & Gx' & Gy' & Fxp & Fyp & Fnb & Fb & Fn & _).
  rewrite Exc, (int_of_str_strip _ _ Hxc) in Hxc'. injection Hxc' as <-.
  rewrite Eyc, (int_of_str_strip _ _ Hyc) in Hyc'. injection Hyc' as <-.
  rewrite Gx in Gx'. injection Gx' as Fx. rewrite Gy in Gy'. injection Gy' as Fy.
  rewrite <- Fx, <- Fy, Em in Fnb. rewrite Ex in Fxp. rewrite Ey in Fyp.
  set (a1 := applied a0) in *.
  set (s := clear_all (_update_global_field_states (restore_globals md a1))).
  assert (Hload : load_from_csv (Some txt) b
                  = ((foldl load_row (s, 0)
                        ((λ rec, dict_row header rec ∅) <$> rows)).1,
                     (apply_ranges_try a0).1.2 ++
                     [showinfo "Load Complete"
                        ("Loaded " +:+
                         str_of_int (foldl load_row (s, 0)
                                       ((λ rec, dict_row header rec ∅) <$> rows)).2
                         +:+ " notes" +:+ nl +:+ "Metadata restored.")])).
  { apply (load_from_csv_stages txt b a1 md (csv_record "|" <$> header :: rows)).
    - exact Hread.
    - by rewrite Mx.
    - by apply apply_ranges_silent.
    - done.
    - apply csv_DictReader_records; [exact Hplain|].
      eapply Forall_impl; [exact Hok|]. intros row Hrow. unfold row_ok in Hrow.
      rewrite !andb_true_iff, Nat.leb_le in Hrow. destruct Hrow as [[[[_ Hl] _] _] _].
      intros ->. simpl in Hl. lia. }
  rewrite Hload. cbn [fst].
  (* every row is located at its cell *)
  apply mapM_Ok in Hrows.
  assert (Hloc : Forall2 (λ kn row, locate_row s row = Some kn) (sorted_notes e)
                   ((λ rec, dict_row header rec ∅) <$> rows)).
  { apply Forall2_fmap_r. apply Forall2_same_length_lookup.
    split; [by eapply Forall2_length|].
    intros i [[[t r] c] note] row Hkn Hrow.
    pose proof (Forall2_lookup_lr _ _ _ _ _ _ Hrows Hkn Hrow) as Hexp.
    cbv beta in Hexp.
    apply export_row_Ok in Hexp as (xv & yv & rest & Hx & Hy & -> & Hlen).
    assert (Hin : notes e !! (t, r, c) = Some note).
    { apply sorted_notes_elem, list_elem_of_lookup. by exists i. }
    pose proof (Hcells _ _ Hin) as Hcell. cbv beta in Hcell.
    assert (Hrok : row_ok (note :: str_of_int t :: current_x_param e :: xv
                             :: current_y_param e :: yv :: rest) = true).
    { rewrite Forall_forall in Hok. apply Hok, list_elem_of_lookup. by exists i. }
    unfold row_ok in Hrok. rewrite !andb_true_iff in Hrok.
    destruct Hrok as [[[[_ _] Hstrip] _] _]. cbn [hd] in Hstrip.
    apply str_eqb_eq in Hstrip.
    transitivity (Some ((t, r, c), strip note)); [|by rewrite Hstrip].
    rewrite <- Fxp, <- Fyp.
    apply (locate_row_exported s t r c note xv yv rest Hlen).
    - change (current_values_x s) with (current_values_x a1). by rewrite <- Fx.
    - change (current_values_y s) with (current_values_y a1). by rewrite <- Fy.
    - change (current_values_x s) with (current_values_x a1). by rewrite <- Fx.
    - change (current_values_y s) with (current_values_y a1). by rewrite <- Fy.
    - destruct (cells_tabs_tab _ _ _ _ _ _ Hcell) as [-> | [-> | ->]]; reflexivity.
    - change (buttons s) with (buttons a1). apply Fb. by rewrite Fnb. }
  rewrite (foldl_load_rows s (sorted_notes e) _ 0 Hloc). cbn [fst notes set_notes].
  assert (notes s = ∅) as -> by done.
  apply foldl_insert_to_list. unfold sorted_notes. apply merge_sort_Permutation.
Qed.

Lemma forallb_fmap {A B} (f : B → bool) (g : A → B) (l : list A) :
  forallb f (g <$> l) = forallb (λ x, f (g x)) l.
Proof. induction l as [|x l IH]; [done|]. cbn [fmap list_fmap forallb]. by rewrite <- IH. Qed.

Lemma one_line_inputs_ext (today : string) (e a : app) :
  ranges e = ranges a → x_counts_var e = x_counts_var a →
  y_counts_var e = y_counts_var a → globals_dict e = globals_dict a →
  one_line_inputs today e = one_line_inputs today a.
Proof.
  intros Hr Hx Hy Hg. unfold one_line_inputs. rewrite Hr, Hx, Hy. f_equal.
  transitivity (forallb (λ kv : string * string, negb (str_exists is_newline kv.2))
                  (globals_dict e)).
  - unfold globals_dict. by rewrite forallb_fmap.
  - rewrite Hg. unfold globals_dict. by rewrite forallb_fmap.
Qed.

Lemma globals_dict_names (a : app) : (globals_dict a).*1 = (global_entries a).*1.
Proof. unfold globals_dict. rewrite <- list_fmap_compose. by apply list_fmap_ext. Qed.

(** Export followed by import restores the annotations of a state that
    is in step with its inputs.  Let the value sequences of [e] be the ones
    the generator gives for its current axes, its typed ranges and its
    typed counts, with both axes among PARAMETERS and distinct, global
    entries named Title and the six parameters, and no repeated value in
    either sequence; let its notes be a non-empty map on the cells of the
    grid the mode gives for these sequences.  Let the texts of the metadata
    block hold no line break, and let every exported row consist of fields
    without CR, LF or NUL and within the field limit of the csv module,
    start with a note that is stripped and does not begin with [#], and end
    with a field without trailing white space.  Then [export_to_csv]
    writes a text and reports the number of rows, and [load_from_csv] of
    that text, into any model [b] that has a range for the two axis
    parameters, leaves exactly the notes of [e]: every note at its own
    (tab, row, col).  Cells are found by equality of the value strings. *)
Theorem export_import_round_trip (today : string) (e b : app) (rows : list (list string))
  (xc yc : Z) :
  current_x_param e ∈ PARAMETERS → current_y_param e ∈ PARAMETERS →
  current_x_param e ≠ current_y_param e →
  int_of_str (x_counts_var e) = Some xc →
  int_of_str (y_counts_var e) = Some yc →
  _generate_values (ranges e) (current_x_param e) (Z.max 2 xc)
    = Ok (current_values_x e) →
  _generate_values (ranges e) (current_y_param e) (Z.max 2 yc)
    = Ok (current_values_y e) →
  one_line_inputs today e = true →
  (global_entries e).*1 = "Title" :: PARAMETERS →
  is_Some (ranges b !! current_x_param e) →
  is_Some (ranges b !! current_y_param e) →
  NoDup (current_values_x e) → NoDup (current_values_y e) →
  notes e ≠ ∅ →
  map_Forall (λ k _, k ∈ cells (tabs (str_eqb (qpulse_mode e) "Split")
                                  (current_values_x e) (current_values_y e)))
             (notes e) →
  export_rows e = Ok rows →
  forallb row_ok rows = true →
  ∃ txt,
    export_to_csv true today e
      = Ok (Some txt,
            [showinfo "Success"
               ("Exported " +:+ str_of_int (Z.of_nat (length rows)) +:+
                " rows + metadata (pipe delimited)")]) ∧
    notes (load_from_csv (Some txt) b).1 = notes e.
Proof.
  intros Hxp Hyp. by apply export_import_in_sync.
Qed.

Lemma export_import_round_trip_witness :
  ∃ txt,
    export_to_csv true "2026-01-01" (set_notes gold_notes split_applied)
      = Ok (Some txt, [showinfo "Success" "Exported 1 rows + metadata (pipe delimited)"]) ∧
    notes (load_from_csv (Some txt) fresh).1 = {[ (1, 2%nat, 5%nat) := "gold" ]}.
Proof.
  apply (export_import_round_trip "2026-01-01" (set_notes gold_notes split_applied) fresh
           gold_rows 20 20).
  - apply (bool_decide_unpack _). vm_compute. exact I.
  - apply (bool_decide_unpack _). vm_compute. exact I.
  - apply (bool_decide_unpack _). vm_compute. exact I.
  - vm_compute. reflexivity.
  - vm_compute. reflexivity.
  - vm_compute. reflexivity.
  - vm_compute. reflexivity.
  - vm_compute. reflexivity.
  - vm_compute. reflexivity.
  - apply (bool_decide_unpack _). vm_compute. exact I.
  - apply (bool_decide_unpack _). vm_compute. exact I.
  - apply (bool_decide_unpack _). vm_compute. exact I.
  - apply (bool_decide_unpack _). vm_compute. exact I.
  - apply (bool_decide_unpack _). vm_compute. exact I.
  - apply (bool_decide_unpack _). vm_compute. exact I.
  - vm_compute. reflexivity.
  - vm_compute. reflexivity.
Defined.

End RoundTrip.

(** ** More operator sessions and files *)

Module MoreExamples.
Import Py V2 Examples.

(** The operator asked for the split view with three x values. *)
Definition narrow_split_request : app :=
  set_inputs "Q-Pulse" "Frequency" "Split" (ranges fresh) "3" "20" fresh.

(** The operator typed a count below two. *)
Definition one_count_request : app :=
  set_inputs "Q-Pulse" "Frequency" "Single" (ranges fresh) "1" "-5" fresh.

(** A note with a delimiter and a quote in it. *)
Definition quoted_note : string := "5" +:+ String dquote " spot|edge".

(** A header and a row that need quoting. *)
Definition quoted_table : list (list string) :=
  [["Note"; "Tab"]; [quoted_note; "0"]].

(** A hand-written file that holds metadata only: Speed becomes the x axis,
    and the file gives global values for Speed and Power. *)
Definition speed_file : string :=
  "# X_Axis: Speed" +:+ nl +:+ "#   Speed: 1234" +:+ nl +:+ "#   Power: 55" +:+ nl.

End MoreExamples.

(** ** The button table of a grid *)

Section GridFacts.
Import Py V2 Exchange Examples.

Lemma grid_keys_elem (t t' : Z) (ys xs : list string) (r c : nat) :
  (t', r, c) ∈ grid_keys t ys xs ↔ t' = t ∧ (r < length ys)%nat ∧ (c < length xs)%nat.
Proof.
  unfold grid_keys. rewrite list_elem_of_bind. split.
  - intros (r' & H & Hr). apply list_elem_of_bind in H as (c' & H & Hc).
    apply list_elem_of_singleton in H. injection H as -> -> ->.
    apply elem_of_seq in Hr, Hc. lia.
  - intros (-> & Hr & Hc). exists r. split; [|apply elem_of_seq; lia].
    apply list_elem_of_bind. exists c. split; [by apply list_elem_of_singleton|].
    apply elem_of_seq. lia.
Qed.

Lemma grid_keys_NoDup (t : Z) (ys xs : list string) : NoDup (grid_keys t ys xs).
Proof.
  unfold grid_keys. apply NoDup_bind; [| |apply NoDup_seq].
  - intros r1 r2 k _ _ H1 H2.
    apply list_elem_of_bind in H1 as (c1 & H1 & _).
    apply list_elem_of_bind in H2 as (c2 & H2 & _).
    apply list_elem_of_singleton in H1, H2. congruence.
  - intros r _. apply NoDup_bind; [| |apply NoDup_seq].
    + intros c1 c2 k _ _ H1 H2. apply list_elem_of_singleton in H1, H2. congruence.
    + intros c _. apply NoDup_singleton.
Qed.

Lemma length_bind_const {A B} (f : A → list B) (l : list A) (n : nat) :
  (∀ x, length (f x) = n) → length (l ≫= f) = (length l * n)%nat.
Proof.
  intros Hf. induction l as [|x l IH]; [done|].
  rewrite bind_cons, length_app, IH, Hf. simpl. lia.
Qed.

Lemma grid_keys_length (t : Z) (ys xs : list string) :
  length (grid_keys t ys xs) = (length ys * length xs)%nat.
Proof.
  unfold grid_keys.
  rewrite (length_bind_const _ _ (length xs)), length_seq; [done|].
  intros r. rewrite (length_bind_const _ _ 1%nat), length_seq; [lia|done].
Qed.

(** [_build_grid] registers one button for every pair of a row and a
    column of the tab, under the key (tab, row, col), keeps the buttons
    that were there, appends the tab to the notebook and touches no
    note. *)
Theorem build_grid_registers_cells (t : Z) (ys xs : list string) (a : app) :
  (∀ t' r c, (t', r, c) ∈ buttons (_build_grid t ys xs a) ↔
             (t' = t ∧ (r < length ys)%nat ∧ (c < length xs)%nat) ∨
             (t', r, c) ∈ buttons a) ∧
  NoDup (grid_keys t ys xs) ∧
  length (grid_keys t ys xs) = (length ys * length xs)%nat ∧
  notebook (_build_grid t ys xs a)
    = notebook a ++ [{| tab_id := t; tab_y := ys; tab_x := xs |}] ∧
  notes (_build_grid t ys xs a) = notes a.
Proof.
  split; [|split; [apply grid_keys_NoDup|split; [apply grid_keys_length|done]]].
  intros t' r c. cbn [_build_grid set_grid buttons].
  by rewrite elem_of_union, elem_of_list_to_set, grid_keys_elem.
Qed.

Lemma generate_values_length (rg : gmap string range) (p : string) (n : Z)
  (vs : list string) :
  _generate_values rg p n = Ok vs → length vs = Z.to_nat n.
Proof.
  unfold _generate_values. destruct (rg !! p) as [r|]; [|done].
  destruct (float_of_str (start r)) as [x|], (float_of_str (end_ r)) as [y|]; try done.
  destruct (feqb x y).
  - destruct (str_eqb p "Frequency"); intros [= <-]; apply length_replicate.
  - intros H. apply bind_Ok in H as (d & _ & H). apply bind_Ok in H as (st & _ & H).
    apply bind_Ok in H as (values & Hv & H).
    apply mapM_Ok_length in H, Hv. rewrite H, Hv. apply length_seqZ.
Qed.

End GridFacts.

(** ** What an apply does to the state *)

Section ApplyMore.
Import Py V2 Exchange Examples MoreExamples.

(** The inputs an operator can type into: axes, mode, ranges, counts. *)
Definition same_inputs (a a' : app) : Prop :=
  x_axis_var a' = x_axis_var a ∧ y_axis_var a' = y_axis_var a ∧
  qpulse_mode a' = qpulse_mode a ∧ ranges a' = ranges a ∧
  x_counts_var a' = x_counts_var a ∧ y_counts_var a' = y_counts_var a.

Lemma apply_ranges_try_buttons (a : app) : buttons a ⊆ buttons (applied a).
Proof.
  unfold applied, apply_ranges_try.
  destruct (str_eqb (x_axis_var a) (y_axis_var a)); [done|].
  destruct (int_of_str (x_counts_var a)) as [xc|]; [|done].
  destruct (int_of_str (y_counts_var a)) as [yc|]; [|done].
  destruct (_generate_values (ranges a) (x_axis_var a) (Z.max 2 xc)) as [xs|]; [|done].
  cbn [ranges set_current_values_x].
  destruct (_generate_values (ranges a) (y_axis_var a) (Z.max 2 yc)) as [ys|]; [|done].
  destruct (str_eqb _ "Split").
  - unfold _create_split_grids. cbv zeta.
    destruct (_ <? 4)%nat; cbn; intros k Hk; rewrite ?elem_of_union; tauto.
  - cbn. intros k Hk. rewrite elem_of_union. tauto.
Qed.

Lemma apply_ranges_buttons_notes (silent confirm : bool) (a : app) :
  buttons a ⊆ buttons (apply_ranges silent confirm a).1 ∧
  (notes (apply_ranges silent confirm a).1 = notes a ∨
   notes (apply_ranges silent confirm a).1 = ∅).
Proof.
  unfold apply_ranges. destruct (negb silent && negb confirm); [by split; [|left]|].
  pose proof (apply_ranges_try_buttons a) as Hb. unfold applied in Hb.
  assert (Hn : notes (apply_ranges_try a).1.1 = notes a ∨ notes (apply_ranges_try a).1.1 = ∅).
  { destruct ((apply_ranges_try a).2) as [[]|e] eqn:E.
    - right. apply (applied_facts a) in E as (? & ? & ? & ? & ? & ? & ? & ? & ? & ? & ? & Hn & _).
      exact Hn.
    - left. revert E. unfold apply_ranges_try.
      destruct (str_eqb (x_axis_var a) (y_axis_var a)); [done|].
      destruct (int_of_str (x_counts_var a)) as [xc|]; [|done].
      destruct (int_of_str (y_counts_var a)) as [yc|]; [|done].
      destruct (_generate_values (ranges a) (x_axis_var a) (Z.max 2 xc)) as [xs|]; [|done].
      cbn [ranges set_current_values_x].
      destruct (_generate_values (ranges a) (y_axis_var a) (Z.max 2 yc)) as [ys|]; [|done].
      by destruct (if str_eqb _ "Split" then _ else _). }
  destruct (apply_ranges_try a) as [[a' ds] r]. cbn [fst snd] in *.
  destruct r as [[]|[]]; done.
Qed.

(** Buttons are never removed: whatever apply does, every button that was
    registered before is registered after, and the notes are either the
    ones before or none. *)
Theorem apply_keeps_buttons (silent confirm : bool) (a : app) :
  buttons a ⊆ buttons (apply_ranges silent confirm a).1 ∧
  (notes (apply_ranges silent confirm a).1 = notes a ∨
   notes (apply_ranges silent confirm a).1 = ∅).
Proof. apply apply_ranges_buttons_notes. Qed.

(** An apply that ends with an exception, whichever it is, shows no grid
    message and leaves the notes, the buttons, the notebook, the current
    axis parameters, the y sequence and all inputs as they were; only the
    x sequence can have been replaced, by the one generated for the x
    axis. *)
Theorem apply_failure_frame (a : app) (e : exn) :
  (apply_ranges_try a).2 = Raise e →
  notes (applied a) = notes a ∧ buttons (applied a) = buttons a ∧
  notebook (applied a) = notebook a ∧
  current_values_y (applied a) = current_values_y a ∧
  current_x_param (applied a) = current_x_param a ∧
  current_y_param (applied a) = current_y_param a ∧
  global_entries (applied a) = global_entries a ∧
  same_inputs a (applied a) ∧
  (apply_ranges_try a).1.2 = [] ∧
  (current_values_x (applied a) = current_values_x a ∨
   ∃ xc, int_of_str (x_counts_var a) = Some xc ∧
         _generate_values (ranges a) (x_axis_var a) (Z.max 2 xc)
           = Ok (current_values_x (applied a))).
Proof.
  unfold applied, apply_ranges_try, same_inputs.
  destruct (str_eqb (x_axis_var a) (y_axis_var a));
    [intros _; repeat split; by left|].
  destruct (int_of_str (x_counts_var a)) as [xc|]; [|intros _; repeat split; by left].
  destruct (int_of_str (y_counts_var a)) as [yc|]; [|intros _; repeat split; by left].
  destruct (_generate_values (ranges a) (x_axis_var a) (Z.max 2 xc)) as [xs|] eqn:Hx;
    [|intros _; repeat split; by left].
  cbn [ranges set_current_values_x].
  destruct (_generate_values (ranges a) (y_axis_var a) (Z.max 2 yc)) as [ys|].
  - by destruct (if str_eqb _ "Split" then _ else _).
  - intros _. repeat split. right. by exists xc.
Qed.

Lemma apply_failure_frame_witness :
  notes (applied bad_y_range) = notes bad_y_range ∧
  buttons (applied bad_y_range) = buttons bad_y_range ∧
  notebook (applied bad_y_range) = notebook bad_y_range.
Proof.
  destruct (apply_failure_frame bad_y_range (invalid_range "Frequency"))
    as (Hn & Hb & Hnb & _).
  - vm_compute. reflexivity.
  - split; [exact Hn|]. split; [exact Hb | exact Hnb].
Defined.

(** A split view of fewer than four x values is shown as the single grid,
    tab 0 with all values, and the operator is warned. *)
Theorem split_too_few_values (a : app) :
  qpulse_mode a = "Split" →
  (apply_ranges_try a).2 = Ok () →
  (length (current_values_x (applied a)) < 4)%nat →
  notebook (applied a)
    = [ {| tab_id := 0; tab_y := current_values_y (applied a);
           tab_x := current_values_x (applied a) |} ] ∧
  (apply_ranges_try a).1.2
    = [showwarning "Split Grids" "Too few values to split. Using single grid."].
Proof.
  intros Hmode Hok Hlen.
  destruct (applied_facts a Hok) as (xc & yc & _ & _ & _ & _ & _ & _ & _ & Hnb & _).
  split.
  - rewrite Hnb, Hmode, str_eqb_refl. unfold tabs.
    apply Nat.ltb_lt in Hlen. by rewrite Hlen.
  - apply apply_ranges_try_proj in Hok. fold (applied a) in Hok.
    apply apply_ranges_try_Ok in Hok
      as (xc' & yc' & xs & ys & _ & _ & _ & _ & _ & a5 & Hg & Ha).
    rewrite Hmode, str_eqb_refl in Hg. unfold _create_split_grids in Hg. cbv zeta in Hg.
    change (current_values_x (regenerated a xs ys)) with xs in Hg.
    assert (current_values_x (applied a) = xs) as Hxs.
    { rewrite Ha. destruct (finished_fields a5) as (-> & _).
      destruct (length xs <? 4)%nat; by injection Hg as <- _. }
    rewrite Hxs in Hlen. apply Nat.ltb_lt in Hlen. rewrite Hlen in Hg.
    by injection Hg as _ <-.
Qed.

Lemma split_too_few_values_witness :
  notebook (applied narrow_split_request)
    = [ {| tab_id := 0; tab_y := current_values_y (applied narrow_split_request);
           tab_x := current_values_x (applied narrow_split_request) |} ].
Proof.
  apply (split_too_few_values narrow_split_request).
  - reflexivity.
  - vm_compute. reflexivity.
  - vm_compute. lia.
Defined.

(** The counts are raised to two: after a successful apply the x and y
    sequences have [max(2, count)] values each, so never fewer than two. *)
Theorem counts_at_least_two (a : app) (xc yc : Z) :
  (apply_ranges_try a).2 = Ok () →
  int_of_str (x_counts_var a) = Some xc →
  int_of_str (y_counts_var a) = Some yc →
  length (current_values_x (applied a)) = Z.to_nat (Z.max 2 xc) ∧
  length (current_values_y (applied a)) = Z.to_nat (Z.max 2 yc) ∧
  (2 <= length (current_values_x (applied a)))%nat ∧
  (2 <= length (current_values_y (applied a)))%nat.
Proof.
  intros Hok Hxc Hyc.
  destruct (applied_facts a Hok) as (xc' & yc' & _ & Hxc' & Hyc' & Gx & Gy & _).
  rewrite Hxc in Hxc'. injection Hxc' as <-. rewrite Hyc in Hyc'. injection Hyc' as <-.
  apply generate_values_length in Gx, Gy. lia.
Qed.

Lemma counts_at_least_two_witness :
  length (current_values_x (applied one_count_request)) = 2%nat ∧
  length (current_values_y (applied one_count_request)) = 2%nat.
Proof.
  destruct (counts_at_least_two one_count_request 1 (-5)) as (Hx & Hy & _).
  - vm_compute. reflexivity.
  - vm_compute. reflexivity.
  - vm_compute. reflexivity.
  - split; [exact Hx | exact Hy].
Defined.

End ApplyMore.

(** ** The rows of an export *)

Section ExportMore.
Import Py V2 Exchange Examples MoreExamples.

#[local] Instance key_le_total : Total key_le.
Proof.
  intros [[[t1 r1] c1] n1] [[[t2 r2] c2] n2]. unfold key_le.
  destruct (Z.lt_trichotomy t1 t2) as [?|[->|?]]; [by left; left| |by right; left].
  destruct (Nat.lt_trichotomy r1 r2) as [?|[->|?]];
    [left; right; split; [done|by left]| |right; right; split; [done|by left]].
  destruct (Nat.le_ge_cases c1 c2);
    [left|right]; right; (split; [done|]); right; (split; [done|]); done.
Qed.

#[local] Instance key_le_trans : Transitive key_le.
Proof.
  intros [[[t1 r1] c1] n1] [[[t2 r2] c2] n2] [[[t3 r3] c3] n3]. unfold key_le.
  intros H1 H2.
  destruct H1 as [H1|[-> H1]]; destruct H2 as [H2|[-> H2]];
    [left; lia | by left | by left |].
  right. split; [done|].
  destruct H1 as [H1|[-> H1]]; destruct H2 as [H2|[-> H2]];
    [left; lia | by left | by left |].
  right. split; [done|]. lia.
Qed.

(** [export_to_csv] writes one row per note, in ascending order of
    (tab, row, col); each row starts with the note and its tab. *)
Theorem export_rows_sorted (a : app) (rows : list (list string)) :
  export_rows a = Ok rows →
  length rows = size (notes a) ∧
  StronglySorted key_le (sorted_notes a) ∧
  sorted_notes a ≡ₚ map_to_list (notes a) ∧
  Forall2 (λ (kn : key * string) row,
             row !! 0%nat = Some kn.2 ∧ row !! 1%nat = Some (str_of_int kn.1.1.1) ∧
             length row = 13%nat)
          (sorted_notes a) rows.
Proof.
  intros Hrows. unfold export_rows in Hrows. apply mapM_Ok in Hrows.
  assert (Hperm : sorted_notes a ≡ₚ map_to_list (notes a)).
  { apply merge_sort_Permutation. }
  split; [|split; [|split; [exact Hperm|]]].
  - rewrite <- (Forall2_length _ _ _ Hrows), Hperm. apply length_map_to_list.
  - apply StronglySorted_merge_sort; apply _.
  - eapply Forall2_impl; [exact Hrows|]. intros [[[t r] c] note] row H.
    apply export_row_Ok in H as (xv & yv & rest & _ & _ & -> & Hlen).
    cbn. by rewrite Hlen.
Qed.

Lemma export_rows_sorted_witness :
  length split_noted_rows = size (notes split_noted).
Proof.
  destruct (export_rows_sorted split_noted split_noted_rows) as (H & _).
  - vm_compute. reflexivity.
  - exact H.
Defined.

(** The row loop of [export_to_csv] reads the value sequences at the row
    and the column of every note: it ends without an exception exactly when
    every noted cell lies inside both sequences, and the only exception it
    raises is IndexError. *)
Theorem export_rows_index_error (a : app) :
  match export_rows a with
  | Ok _ =>
      map_Forall (λ (k : key) _, (k.2 < length (current_values_x a))%nat ∧
                                 (k.1.2 < length (current_values_y a))%nat) (notes a)
  | Raise e =>
      e = IndexError ∧
      ∃ k note, notes a !! k = Some note ∧
                ((length (current_values_x a) <= k.2)%nat ∨
                 (length (current_values_y a) <= k.1.2)%nat)
  end.
Proof.
  destruct (export_rows a) as [rows|e] eqn:E.
  - intros [[t r] c] note Hk. cbn.
    destruct (export_rows_elem a rows _ _ E Hk) as (row & _ & Hrow).
    apply export_row_Ok in Hrow as (xv & yv & rest & Hx & Hy & _).
    apply lookup_lt_Some in Hx, Hy. done.
  - unfold export_rows in E.
    assert (Hex : ∃ kn, kn ∈ sorted_notes a ∧ export_row a kn = Raise e).
    { clear -E. induction (sorted_notes a) as [|kn l IH]; [done|].
      cbn [mapM] in E. destruct (export_row a kn) as [row|e'] eqn:Hkn.
      - cbn [mbind result_bind] in E. destruct (mapM (export_row a) l) as [rs|e'']; [done|].
        cbn in E. injection E as ->. destruct IH as (kn' & Hin & H); [done|].
        exists kn'. split; [by right | done].
      - cbn in E. injection E as ->. exists kn. split; [by left | done]. }
    destruct Hex as ([[[t r] c] note] & Hin & Hrow).
    apply sorted_notes_elem in Hin. unfold export_row in Hrow.
    destruct (current_values_x a !! c) as [xv|] eqn:Hx.
    + destruct (current_values_y a !! r) as [yv|] eqn:Hy; [done|].
      injection Hrow as <-. split; [done|]. exists (t, r, c), note. split; [done|].
      right. by apply lookup_ge_None.
    + injection Hrow as <-. split; [done|]. exists (t, r, c), note. split; [done|].
      left. by apply lookup_ge_None.
Qed.

End ExportMore.

(** ** Notes sit on buttons *)

Section StoreInvariant.
Import Py V2 Exchange Examples MoreExamples.

(** Every noted cell has a button. *)
Definition notes_on_buttons (a : app) : Prop := dom (notes a) ⊆ buttons a.

Lemma edit_note_on_buttons (k : key) (answer : option string) (a : app) :
  notes_on_buttons a → notes_on_buttons (edit_note k answer a) ∧
  buttons (edit_note k answer a) = buttons a.
Proof.
  unfold notes_on_buttons, edit_note. intros H.
  case_bool_decide as Hk; [|done]. destruct answer as [t|]; [|done].
  destruct (if (MAX_NOTE_LENGTH <? len (strip t))%nat then _ else _);
    cbn [notes buttons set_notes]; split; try done.
  - rewrite dom_delete. intros x Hx. apply H. by apply elem_of_difference in Hx as [Hx _].
  - rewrite dom_insert. intros x Hx. apply elem_of_union in Hx as [Hx|Hx]; [|by apply H].
    by apply elem_of_singleton in Hx as ->.
Qed.

Lemma empty_notes_on_buttons (a : app) : notes a = ∅ → notes_on_buttons a.
Proof.
  unfold notes_on_buttons. intros ->. rewrite dom_empty. intros x Hx.
  by apply elem_of_empty in Hx.
Qed.

Lemma apply_ranges_on_buttons (silent confirm : bool) (a : app) :
  notes_on_buttons a → notes_on_buttons (apply_ranges silent confirm a).1.
Proof.
  unfold notes_on_buttons. intros H.
  destruct (apply_ranges_buttons_notes silent confirm a) as [Hb [Hn | Hn]].
  - rewrite Hn. intros x Hx. by apply Hb, H.
  - by apply empty_notes_on_buttons.
Qed.

Lemma load_row_on_buttons (st : app * Z) (row : gmap string (option string)) :
  notes_on_buttons st.1 →
  notes_on_buttons (load_row st row).1 ∧ buttons (load_row st row).1 = buttons st.1.
Proof.
  unfold notes_on_buttons, load_row. intros H.
  destruct (locate_row st.1 row) as [[k note]|] eqn:E; [|done].
  apply locate_row_Some in E as (? & ? & ? & ? & ? & ? & ? & _ & _ & _ & _ & _ & _ & _ & _
                                 & _ & _ & Hk & _).
  cbn [fst notes buttons set_notes]. split; [|done]. rewrite dom_insert.
  intros k' Hk'. apply elem_of_union in Hk' as [Hk'|Hk']; [|by apply H].
  by apply elem_of_singleton in Hk' as ->.
Qed.

Lemma load_rows_on_buttons (rows : list (gmap string (option string))) (st : app * Z) :
  notes_on_buttons st.1 → notes_on_buttons (foldl load_row st rows).1.
Proof.
  revert st. induction rows as [|row rows IH]; intros st H; [done|].
  cbn [foldl]. apply IH. by apply load_row_on_buttons.
Qed.

Lemma load_from_csv_on_buttons (file : option string) (a : app) :
  notes_on_buttons a → notes_on_buttons (load_from_csv file a).1.
Proof.
  intros H. unfold load_from_csv. destruct file as [txt|]; [|done].
  destruct (read_lines (splitlines txt) ∅ []) as [md lines].
  match goal with |- context [apply_ranges true true ?x] => set (a0 := x) end.
  assert (H0 : notes_on_buttons a0).
  { subst a0. by destruct (_ || _). }
  pose proof (apply_ranges_on_buttons true true a0 H0) as H1.
  destruct (apply_ranges true true a0) as [a1 ds]. cbn [fst] in H1.
  set (a2 := _update_global_field_states (restore_globals md a1)).
  assert (H2 : notes_on_buttons a2) by done.
  destruct lines as [|l lines]; [done|].
  destruct (csv_DictReader "|" (l :: lines)) as [rows|e]; [|done].
  pose proof (load_rows_on_buttons rows (clear_all a2, 0)) as H3.
  destruct (foldl load_row (clear_all a2, 0) rows) as [a3 loaded]. cbn [fst] in *.
  apply H3. by apply empty_notes_on_buttons.
Qed.

(** Notes live on buttons only: if every noted cell has a button, the
    same holds after an edit, an apply, a clear and an import, and none of
    them removes a button. *)
Theorem notes_stay_on_buttons (a : app) :
  notes_on_buttons a →
  (∀ k answer, notes_on_buttons (edit_note k answer a)) ∧
  (∀ silent confirm, notes_on_buttons (apply_ranges silent confirm a).1) ∧
  notes_on_buttons (clear_all a) ∧
  (∀ file, notes_on_buttons (load_from_csv file a).1).
Proof.
  intros H. split; [|split; [|split]].
  - intros k answer. by apply edit_note_on_buttons.
  - intros silent confirm. by apply apply_ranges_on_buttons.
  - by apply empty_notes_on_buttons.
  - intros file. by apply load_from_csv_on_buttons.
Qed.

Lemma notes_stay_on_buttons_witness :
  notes_on_buttons (edit_note (2, 3%nat, 4%nat) (Some "deeper") split_noted).
Proof.
  destruct (notes_stay_on_buttons split_noted) as (H & _).
  - apply (bool_decide_unpack _). vm_compute. exact I.
  - apply H.
Defined.

(** Confirming the note dialog with the note it shows leaves the model as
    it is, when that note is stripped and within the length limit. *)
Theorem edit_note_reconfirm (k : key) (note : string) (a : app) :
  notes a !! k = Some note →
  strip note = note → (len note <= MAX_NOTE_LENGTH)%nat → note ≠ EmptyString →
  edit_note k (Some note) a = a.
Proof.
  intros Hk Hs Hlen Hne. unfold edit_note. destruct (bool_decide _); [|done].
  rewrite Hs. apply Nat.ltb_ge in Hlen. rewrite Hlen.
  destruct note as [|c s]; [done|]. rewrite insert_id by done. by destruct a.
Qed.

Lemma edit_note_reconfirm_witness :
  edit_note (2, 3%nat, 4%nat) (Some "deep") split_noted = split_noted.
Proof.
  apply edit_note_reconfirm.
  - vm_compute. reflexivity.
  - vm_compute. reflexivity.
  - vm_compute. lia.
  - discriminate.
Defined.

(** [_update_global_field_states] disables exactly the entries of the two
    axis parameters, never the title, changes no name and no text, and
    doing it twice is doing it once. *)
Theorem update_global_field_states_spec (a : app) :
  (global_entries (_update_global_field_states a)).*1 = (global_entries a).*1 ∧
  globals_dict (_update_global_field_states a) = globals_dict a ∧
  Forall (λ pe : string * entry,
            disabled pe.2 = true ↔
            pe.1 ≠ "Title" ∧ (pe.1 = x_axis_var a ∨ pe.1 = y_axis_var a))
         (global_entries (_update_global_field_states a)) ∧
  _update_global_field_states (_update_global_field_states a)
    = _update_global_field_states a ∧
  notes (_update_global_field_states a) = notes a ∧
  same_inputs a (_update_global_field_states a).
Proof.
  split; [|split; [|split; [|split; [|split]]]]; try done.
  - cbn. rewrite <- list_fmap_compose. by apply list_fmap_ext.
  - unfold globals_dict. cbn. rewrite <- list_fmap_compose. by apply list_fmap_ext.
  - cbn. apply Forall_fmap, Forall_forall. intros [nme e] _. cbn.
    rewrite andb_true_iff, negb_true_iff, orb_true_iff. unfold str_eqb.
    rewrite bool_decide_eq_false, !bool_decide_eq_true. done.
  - unfold _update_global_field_states. cbn. unfold set_global_entries. cbn. f_equal.
    rewrite <- list_fmap_compose. by apply list_fmap_ext.
Qed.

End StoreInvariant.

(** ** The lines of a file: data rows and metadata *)

Section WireMore.
Import Py V2 Exchange Examples MoreExamples.

(** The rows [csv.DictWriter] writes with the pipe delimiter are the rows
    [csv.DictReader] reads from the lines of the file: fields with a
    delimiter or a quote in them are quoted on the way out and unquoted on
    the way in.  It holds for fields without CR, LF or NUL within the field
    limit. *)
Theorem csv_rows_read_back (hdr : list string) (rows : list (list string)) :
  forallb (forallb plain) (hdr :: rows) = true →
  forallb (λ row, negb (bool_decide (row = []))) rows = true →
  Forall (λ row, csv_writerow "|" row
                 = csv_record "|" row +:+ String CR (String LF EmptyString))
         (hdr :: rows) ∧
  csv_DictReader "|" (csv_record "|" <$> hdr :: rows)
    = Ok ((λ rec, dict_row hdr rec ∅) <$> rows).
Proof.
  intros Hpl Hne. split.
  - apply Forall_forall. intros row _. apply csv_writerow_record.
  - apply csv_DictReader_records.
    + apply forallb_Forall in Hpl. eapply Forall_impl; [exact Hpl|].
      intros row. apply forallb_Forall.
    + apply forallb_Forall in Hne. eapply Forall_impl; [exact Hne|].
      intros row Hrow. cbv beta in Hrow. apply negb_true_iff, bool_decide_eq_false in Hrow.
      exact Hrow.
Qed.

Lemma csv_rows_read_back_witness :
  csv_DictReader "|" (csv_record "|" <$> quoted_table)
    = Ok [dict_row ["Note"; "Tab"] [quoted_note; "0"] ∅].
Proof.
  destruct (csv_rows_read_back ["Note"; "Tab"] [[quoted_note; "0"]]) as [_ H].
  - vm_compute. reflexivity.
  - vm_compute. reflexivity.
  - exact H.
Defined.

(** The import strips the counts and the range texts of the metadata
    before apply parses them; a text that [int] or [float] accepts is read
    as the same number after stripping. *)
Theorem numbers_survive_strip (count text : string) :
  is_Some (int_of_str count) → is_Some (float_of_str text) →
  int_of_str (strip count) = int_of_str count ∧
  float_of_str (strip text) = float_of_str text.
Proof.
  intros [v Hv] [x Hx]. split.
  - rewrite Hv. by apply int_of_str_strip.
  - rewrite Hx. by apply float_of_str_strip.
Qed.

Lemma numbers_survive_strip_witness :
  int_of_str (strip " 20 ") = int_of_str " 20 " ∧
  float_of_str (strip " 3800.0 ") = float_of_str " 3800.0 ".
Proof.
  apply numbers_survive_strip.
  - vm_compute. by eexists.
  - vm_compute. by eexists.
Defined.

Lemma read_lines_data_lines (lines : list string) (m : gmap string string)
  (d : list string) :
  (read_lines lines m d).2
    = d ++ filter (λ l, l ≠ EmptyString ∧ startswith_char "#" l = false)
                  (strip <$> lines).
Proof.
  revert m d. induction lines as [|line lines IH]; intros m d.
  - by rewrite app_nil_r.
  - cbn [read_lines]. rewrite fmap_cons.
    destruct (startswith_char "#" (strip line)) eqn:Hh.
    + rewrite filter_cons_False by (intros [_ H]; congruence).
      destruct (contains_char ":" (strip line)); cbn [andb].
      * destruct (split_once ":" (str_drop 1 (strip line))) as [k v]. apply IH.
      * rewrite andb_false_r. apply IH.
    + cbn [andb negb]. rewrite andb_true_r.
      destruct (str_eqb (strip line) EmptyString) eqn:He; cbn [negb].
      * apply str_eqb_eq in He. rewrite filter_cons_False by (intros [H _]; congruence).
        apply IH.
      * rewrite filter_cons_True.
        2:{ split; [|done]. intros E. rewrite E in He. by rewrite str_eqb_refl in He. }
        rewrite IH. by rewrite <- app_assoc.
Qed.

(** The lines [load_from_csv] hands to the csv reader are the lines of the
    file, stripped, that are not empty and do not start with [#], in their
    order: no line starting with [#] is ever read as a data row. *)
Theorem data_lines_are_the_uncommented_lines (txt : string) :
  (read_lines (splitlines txt) ∅ []).2
    = filter (λ l, l ≠ EmptyString ∧ startswith_char "#" l = false)
             (strip <$> splitlines txt).
Proof. apply read_lines_data_lines. Qed.

(** A metadata line [# key: value] enters the dictionary under the
    stripped key with the stripped value; the line is cut at the first
    colon, so the value may hold colons. *)
Theorem metadata_line_read (pre post : string) (rest : list string)
  (m : gmap string string) (d : list string) :
  contains_char ":" pre = false →
  read_lines (("#" +:+ pre +:+ ":" +:+ post) :: rest) m d
    = read_lines rest (<[strip pre := strip post]> m) d.
Proof. intros H. by apply (read_lines_pair pre post). Qed.

Lemma metadata_line_read_witness :
  read_lines ["#   Title: Steel: run 1 "] ∅ [] = ({[ "Title" := "Steel: run 1" ]}, []).
Proof.
  rewrite (metadata_line_read "   Title" " Steel: run 1 " [] ∅ []).
  - vm_compute. reflexivity.
  - vm_compute. reflexivity.
Defined.

End WireMore.

(** ** Notes that begin with a hash sign *)

Section HashNotes.
Import Py V2 Exchange Examples.

Lemma lost_row_record (row : list string) :
  lost_row row = true → startswith_char "#" (strip (csv_record "|" row)) = true.
Proof.
  unfold lost_row. rewrite !andb_true_iff, negb_true_iff.
  intros [[[_ Hlen] Hh] Hsp].
  destruct row as [|note [|f2 rest]]; [done|done|]. cbn [hd] in Hh, Hsp.
  destruct note as [|c note]; [done|]. cbn [startswith_char] in Hh.
  destruct (ascii_dec "#" c) as [<-|]; [|done].
  unfold csv_record. rewrite !fmap_cons.
  change (str_join "|" (csv_field "|" (String "#" note) :: csv_field "|" f2
                          :: (csv_field "|" <$> rest)))
    with (csv_field "|" (String "#" note) +:+ "|" +:+
          str_join "|" (csv_field "|" f2 :: (csv_field "|" <$> rest))).
  unfold csv_field at 1. fold (special "|"). rewrite Hsp.
  rewrite str_app_cons, strip_hash. reflexivity.
Qed.

Lemma filter_hash_lines (recs : list string) :
  Forall (λ l, startswith_char "#" (strip l) = true) recs →
  filter (λ l, l ≠ EmptyString ∧ startswith_char "#" l = false)
         (strip <$> (recs ≫= λ l, [l; EmptyString])) = [].
Proof.
  induction 1 as [|l recs Hl _ IH]; [done|].
  rewrite bind_cons. cbn [List.app]. rewrite !fmap_cons.
  rewrite filter_cons_False by (rewrite Hl; intros [_ ?]; done).
  rewrite filter_cons_False by (intros [? _]; done).
  exact IH.
Qed.

Lemma read_lines_hash_rows (items : list meta_item) (rows : list (list string)) :
  forallb item_ok items = true →
  Forall no_newline (render <$> items) →
  forallb lost_row rows = true →
  (read_lines (splitlines (unlines (render <$> items) +:+ records (header :: rows)))
     ∅ []).2 = [csv_record "|" header].
Proof.
  intros Hok Hnl Hrows. apply forallb_Forall in Hrows.
  assert (Hpl : Forall (Forall (λ f, plain f = true)) (header :: rows)).
  { constructor; [repeat constructor|].
    eapply Forall_impl; [exact Hrows|]. intros row Hrow. unfold lost_row in Hrow.
    rewrite !andb_true_iff in Hrow. destruct Hrow as [[[Hp _] _] _].
    by apply forallb_Forall. }
  unfold unlines, records.
  rewrite splitlines_unlines by done.
  rewrite splitlines_records.
  2:{ apply Forall_fmap. eapply Forall_impl; [exact Hpl|].
      intros row. apply csv_record_no_newline. }
  rewrite read_lines_items by done.
  rewrite read_lines_data_lines. rewrite fmap_cons, bind_cons. cbn [List.app].
  rewrite !fmap_cons.
  rewrite filter_cons_True by (split; [vm_compute; discriminate | vm_compute; reflexivity]).
  rewrite filter_cons_False by (intros [? _]; done).
  rewrite filter_hash_lines.
  - vm_compute. reflexivity.
  - apply Forall_fmap. eapply Forall_impl; [exact Hrows|]. intros row. apply lost_row_record.
Qed.

Lemma load_from_csv_header_only (txt : string) (b : app) :
  (read_lines (splitlines txt) ∅ []).2 = [csv_record "|" header] →
  notes (load_from_csv (Some txt) b).1 = ∅ ∧
  ∃ ds, (load_from_csv (Some txt) b).2
          = ds ++ [showinfo "Load Complete"
                     ("Loaded 0 notes" +:+ nl +:+ "Metadata restored.")].
Proof.
  intros Hd. unfold load_from_csv.
  destruct (read_lines (splitlines txt) ∅ []) as [md dl]. cbn [snd] in Hd. subst dl.
  cbv beta iota zeta.
  match goal with |- context [apply_ranges true true ?x] =>
    destruct (apply_ranges true true x) as [a1 ds] end.
  cbv beta iota zeta.
  assert (Hr : csv_DictReader "|" [csv_record "|" header] = Ok []).
  { apply (csv_DictReader_records header []); [|constructor].
    constructor; [repeat constructor | constructor]. }
  rewrite Hr. cbn [foldl fst snd]. split; [reflexivity|]. by exists ds.
Qed.

(** C1.  The round trip loses every note that begins with [#] and is
    written without quotes.  Let the texts of the metadata block of [e]
    hold no line break, its axes be among PARAMETERS and its global entries
    be named Title and the six parameters; let [e] hold notes, and let
    every row it exports consist of fields without CR, LF or NUL within the
    field limit and start with a note that begins with [#] and holds no
    delimiter, quote or line break.  Then [export_to_csv] writes a text
    and reports one row per note, and [load_from_csv] of that text, into
    any model, takes every row for a line of the metadata block: it ends
    with no note at all and reports that it loaded 0 notes. *)
Theorem C1_hash_notes_not_restored (today : string) (e b : app) (rows : list (list string)) :
  one_line_inputs today e = true →
  current_x_param e ∈ PARAMETERS → current_y_param e ∈ PARAMETERS →
  (global_entries e).*1 = "Title" :: PARAMETERS →
  notes e ≠ ∅ →
  export_rows e = Ok rows →
  forallb lost_row rows = true →
  ∃ txt,
    export_to_csv true today e
      = Ok (Some txt,
            [showinfo "Success"
               ("Exported " +:+ str_of_int (Z.of_nat (length rows)) +:+
                " rows + metadata (pipe delimited)")]) ∧
    length rows = size (notes e) ∧
    notes (load_from_csv (Some txt) b).1 = ∅ ∧
    ∃ ds, (load_from_csv (Some txt) b).2
            = ds ++ [showinfo "Load Complete"
                       ("Loaded 0 notes" +:+ nl +:+ "Metadata restored.")].
Proof.
  intros Hone Hxp Hyp Hnames Hnotes Hrows Hlost.
  destruct (export_metadata today e Hone Hxp Hyp Hnames) as (Hsome & Hitems & Hnl & _).
  exists (unlines (render <$> meta_items today e) +:+ records (header :: rows)).
  split.
  { unfold export_to_csv. rewrite (bool_decide_eq_false_2 _ Hnotes). cbn [negb].
    rewrite Hrows. cbn [mbind result_bind]. by rewrite export_text_meta. }
  split.
  { unfold export_rows in Hrows. apply mapM_Ok_length in Hrows. rewrite Hrows.
    unfold sorted_notes. rewrite merge_sort_Permutation.
    apply length_map_to_list. }
  apply load_from_csv_header_only. by apply read_lines_hash_rows.
Qed.

Lemma C1_hash_notes_witness :
  notes hash_noted = {[ (0, 0%nat, 0%nat) := "#1" ]} ∧
  ∃ txt,
    export_to_csv true "2026-01-01" hash_noted
      = Ok (Some txt, [showinfo "Success" "Exported 1 rows + metadata (pipe delimited)"]) ∧
    notes (load_from_csv (Some txt) fresh).1 = ∅.
Proof.
  split; [reflexivity|].
  destruct (C1_hash_notes_not_restored "2026-01-01" hash_noted fresh
              [["#1"; "0"; "Q-Pulse"; "150"; "Frequency"; "3800.0";
                "#1 (S:3000 P:20 F:3800 QP:150 LI:0.0250 Pass:10)"; "3000"; "20";
                "3800.0"; "0.0250"; "10"; "150"]])
    as (txt & Hexp & _ & Hn & _).
  - vm_compute. reflexivity.
  - apply (bool_decide_unpack _). vm_compute. exact I.
  - apply (bool_decide_unpack _). vm_compute. exact I.
  - vm_compute. reflexivity.
  - apply (bool_decide_unpack _). vm_compute. exact I.
  - vm_compute. reflexivity.
  - vm_compute. reflexivity.
  - exists txt. split; [exact Hexp | exact Hn].
Defined.

End HashNotes.

(** ** The inputs after an import *)

Section ImportMore.
Import Py V2 Exchange Examples MoreExamples.

Lemma same_inputs_refl (a : app) : same_inputs a a.
Proof. by repeat split. Qed.

Lemma same_inputs_trans (a b c : app) :
  same_inputs a b → same_inputs b c → same_inputs a c.
Proof.
  unfold same_inputs. intros (H1 & H2 & H3 & H4 & H5 & H6) (G1 & G2 & G3 & G4 & G5 & G6).
  repeat split; congruence.
Qed.

Lemma apply_ranges_try_same_inputs (a : app) :
  same_inputs a (applied a) ∧
  (global_entries (applied a) = global_entries a ∨
   global_entries (applied a) = global_entries (_update_global_field_states a)).
Proof.
  unfold applied, apply_ranges_try.
  destruct (str_eqb (x_axis_var a) (y_axis_var a)); [split; [apply same_inputs_refl|by left]|].
  destruct (int_of_str (x_counts_var a)) as [xc|];
    [|split; [apply same_inputs_refl|by left]].
  destruct (int_of_str (y_counts_var a)) as [yc|];
    [|split; [apply same_inputs_refl|by left]].
  destruct (_generate_values (ranges a) (x_axis_var a) (Z.max 2 xc)) as [xs|];
    [|split; [apply same_inputs_refl|by left]].
  cbn [ranges set_current_values_x].
  destruct (_generate_values (ranges a) (y_axis_var a) (Z.max 2 yc)) as [ys|];
    [|split; [by repeat split|by left]].
  destruct (str_eqb _ "Split").
  - unfold _create_split_grids. cbv zeta.
    destruct (_ <? 4)%nat; (split; [by repeat split|by right]).
  - split; [by repeat split|by right].
Qed.

Lemma apply_ranges_same_inputs (silent confirm : bool) (a : app) :
  same_inputs a (apply_ranges silent confirm a).1 ∧
  (global_entries (apply_ranges silent confirm a).1 = global_entries a ∨
   global_entries (apply_ranges silent confirm a).1
     = global_entries (_update_global_field_states a)).
Proof.
  unfold apply_ranges. destruct (negb silent && negb confirm);
    [split; [apply same_inputs_refl|by left]|].
  pose proof (apply_ranges_try_same_inputs a) as H. unfold applied in H.
  destruct (apply_ranges_try a) as [[a' ds] r]. cbn [fst snd] in *.
  destruct r as [[]|[]]; exact H.
Qed.

Lemma load_rows_frame (rows : list (gmap string (option string))) (st : app * Z) :
  same_inputs st.1 (foldl load_row st rows).1 ∧
  global_entries (foldl load_row st rows).1 = global_entries st.1.
Proof.
  revert st. induction rows as [|row rows IH]; intros st; [by repeat split|].
  cbn [foldl]. destruct (IH (load_row st row)) as [H1 H2].
  assert (same_inputs st.1 (load_row st row).1 ∧
          global_entries (load_row st row).1 = global_entries st.1) as [G1 G2].
  { unfold load_row. destruct (locate_row st.1 row) as [[k note]|]; by repeat split. }
  split; [by eapply same_inputs_trans | congruence].
Qed.

(** Whatever the chosen file holds, the import leaves the axes, the mode,
    the counts and the ranges as the metadata of the file sets them: they
    do not depend on the data rows, on a failure of the apply or on an error
    of the csv reader. *)
Theorem import_sets_inputs_from_metadata (txt : string) (b : app) :
  same_inputs (restore_inputs (read_lines (splitlines txt) ∅ []).1 b)
              (load_from_csv (Some txt) b).1.
Proof.
  unfold load_from_csv.
  destruct (read_lines (splitlines txt) ∅ []) as [md lines]. cbn [fst].
  match goal with |- context [apply_ranges true true ?x] => set (a0 := x) end.
  assert (H0 : same_inputs (restore_inputs md b) a0).
  { subst a0. by destruct (_ || _). }
  destruct (apply_ranges_same_inputs true true a0) as [H1 _].
  destruct (apply_ranges true true a0) as [a1 ds]. cbn [fst] in H1.
  set (a2 := _update_global_field_states (restore_globals md a1)).
  assert (H2 : same_inputs (restore_inputs md b) a2).
  { eapply same_inputs_trans; [exact H0|]. eapply same_inputs_trans; [exact H1|].
    by repeat split. }
  destruct lines as [|l lines]; [exact H2|].
  destruct (csv_DictReader "|" (l :: lines)) as [rows|e]; [|exact H2].
  destruct (load_rows_frame rows (clear_all a2, 0)) as [H3 _].
  destruct (foldl load_row (clear_all a2, 0) rows) as [a3 loaded]. cbn [fst] in *.
  eapply same_inputs_trans; [exact H2|]. exact H3.
Qed.

End ImportMore.

(** ** The global entries after an import *)

Section GlobalsMore.
Import Py V2 Exchange Examples MoreExamples.

(** The global entries after an import, from the entries before it, the
    restored axes and the metadata. *)
Definition imported_entry (md : gmap string string) (x y : string)
  (pe : string * entry) : string * entry :=
  let dis := negb (str_eqb pe.1 "Title") && (str_eqb pe.1 x || str_eqb pe.1 y) in
  (pe.1,
   {| text := if dis then text pe.2
              else match md !! pe.1 with
                   | Some v => if bool_decide (pe.1 ∈ PARAMETERS ++ ["Title"])
                               then v else text pe.2
                   | None => text pe.2
                   end;
      disabled := dis |}).

Lemma update_entries_of (a a' : app) :
  x_axis_var a' = x_axis_var a → y_axis_var a' = y_axis_var a →
  global_entries a' = global_entries a →
  global_entries (_update_global_field_states a')
    = global_entries (_update_global_field_states a).
Proof. intros Hx Hy He. cbn. by rewrite Hx, Hy, He. Qed.

Lemma update_entries_idem (a : app) :
  global_entries (_update_global_field_states (_update_global_field_states a))
    = global_entries (_update_global_field_states a).
Proof. cbn. rewrite <- list_fmap_compose. by apply list_fmap_ext. Qed.

(** The import writes the global parameters of the metadata into the
    entries that are not disabled: the entries of the two restored axis
    parameters keep their text, the title and the other parameters take the
    text of the file when the file has one.  The importing model has its
    entry states up to date. *)
Theorem import_skips_axis_globals (txt : string) (b : app) :
  global_entries (_update_global_field_states b) = global_entries b →
  global_entries (load_from_csv (Some txt) b).1
    = imported_entry (read_lines (splitlines txt) ∅ []).1
        (x_axis_var (load_from_csv (Some txt) b).1)
        (y_axis_var (load_from_csv (Some txt) b).1)
      <$> global_entries b.
Proof.
  intros Hsync.
  
  unfold load_from_csv in *.
  destruct (read_lines (splitlines txt) ∅ []) as [md lines]. cbn [fst] in *.
  set (ri := restore_inputs md b) in *.
  match goal with |- context [apply_ranges true true ?x] => set (a0 := x) in * end.
  assert (H0 : same_inputs ri a0 ∧
               global_entries a0 = global_entries (_update_global_field_states ri) ∧
               global_entries (_update_global_field_states a0)
                 = global_entries (_update_global_field_states ri)).
  { subst a0. destruct (_ || _) eqn:E.
    - split; [by repeat split|]. split; [done | apply update_entries_idem].
    - apply orb_false_iff in E as [E1 E2].
      apply bool_decide_eq_false in E1, E2.
      assert (md !! "X_Axis" = None) as Hx by (by destruct (md !! "X_Axis"); [destruct E1|]).
      assert (md !! "Y_Axis" = None) as Hy by (by destruct (md !! "Y_Axis"); [destruct E2|]).
      split; [apply same_inputs_refl|].
      assert (global_entries (_update_global_field_states ri) = global_entries ri) as ->.
      { transitivity (global_entries (_update_global_field_states b)); [|by rewrite Hsync].
        apply update_entries_of; subst ri; cbn; by rewrite ?Hx, ?Hy. }
      done. }
  destruct H0 as (S0 & E0 & E0').
  destruct (apply_ranges_same_inputs true true a0) as [S1 E1].
  destruct (apply_ranges true true a0) as [a1 ds]. cbn [fst] in S1, E1.
  assert (E1' : global_entries a1 = global_entries (_update_global_field_states ri)).
  { destruct E1 as [-> | ->]; done. }
  set (a2 := _update_global_field_states (restore_globals md a1)) in *.
  assert (Sx : x_axis_var a1 = x_axis_var ri ∧ y_axis_var a1 = y_axis_var ri).
  { destruct S0 as (Hx0 & Hy0 & _), S1 as (Hx1 & Hy1 & _). split; congruence. }
  destruct Sx as [Sx Sy].
  assert (H2 : global_entries a2
               = imported_entry md (x_axis_var ri) (y_axis_var ri) <$> global_entries b).
  { subst a2. cbn [global_entries _update_global_field_states set_global_entries
                   restore_globals x_axis_var y_axis_var].
    rewrite E1'. cbn [global_entries _update_global_field_states set_global_entries].
    change (global_entries ri) with (global_entries b).
    rewrite <- !list_fmap_compose. apply list_fmap_ext. intros _ [nme en] _.
    unfold compose, imported_entry. cbn [fst snd text disabled]. rewrite Sx, Sy.
    destruct (negb (str_eqb nme "Title") &&
              (str_eqb nme (x_axis_var ri) || str_eqb nme (y_axis_var ri))) eqn:Hd.
    - destruct (md !! nme); cbn [fst snd text disabled]; rewrite ?andb_false_r;
        cbn [fst snd text disabled]; by rewrite ?Hd.
    - destruct (md !! nme) as [v|]; cbn [fst snd text disabled]; rewrite ?andb_true_r.
      + destruct (bool_decide (nme ∈ PARAMETERS ++ ["Title"]));
          cbn [fst snd text disabled]; by rewrite Hd.
      + by rewrite Hd. }
  assert (Hfin : ∀ a3 : app,
            same_inputs a2 a3 → global_entries a3 = global_entries a2 →
            global_entries a3
              = imported_entry md (x_axis_var a3) (y_axis_var a3) <$> global_entries b).
  { intros a3 (Hx3 & Hy3 & _) He3. rewrite He3, H2, Hx3, Hy3.
    subst a2. cbn [x_axis_var y_axis_var _update_global_field_states set_global_entries
                   restore_globals]. by rewrite Sx, Sy. }
  destruct lines as [|l lines]; [apply Hfin; [apply same_inputs_refl | done]|].
  destruct (csv_DictReader "|" (l :: lines)) as [rows|e];
    [|apply Hfin; [apply same_inputs_refl | done]].
  destruct (load_rows_frame rows (clear_all a2, 0)) as [H3 H4].
  destruct (foldl load_row (clear_all a2, 0) rows) as [a3 loaded]. cbn [fst] in *.
  by apply Hfin.
Qed.

Lemma import_skips_axis_globals_witness :
  globals_dict (load_from_csv (Some speed_file) fresh).1
    = [("Title", "Laser Test - 2026-01-01"); ("Speed", "3000"); ("Power", "55");
       ("Frequency", "1000"); ("Line Interval", "0.0250"); ("Passes", "10");
       ("Q-Pulse", "200")].
Proof.
  unfold globals_dict. rewrite (import_skips_axis_globals speed_file fresh).
  - vm_compute. reflexivity.
  - vm_compute. reflexivity.
Defined.

End GlobalsMore.

(** ** The metadata block read back *)

Section MetadataMore.
Import Py V2 Exchange Examples MoreExamples.

Lemma meta_get_globals_in (d : list (string * string)) (nme v : string) :
  NoDup d.*1 → Forall (λ n, strip ("   " +:+ n) = n) d.*1 →
  (nme, v) ∈ d →
  meta_get nme (global_item <$> d) = Some (strip v).
Proof.
  induction d as [|[n0 v0] d IH]; intros Hnd Hs Hin; [by apply elem_of_nil in Hin|].
  rewrite fmap_cons in Hnd, Hs. cbn [fst] in Hnd, Hs.
  apply NoDup_cons in Hnd as [Hn0 Hnd]. apply Forall_cons in Hs as [Hs0 Hs].
  rewrite fmap_cons. cbn [meta_get global_item fst snd].
  apply elem_of_cons in Hin as [[= -> ->]|Hin].
  - rewrite meta_get_globals.
    + by rewrite Hs0, str_eqb_refl, strip_space.
    + apply forallb_Forall, Forall_forall. intros n Hn. apply negb_true_iff, str_eqb_neq.
      rewrite Forall_forall in Hs. rewrite (Hs n Hn). by intros ->.
  - by rewrite IH.
Qed.

Lemma title_parameters_stripped :
  NoDup ("Title" :: PARAMETERS) ∧
  Forall (λ n, strip ("   " +:+ n) = n) ("Title" :: PARAMETERS).
Proof. split; [apply (bool_decide_unpack _); vm_compute; exact I | repeat constructor]. Qed.

(** The metadata block of an exported file reads back as the exporter's
    axes, mode, counts, ranges and global parameters, each stripped, and the
    lines left for the csv reader are the header and the rows.  It holds
    for a state with a note to export, metadata texts without a line break,
    axes among PARAMETERS, global entries named Title and the six
    parameters, and exported rows that consist of fields without CR, LF or
    NUL within the field limit, start with a note that is stripped and does
    not begin with [#], and end with a field without trailing white space:
    a row that begins with [#] would be read as a line of the block. *)
Theorem exported_metadata_read_back
  (today : string) (e : app) (rows : list (list string)) :
  notes e ≠ ∅ →
  one_line_inputs today e = true →
  current_x_param e ∈ PARAMETERS → current_y_param e ∈ PARAMETERS →
  (global_entries e).*1 = "Title" :: PARAMETERS →
  export_rows e = Ok rows →
  forallb row_ok rows = true →
  ∃ txt md ds,
    export_to_csv true today e = Ok (Some txt, ds) ∧
    read_lines (splitlines txt) ∅ [] = (md, csv_record "|" <$> header :: rows) ∧
    md !! "X_Axis" = Some (current_x_param e) ∧
    md !! "Y_Axis" = Some (current_y_param e) ∧
    md !! "Mode" = Some (if str_eqb (qpulse_mode e) "Split" then "Split" else "Single") ∧
    md !! "X_counts" = Some (strip (x_counts_var e)) ∧
    md !! "Y_counts" = Some (strip (y_counts_var e)) ∧
    (∀ p r, p ∈ PARAMETERS → ranges e !! p = Some r →
            md !! (p +:+ "_start") = Some (strip (start r)) ∧
            md !! (p +:+ "_end") = Some (strip (end_ r))) ∧
    (∀ nme v, (nme, v) ∈ globals_dict e → md !! nme = Some v).
Proof.
  intros Hnotes Hone Hxp Hyp Hnames Hrows Hok.
  destruct (export_metadata today e Hone Hxp Hyp Hnames)
    as (Hsome & Hitems & Hnl & Mx & My & Mm & Mxc & Myc & Mrg).
  cbv zeta in Mx, My, Mm, Mxc, Myc, Mrg.
  apply forallb_Forall in Hok.
  assert (Hplain : Forall (Forall (λ f, plain f = true)) (header :: rows)).
  { constructor; [repeat constructor|].
    eapply Forall_impl; [exact Hok|]. intros row Hrow. unfold row_ok in Hrow.
    rewrite !andb_true_iff in Hrow. destruct Hrow as [[[[Hp _] _] _] _].
    by apply forallb_Forall. }
  assert (Hdata : forallb data_ok (csv_record "|" <$> header :: rows) = true).
  { rewrite fmap_cons. cbn [forallb]. apply andb_true_iff. split; [reflexivity|].
    apply forallb_Forall, Forall_fmap. eapply Forall_impl; [exact Hok|].
    intros row. apply data_ok_record. }
  eexists _, (foldl absorb ∅ (meta_items today e)), _. split.
  { unfold export_to_csv. rewrite (bool_decide_eq_false_2 _ Hnotes). cbn [negb].
    rewrite Hrows. cbn [mbind result_bind]. by rewrite export_text_meta. }
  split; [by apply read_lines_export|].
  repeat (split; [assumption|]).
  intros nme v Hin. rewrite foldl_absorb_lookup.
  rewrite (meta_items_assembled today e Hsome). unfold assembled.
  destruct title_parameters_stripped as [Hnd Hst].
  rewrite <- Hnames, <- globals_dict_names in Hnd, Hst.
  rewrite meta_get_app, (meta_get_app nme (global_item <$> globals_dict e)).
  cbn [meta_get]. rewrite (meta_get_globals_in _ nme v Hnd Hst Hin).
  f_equal. unfold globals_dict in Hin. apply list_elem_of_fmap in Hin as ([n en] & [= -> ->] & _).
  apply strip_idem.
Qed.

Lemma exported_metadata_read_back_witness :
  ∃ txt md ds,
    export_to_csv true "2026-01-01" (set_notes gold_notes split_applied)
      = Ok (Some txt, ds) ∧
    read_lines (splitlines txt) ∅ [] = (md, csv_record "|" <$> header :: gold_rows) ∧
    md !! "X_Axis" = Some "Q-Pulse" ∧ md !! "Mode" = Some "Split".
Proof.
  destruct (exported_metadata_read_back "2026-01-01"
              (set_notes gold_notes split_applied) gold_rows)
    as (txt & md & ds & He & Hr & Hx & _ & Hm & _).
  - apply (bool_decide_unpack _). vm_compute. exact I.
  - vm_compute. reflexivity.
  - apply (bool_decide_unpack _). vm_compute. exact I.
  - apply (bool_decide_unpack _). vm_compute. exact I.
  - vm_compute. reflexivity.
  - vm_compute. reflexivity.
  - vm_compute. reflexivity.
  - exists txt, md, ds. split; [exact He|]. split; [exact Hr|]. split; [exact Hx | exact Hm].
Defined.

End MetadataMore.

(** ** v1: the Q-pulse columns *)

Section V1More.
Import Py V1.

Lemma py_range_length (start stop step : Z) :
  0 < step → length (py_range start stop step) = Z.to_nat ((stop - start + step - 1) / step).
Proof. intros _. unfold py_range. by rewrite length_fmap, length_seqZ. Qed.

Lemma py_range_elem (start stop step v : Z) :
  0 < step →
  v ∈ py_range start stop step ↔
  ∃ i, 0 <= i ∧ start + i * step < stop ∧ v = start + i * step.
Proof.
  intros Hs. unfold py_range. rewrite list_elem_of_fmap. split.
  - intros (i & -> & Hi). apply elem_of_seqZ in Hi. exists i. split; [lia|]. split; [|done].
    assert (i <= (stop - start + step - 1) / step - 1) as Hle by lia.
    assert (step * ((stop - start + step - 1) / step) <= stop - start + step - 1)
      by (apply Z.mul_div_le; lia).
    nia.
  - intros (i & Hi & Hlt & ->). exists i. split; [done|]. apply elem_of_seqZ.
    split; [lia|]. rewrite Z.add_0_l.
    assert (i + 1 <= (stop - start + step - 1) / step)
      by (apply Z.div_le_lower_bound; [done | nia]).
    lia.
Qed.

Lemma py_range_NoDup (start stop step : Z) : 0 < step → NoDup (py_range start stop step).
Proof.
  intros Hs. unfold py_range. apply NoDup_fmap_2; [|apply NoDup_seqZ].
  intros i j H. nia.
Qed.

(** The Q-pulse columns of a v1 grid: [range(start, end + 1, step)] with
    [step = max(1, (end - start) // 19)].  There is no column when the end
    is below the start; otherwise the first column is the start, every
    column lies between start and end, no value is repeated, and a span of
    at least 19 gives between 20 and 38 columns. *)
Theorem v1_qpulse_columns (q_start q_end : Z) :
  let step := Z.max 1 ((q_end - q_start) / (num_steps - 1)) in
  let columns := py_range q_start (q_end + 1) step in
  NoDup columns ∧
  Forall (λ v, q_start <= v <= q_end) columns ∧
  length columns = Z.to_nat ((q_end - q_start) / step + 1) ∧
  (q_end < q_start ↔ columns = []) ∧
  (q_start <= q_end → columns !! 0%nat = Some q_start) ∧
  (19 <= q_end - q_start → (20 <= length columns <= 38)%nat).
Proof.
  intros step columns. unfold num_steps in step.
  assert (Hstep : 0 < step) by (subst step; lia).
  assert (Hdef : step = Z.max 1 ((q_end - q_start) / 19)) by done.
  clearbody step.
  assert (Hlen : length columns = Z.to_nat ((q_end - q_start) / step + 1)).
  { subst columns. rewrite py_range_length by done. f_equal.
    replace (q_end + 1 - q_start + step - 1) with ((q_end - q_start) + 1 * step) by lia.
    rewrite Z.div_add by lia. done. }
  split; [by apply py_range_NoDup|]. split; [|split; [exact Hlen|split; [|split]]].
  - apply Forall_forall. intros v Hv. apply py_range_elem in Hv as (i & Hi & Hlt & ->); [|done].
    nia.
  - split.
    + intros Hneg. apply length_zero_iff_nil. rewrite Hlen.
      assert ((q_end - q_start) / step < 0) by (apply Z.div_lt_upper_bound; nia). lia.
    + intros Hnil. rewrite Hnil in Hlen. simpl in Hlen.
      destruct (Z.lt_ge_cases q_end q_start) as [|Hge]; [done|].
      assert (0 <= (q_end - q_start) / step) by (apply Z.div_pos; lia). lia.
  - intros Hle. subst columns. unfold py_range. rewrite list_lookup_fmap.
    rewrite lookup_seqZ_lt.
    + cbn. f_equal. lia.
    + replace (q_end + 1 - q_start + step - 1) with ((q_end - q_start) + 1 * step) by lia.
      rewrite Z.div_add by lia.
      assert (0 <= (q_end - q_start) / step) by (apply Z.div_pos; lia). lia.
  - intros Hspan. rewrite Hlen.
    set (d := q_end - q_start) in *.
    assert (Hk : 1 <= d / 19) by (apply Z.div_le_lower_bound; lia).
    assert (step = d / 19) as -> by lia.
    pose proof (Z.div_mod d 19 ltac:(lia)) as Hdm.
    pose proof (Z.mod_pos_bound d 19 ltac:(lia)) as Hm.
    set (k := d / 19) in *. set (j := d mod 19) in *.
    assert (19 <= d / k) by (apply Z.div_le_lower_bound; nia).
    assert (d / k < 38) by (apply Z.div_lt_upper_bound; nia).
    lia.
Qed.

End V1More.

(** ** v1: apply and the restore loop *)

Section V1Apply.
Import Py V1.

Lemma V1_grid_keys_elem {A B} (t t' : Z) (ys : list A) (xs : list B) (r c : nat) :
  (t', r, c) ∈ V1.grid_keys t ys xs ↔ t' = t ∧ (r < length ys)%nat ∧ (c < length xs)%nat.
Proof.
  unfold V1.grid_keys. rewrite list_elem_of_bind. split.
  - intros (r' & H & Hr). apply list_elem_of_bind in H as (c' & H & Hc).
    apply list_elem_of_singleton in H. injection H as -> -> ->.
    apply elem_of_seq in Hr, Hc. lia.
  - intros (-> & Hr & Hc). exists r. split; [|apply elem_of_seq; lia].
    apply list_elem_of_bind. exists c. split; [by apply list_elem_of_singleton|].
    apply elem_of_seq. lia.
Qed.

Lemma V1_compute_sequences_Ok (a : V1.app) (fs fe : float) (q1s q1e q2s q2e : Z) :
  float_of_str (V1.freq_start_var a) = Some fs →
  float_of_str (V1.freq_end_var a) = Some fe →
  int_of_str (V1.q1_start_var a) = Some q1s → int_of_str (V1.q1_end_var a) = Some q1e →
  int_of_str (V1.q2_start_var a) = Some q2s → int_of_str (V1.q2_end_var a) = Some q2e →
  ∃ labels,
    V1.compute_sequences a
      = Ok (labels,
            V1.py_range q1s (q1e + 1) (Z.max 1 ((q1e - q1s) / (V1.num_steps - 1))),
            V1.py_range q2s (q2e + 1) (Z.max 1 ((q2e - q2s) / (V1.num_steps - 1)))) ∧
    length labels = 20%nat.
Proof.
  intros Hfs Hfe H1s H1e H2s H2e.
  unfold V1.compute_sequences, V1.parse_float, V1.parse_int.
  rewrite Hfs, Hfe, H1s, H1e, H2s, H2e. cbn [mbind result_bind].
  destruct (float_of_int_int_float (V1.num_steps - 1)) as (Ed & _ & Hd); [done|].
  destruct Hd as (m & ex & Em); [done|].
  rewrite Ed. cbn [mbind result_bind]. rewrite Em. cbn [truediv mbind result_bind].
  rewrite <- Em.
  set (step := fdiv (fsub fs fe) _).
  rewrite (mapM_fmap_Ok _ (λ i, format_fixed 1 (fsub fs (fmul (int_float i) step)))).
  - cbn [mbind result_bind mret result_ret]. eexists. split; [reflexivity|].
    by rewrite length_fmap, length_seqZ.
  - intros i Hi. apply elem_of_seqZ in Hi. unfold V1.num_steps in Hi.
    destruct (float_of_int_int_float i) as (Ei & _); [lia|]. by rewrite Ei.
Qed.

(** v1: an apply that is not declined, on six range fields that are
    numbers.  It leaves twenty frequency rows and the two Q-pulse ranges,
    and the button table holds what it held before together with the cells
    of the two new grids: the buttons of the destroyed tabs are never taken
    out of it.  When every note that has a button sits on a cell of the new
    grids, nothing escapes, the notes are cleared and the success message
    is shown unless the apply is silent.  When some note sits on a button
    whose cell is not rebuilt, configuring that destroyed button raises a
    TclError that escapes the method: the notes stay as they were and no
    message is shown. *)
Theorem v1_apply_builds_both_grids (a : V1.app) (silent confirm : bool)
  (fs fe : float) (q1s q1e q2s q2e : Z) :
  negb silent && negb confirm = false →
  float_of_str (V1.freq_start_var a) = Some fs →
  float_of_str (V1.freq_end_var a) = Some fe →
  int_of_str (V1.q1_start_var a) = Some q1s → int_of_str (V1.q1_end_var a) = Some q1e →
  int_of_str (V1.q2_start_var a) = Some q2s → int_of_str (V1.q2_end_var a) = Some q2e →
  let run := V1.apply_ranges_run silent confirm a in
  let a' := run.1.1 in
  let q1 := V1.py_range q1s (q1e + 1) (Z.max 1 ((q1e - q1s) / 19)) in
  let q2 := V1.py_range q2s (q2e + 1) (Z.max 1 ((q2e - q2s) / 19)) in
  let rebuilt (k : V1.key) :=
    (k.1.1 = 1 ∧ (k.1.2 < 20)%nat ∧ (k.2 < length q1)%nat) ∨
    (k.1.1 = 2 ∧ (k.1.2 < 20)%nat ∧ (k.2 < length q2)%nat) in
  V1.apply_ranges silent confirm a = run.1 ∧
  length (V1.current_freq_labels a') = 20%nat ∧
  V1.current_qpulse1 a' = q1 ∧ V1.current_qpulse2 a' = q2 ∧
  (∀ k, k ∈ V1.buttons a' ↔ k ∈ V1.buttons a ∨ rebuilt k) ∧
  ((∀ k, k ∈ dom (V1.notes a) → k ∈ V1.buttons a → rebuilt k) →
   run.2 = None ∧ V1.notes a' = ∅ ∧
   run.1.2 = (if silent then [] else [V1.showinfo "Success" "Ranges applied."])) ∧
  (∀ k, k ∈ dom (V1.notes a) → k ∈ V1.buttons a → ¬ rebuilt k →
   run.2 = Some V1.TclError ∧ V1.notes a' = V1.notes a ∧ run.1.2 = []).
Proof.
  intros Hgo Hfs Hfe H1s H1e H2s H2e run a' q1 q2 rebuilt.
  destruct (V1_compute_sequences_Ok a fs fe q1s q1e q2s q2e) as (labels & E & Hlen);
    try done.
  change (V1.num_steps - 1) with 19 in E. fold q1 q2 in E.
  assert (Hkeys : ∀ k : V1.key,
            k ∈ V1.grid_keys 1 labels q1 ++ V1.grid_keys 2 labels q2 ↔ rebuilt k).
  { intros [[t r] c]. rewrite elem_of_app, !V1_grid_keys_elem, Hlen. subst rebuilt.
    cbn [fst snd]. tauto. }
  split; [reflexivity|].
  subst a' run. unfold V1.apply_ranges_run. rewrite Hgo, E.
  cbv zeta. unfold V1.clear_all.
  cbn [V1.create_grid V1.set_sequences V1.set_buttons V1.notes V1.buttons
       V1.current_freq_labels V1.current_qpulse1 V1.current_qpulse2].
  match goal with |- context [bool_decide ?P] => destruct (bool_decide P) eqn:Hd end.
  - apply bool_decide_eq_true in Hd.
    cbn [fst snd V1.set_notes V1.notes V1.buttons V1.current_freq_labels
         V1.current_qpulse1 V1.current_qpulse2].
    split; [done|]. split; [done|]. split; [done|]. split.
    { intros k. unfold V1.create_grid.
      cbn [V1.set_sequences V1.set_buttons V1.buttons].
      rewrite !elem_of_union, !elem_of_list_to_set.
      rewrite <- Hkeys, elem_of_app. tauto. }
    split; [done|].
    intros k Hk Hb Hnot. exfalso. apply Hnot. apply Hkeys.
    assert (Hin : k ∈ dom (V1.notes a)
                      ∩ (list_to_set (V1.grid_keys 2 labels q2)
                         ∪ (list_to_set (V1.grid_keys 1 labels q1) ∪ V1.buttons a))).
    { apply elem_of_intersection. split; [done|]. rewrite !elem_of_union. tauto. }
    apply Hd in Hin. by apply elem_of_list_to_set in Hin.
  - apply bool_decide_eq_false in Hd.
    cbn [fst snd V1.set_notes V1.notes V1.buttons V1.current_freq_labels
         V1.current_qpulse1 V1.current_qpulse2].
    split; [done|]. split; [done|]. split; [done|]. split.
    { intros k. unfold V1.create_grid.
      cbn [V1.set_sequences V1.set_buttons V1.buttons].
      rewrite !elem_of_union, !elem_of_list_to_set.
      rewrite <- Hkeys, elem_of_app. tauto. }
    split; [|done].
    intros Hall. exfalso. apply Hd. intros k Hk.
    apply elem_of_intersection in Hk as [Hk Hb].
    apply (elem_of_list_to_set (C:=gset V1.key)).
    rewrite !elem_of_union, !elem_of_list_to_set in Hb.
    destruct Hb as [Hb | [Hb | Hb]].
    + apply elem_of_app. by right.
    + apply elem_of_app. by left.
    + apply Hkeys. by apply Hall.
Qed.

Lemma v1_apply_builds_both_grids_witness :
  let a := V1.set_notes {[ (1, 0%nat, 3%nat) := "gold" ]}
             (V1.set_range_vars "1000" "50.5" "1" "39" "7" "5" V1.__init__) in
  let b := V1.set_notes {[ (1, 0%nat, 19%nat) := "gold" ]}
             (V1.set_range_vars "1000" "50.5" "1" "5" "7" "5" V1.__init__) in
  (V1.apply_ranges_run true false a).2 = None ∧
  V1.notes (V1.apply_ranges_run true false a).1.1 = ∅ ∧
  length (V1.current_qpulse1 (V1.apply_ranges_run true false a).1.1) = 20%nat ∧
  (1, 0%nat, 19%nat) ∈ V1.buttons b ∧
  (V1.apply_ranges_run true false b).2 = Some V1.TclError ∧
  V1.notes (V1.apply_ranges_run true false b).1.1 = {[ (1, 0%nat, 19%nat) := "gold" ]} ∧
  length (V1.current_qpulse1 (V1.apply_ranges_run true false b).1.1) = 5%nat.
Proof.
  intros a b.
  assert (Hb : (1, 0%nat, 19%nat) ∈ V1.buttons b)
    by (vm_compute; reflexivity).
  destruct (v1_apply_builds_both_grids a true false
              (int_float 1000) (float_of_decimal false 505 (-1)) 1 39 7 5)
    as (_ & _ & Hq1 & _ & _ & Hok & _); [vm_compute; reflexivity..|].
  destruct (v1_apply_builds_both_grids b true false
              (int_float 1000) (float_of_decimal false 505 (-1)) 1 5 7 5)
    as (_ & _ & Hq1' & _ & _ & _ & Hbad); [vm_compute; reflexivity..|].
  destruct Hok as (Hesc & Hnotes & _).
  { intros k Hk _. subst a. cbn [V1.set_notes V1.notes] in Hk.
    apply elem_of_dom in Hk as [v Hv]. apply lookup_singleton_Some in Hv as [<- _].
    left. split; [reflexivity|]. split; [cbn [fst snd]; lia|].
    apply Nat.ltb_lt. vm_compute. reflexivity. }
  destruct (Hbad (1, 0%nat, 19%nat)) as (Hesc' & Hnotes' & _).
  { subst b. cbn [V1.set_notes V1.notes]. rewrite dom_singleton. by apply elem_of_singleton. }
  { exact Hb. }
  { intros [(_ & _ & H) | (H & _)]; [|discriminate H].
    apply Nat.ltb_lt in H. vm_compute in H. discriminate H. }
  split; [exact Hesc|]. split; [exact Hnotes|].
  split; [rewrite Hq1; vm_compute; reflexivity|].
  split; [exact Hb|]. split; [exact Hesc'|]. split; [exact Hnotes'|].
  rewrite Hq1'. vm_compute. reflexivity.
Defined.

Lemma V1_load_rows_frame (rows : list (gmap string (option string))) (a : V1.app) (n : Z) :
  let out := V1.load_rows rows a n in
  V1.buttons out.1.1 = V1.buttons a ∧
  dom (V1.notes out.1.1) ⊆ dom (V1.notes a) ∪ V1.buttons a ∧
  n <= out.1.2 <= n + Z.of_nat (length rows).
Proof.
  revert a n. induction rows as [|row rows IH]; intros a n; cbn [V1.load_rows length].
  - cbn. split; [done|]. split; [apply union_subseteq_l | lia].
  - destruct (V1.locate_row a row) as [|k text|e] eqn:E.
    + destruct (IH a n) as (Hb & Hd & Hn). split; [done|]. split; [done|]. lia.
    + assert (k ∈ V1.buttons a) as Hk.
      { unfold V1.locate_row in E.
        repeat match type of E with
               | (if bool_decide ?P then _ else _) = _ =>
                   destruct (bool_decide P) eqn:?; try discriminate E
               | match ?x with _ => _ end = _ => destruct x; try discriminate E
               | (let found := _ in _) = _ => cbv zeta in E
               end.
        injection E as <- _.
        match goal with H : bool_decide _ = true |- _ => by apply bool_decide_eq_true in H end. }
      destruct (IH (V1.set_notes (<[k:=text]> (V1.notes a)) a) (n + 1)) as (Hb & Hd & Hn).
      cbn [V1.set_notes V1.buttons V1.notes] in Hb, Hd.
      split; [done|]. split; [|lia].
      intros k' Hk'. apply Hd in Hk'. apply elem_of_union in Hk' as [Hk'|Hk'].
      * rewrite dom_insert in Hk'. apply elem_of_union in Hk' as [Hk'|Hk'].
        -- apply elem_of_singleton in Hk'. subst k'. apply elem_of_union. by right.
        -- apply elem_of_union. by left.
      * apply elem_of_union. by right.
    + cbn. split; [done|]. split; [apply union_subseteq_l | lia].
Qed.

(** v1: the restore loop of an import never touches the button table,
    attaches a note only to a cell that is a button or had a note already,
    and counts at most one loaded note per row. *)
Theorem v1_import_rows_frame (rows : list (gmap string (option string)))
  (a : V1.app) (n : Z) :
  V1.buttons (V1.load_rows rows a n).1.1 = V1.buttons a ∧
  dom (V1.notes (V1.load_rows rows a n).1.1) ⊆ dom (V1.notes a) ∪ V1.buttons a ∧
  n <= (V1.load_rows rows a n).1.2 <= n + Z.of_nat (length rows).
Proof. apply V1_load_rows_frame. Qed.

End V1Apply.
